(** * Nostril: the n-gram nonsense detector

    A shallow embedding of [nostril/nonsense_detector.py]: n-gram
    extraction, the weight-table builder [ngram_values], the scorer made by
    [tfidf_score_function] and the detector made by
    [generate_nonsense_detector], followed by the properties of the
    specification stated against that embedding, and the loops of the
    test harness ([test_strings], [test_labeled]) with further properties
    of the code.

    Conventions of the embedding.
    - A Python [str] is a [string]; its characters are the code points
      0..255 (Latin-1), which is what the type [ascii] enumerates.
    - A Python [int] is a [Z].
    - A [dict] is an association list in insertion order ([dict K V]);
      assigning to a present key updates it in place, assigning to an
      absent key appends it, as in Python 3.7 and later.
    - A raised exception is a value [Raise e] of the type [result].
    - A function that calls itself takes the number of frames the
      interpreter still grants, [limit], and raises [RecursionError]
      when none is left.
    - The idf weights are the only floating point values the builder
      makes.  They are kept symbolically ([IdfLog2 p q] stands for
      [log(p/q, 2)]) and compared, tested against 0 and rounded up with
      their exact real meaning; [idf_real] gives that meaning.  The
      rounding errors of the floating point division and logarithm, and
      the [OverflowError] of a quotient beyond the range of the floats,
      are not part of the model.
    - The arithmetic of the scorer is taken through an interface
      ([FloatOps]), so that what is proved of the scorer without laws
      holds of any arithmetic, and [RealOps] is its reading in the real
      numbers.  The interface tells the integers and the powers that are
      beyond the range of the floats, for which the conversion and
      [math.pow] raise an [OverflowError], and the exponents that are
      finite, for which [math.pow] has its domain error.
    - The harness is modelled on the list of strings, or of lines, that
      it is given or reads; the files, the clock and what is printed are
      not part of the model. *)

From Stdlib Require Import ZArith List Bool Ascii String Lia.
From Stdlib Require Import Reals ROrderedType Lra.
From Stdlib Require Import Permutation.
Import ListNotations.

Local Open Scope string_scope.
Local Open Scope Z_scope.
Local Open Scope list_scope.

(* ------------------------------------------------------------------ *)
(** ** Exceptions *)

(** The [ValueError]s of the module, told apart by their message. *)
Inductive value_error : Type :=
| Too_short_to_test        (* raise ValueError('Too short to test') *)
| Cannot_find_pickle_file  (* raise ValueError('Cannot find pickle file ...') *)
| Max_arg_is_empty         (* max() of an empty sequence *)
| Math_domain_error.       (* math.log, math.pow outside their domain *)

Inductive exn : Type :=
| ValueError (e : value_error)
| KeyError (key : string)
| ZeroDivisionError
| RecursionError
| StopIteration
| OverflowError.           (* a float result or operand beyond the floats *)

Inductive result (A : Type) : Type :=
| Ok (a : A)
| Raise (e : exn).

Arguments Ok {A} a.
Arguments Raise {A} e.

Definition bind {A B : Type} (r : result A) (k : A -> result B) : result B :=
  match r with
  | Ok a => k a
  | Raise e => Raise e
  end.

Notation "x <- r ;; k" := (bind r (fun x => k))
  (at level 61, r at next level, right associativity).

(* ------------------------------------------------------------------ *)
(** ** Python strings *)

Module PyStr.

Definition len (s : string) : Z := Z.of_nat (String.length s).

(** [range(k)] *)
Definition range (k : Z) : list Z := map Z.of_nat (seq 0 (Z.to_nat k)).

(** Index adjustment of a slice bound: a negative bound counts from the
    end, and every bound is clamped to [0, len]. *)
Definition adjust_index (l i : Z) : Z :=
  if i <? 0 then Z.max 0 (i + l) else Z.min i l.

(** [s[start:stop]] *)
Definition slice (s : string) (start stop : Z) : string :=
  let l := len s in
  let a := adjust_index l start in
  let b := adjust_index l stop in
  if a <? b then substring (Z.to_nat a) (Z.to_nat (b - a)) s else "".

Definition in_range (lo hi : N) (c : ascii) : bool :=
  let k := N_of_ascii c in (N.leb lo k && N.leb k hi)%bool.

(** [str.lower] on one code point below 256: A-Z, and the upper case
    letters of Latin-1 (U+00C0..U+00DE except the sign U+00D7), move 32
    places up; everything else stays. *)
Definition lower_char (c : ascii) : ascii :=
  if (in_range 65 90 c
      || (in_range 192 222 c && negb (N.eqb (N_of_ascii c) 215)))%bool
  then ascii_of_N (N_of_ascii c + 32)
  else c.

Fixpoint lower (s : string) : string :=
  match s with
  | EmptyString => EmptyString
  | String c s' => String (lower_char c) (lower s')
  end.

Fixpoint mem_char (c : ascii) (s : string) : bool :=
  match s with
  | EmptyString => false
  | String d s' => (Ascii.eqb c d || mem_char c s')%bool
  end.

(** [s.translate(str.maketrans('', '', del))]: the characters of [del]
    are deleted. *)
Fixpoint translate_delete (del s : string) : string :=
  match s with
  | EmptyString => EmptyString
  | String c s' =>
      if mem_char c del then translate_delete del s'
      else String c (translate_delete del s')
  end.

Definition of_codes (l : list N) : string :=
  string_of_list_ascii (map ascii_of_N l).

(** [string.ascii_lowercase] *)
Definition ascii_lowercase : string := "abcdefghijklmnopqrstuvwxyz".

(** [string.digits] *)
Definition digits : string := "0123456789".

(** [string.punctuation]: the 32 printable ASCII characters that are
    neither letters, digits nor the space, given by their code points
    (33..47, 58..64, 91..96 and 123..126). *)
Definition punctuation : string :=
  of_codes [33; 34; 35; 36; 37; 38; 39; 40; 41; 42; 43; 44; 45; 46; 47;
            58; 59; 60; 61; 62; 63; 64;
            91; 92; 93; 94; 95; 96;
            123; 124; 125; 126]%N.

(** A lower case letter a..z. *)
Definition is_lower_letter (c : ascii) : bool := in_range 97 122 c.

Fixpoint all_chars (p : ascii -> bool) (s : string) : bool :=
  match s with
  | EmptyString => true
  | String c s' => (p c && all_chars p s')%bool
  end.

End PyStr.

(* ------------------------------------------------------------------ *)
(** ** General n-gram functions *)

(** [def ngrams(string, n)]:
    [[string[i : i + n] for i in range(len(string) - n + 1)]] *)
Definition ngrams (s : string) (n : Z) : list string :=
  map (fun i => PyStr.slice s i (i + n)) (PyStr.range (PyStr.len s - n + 1)).

(** [def all_possible_ngrams(n)].  The function calls itself on [n - 1]
    and stops only at 0 and 1; [limit] is the number of frames the
    interpreter still grants (its recursion limit), and running out of
    them is the [RecursionError] that Python raises. *)
Fixpoint all_possible_ngrams (limit : nat) (n : Z) : result (list string) :=
  match limit with
  | O => Raise RecursionError
  | S limit' =>
      let all_letters := list_ascii_of_string PyStr.ascii_lowercase in
      if n =? 0 then Ok []
      else if n =? 1 then Ok (map (fun letter => String letter "") all_letters)
      else
        fold_left
          (fun acc letter =>
             new_ngrams <- acc ;;
             shorter <- all_possible_ngrams limit' (n - 1) ;;
             Ok (new_ngrams ++ map (String letter) shorter))
          all_letters (Ok [])
  end.

(* ------------------------------------------------------------------ *)
(** ** Dictionaries and sets *)

Definition dict (V : Type) : Type := list (string * V).

Fixpoint dict_get {V : Type} (d : dict V) (k : string) : option V :=
  match d with
  | [] => None
  | (k', v) :: d' => if String.eqb k k' then Some v else dict_get d' k
  end.

(** [d[k] = v] *)
Fixpoint dict_set {V : Type} (d : dict V) (k : string) (v : V) : dict V :=
  match d with
  | [] => [(k, v)]
  | (k', v') :: d' =>
      if String.eqb k k' then (k', v) :: d' else (k', v') :: dict_set d' k v
  end.

Definition dict_keys {V : Type} (d : dict V) : list string := map fst d.

Definition dict_values {V : Type} (d : dict V) : list V := map snd d.

(** [dict.fromkeys(keys, v)] *)
Definition fromkeys {V : Type} (keys : list string) (v : V) : dict V :=
  fold_left (fun d k => dict_set d k v) keys [].

(** [d[k]] on a [defaultdict]: the default stands for an absent key. *)
Definition get_default {V : Type} (d : dict V) (k : string) (dflt : V) : V :=
  match dict_get d k with
  | Some v => v
  | None => dflt
  end.

(** [d[k]] on a plain [dict] *)
Definition getitem {V : Type} (d : dict V) (k : string) : result V :=
  match dict_get d k with
  | Some v => Ok v
  | None => Raise (KeyError k)
  end.

Fixpoint mem_string (x : string) (l : list string) : bool :=
  match l with
  | [] => false
  | y :: l' => (String.eqb x y || mem_string x l')%bool
  end.

(** [s.add(x)] on a set of strings, kept as a list without repeats. *)
Definition set_add (x : string) (s : list string) : list string :=
  if mem_string x s then s else s ++ [x].

(* ------------------------------------------------------------------ *)
(** ** The idf weights *)

(** The numbers the builder stores in the [idf] field: the [int]s 0 and
    [ceil(...)], and the [float]s [log(p/q, 2)] with [p, q > 0]. *)
Inductive idfv : Type :=
| IdfInt (z : Z)
| IdfLog2 (p q : Z).

(** [x <= y], by the exact values: [log2 (p/q) <= k] is [p <= 2^k * q]. *)
Definition idf_leb (x y : idfv) : bool :=
  match x, y with
  | IdfInt a, IdfInt b => a <=? b
  | IdfLog2 p q, IdfLog2 r s => p * s <=? r * q
  | IdfInt k, IdfLog2 p q =>
      if 0 <=? k then 2 ^ k * q <=? p else q <=? 2 ^ (- k) * p
  | IdfLog2 p q, IdfInt k =>
      if 0 <=? k then p <=? 2 ^ k * q else 2 ^ (- k) * p <=? q
  end.

(** [x > y] *)
Definition idf_gtb (x y : idfv) : bool := negb (idf_leb x y).

(** [x == 0] *)
Definition idf_is_zero (x : idfv) : bool :=
  match x with
  | IdfInt z => z =? 0
  | IdfLog2 p q => p =? q
  end.

(** [math.ceil(x)] *)
Definition py_ceil (x : idfv) : Z :=
  match x with
  | IdfInt z => z
  | IdfLog2 p q =>
      if q <? p then Z.log2_up ((p + q - 1) / q) else - Z.log2 (q / p)
  end.

(** [max(xs)]: the first of the greatest elements; an empty argument is
    a [ValueError]. *)
Definition py_max {A : Type} (gtb : A -> A -> bool) (xs : list A) : result A :=
  match xs with
  | [] => Raise (ValueError Max_arg_is_empty)
  | x :: xs' => Ok (fold_left (fun m y => if gtb y m then y else m) xs' x)
  end.

Record NGramData : Type := mkNGramData {
  string_frequency : Z;
  total_frequency : Z;
  idf : idfv
}.

(** [def ngram_idf_value(total_num_strings, string_frequency,
    total_frequency, max_frequency)]:
    [log(total_num_strings/(1 + string_frequency), 2)].  The division
    raises on a zero divisor and the logarithm on a quotient that is not
    positive. *)
Definition ngram_idf_value (total_num_strings string_frequency
                            total_frequency max_frequency : Z) : result idfv :=
  let q := 1 + string_frequency in
  if q =? 0 then Raise ZeroDivisionError
  else if total_num_strings * q <=? 0 then Raise (ValueError Math_domain_error)
  else if q <? 0 then Ok (IdfLog2 (- total_num_strings) (- q))
  else Ok (IdfLog2 total_num_strings q).

(** [def highest_idf(ngram_freq)] *)
Definition highest_idf (ngram_freq : dict NGramData) : result idfv :=
  py_max idf_gtb (map (fun kv => idf (snd kv)) ngram_freq).

(** [def highest_total_frequency(ngram_freq)] *)
Definition highest_total_frequency (ngram_freq : dict NGramData) : result Z :=
  py_max Z.gtb (map (fun kv => total_frequency (snd kv)) ngram_freq).

(* ------------------------------------------------------------------ *)
(** ** The table builder *)

(** The body of the inner counting loop:
    [occurrences[ngram].add(string); counts[ngram] += 1]. *)
Definition count_ngram (lowered : string)
    (st : dict Z * dict (list string)) (ngram : string)
    : dict Z * dict (list string) :=
  let (counts, occurrences) := st in
  let occurrences' :=
    dict_set occurrences ngram (set_add lowered (get_default occurrences ngram [])) in
  let counts' := dict_set counts ngram (get_default counts ngram 0 + 1) in
  (counts', occurrences').

(** The body of the outer counting loop, for one corpus string. *)
Definition count_string (n : Z)
    (st : dict Z * dict (list string) * Z) (s : string)
    : dict Z * dict (list string) * Z :=
  let '(counts, occurrences, num_strings) := st in
  let lowered := PyStr.lower s in
  let num_strings' := num_strings + 1 in
  let (counts', occurrences') :=
    fold_left (count_ngram lowered) (ngrams lowered n) (counts, occurrences) in
  (counts', occurrences', num_strings').

Definition count_pass (string_list : list string) (n : Z)
    : dict Z * dict (list string) * Z :=
  fold_left (count_string n) string_list ([], [], 0).

(** [NGramData(string_frequency=0, total_frequency=0, idf=0)] *)
Definition initial_entry : NGramData := mkNGramData 0 0 (IdfInt 0).

(** The body of the loop over [occurrences.items()]. *)
Definition score_ngram (counts : dict Z) (num_strings max_frequency : Z)
    (acc : result (dict NGramData)) (item : string * list string)
    : result (dict NGramData) :=
  all_ngrams <- acc ;;
  let (ngram, string_list) := item in
  let string_freq := Z.of_nat (List.length string_list) in
  let total_freq := get_default counts ngram 0 in
  score <- ngram_idf_value num_strings string_freq total_freq max_frequency ;;
  Ok (dict_set all_ngrams ngram (mkNGramData string_freq total_freq score)).

(** The body of the zero-score loop. *)
Definition readjust (max_idf : Z) (item : string * NGramData)
    : string * NGramData :=
  let (ngram, value) := item in
  if idf_is_zero (idf value)
  then (ngram, mkNGramData 0 0 (IdfInt max_idf))
  else (ngram, value).

(** [def ngram_values(string_list, n, readjust_zero_scores=True)] *)
Definition ngram_values (limit : nat) (string_list : list string) (n : Z)
    (readjust_zero_scores : bool) : result (dict NGramData) :=
  let '(counts, occurrences, num_strings) := count_pass string_list n in
  possible <- all_possible_ngrams limit n ;;
  let all_ngrams := fromkeys possible initial_entry in
  max_frequency <- py_max Z.gtb (dict_values counts) ;;
  all_ngrams <-
    fold_left (score_ngram counts num_strings max_frequency)
      occurrences (Ok all_ngrams) ;;
  if readjust_zero_scores then
    highest <- highest_idf all_ngrams ;;
    let max_idf := py_ceil highest in
    Ok (map (readjust max_idf) all_ngrams)
  else Ok all_ngrams.


(* ------------------------------------------------------------------ *)
(** ** The arithmetic of the scorer *)

(** The floating point operations the scorer and the detector use.  No
    law is asked of them: what is proved for every [FloatOps] holds
    whatever the rounding, and whatever the range of the floats.  The
    sums, products and quotients of floats raise nothing: beyond the
    range they give an infinity.  What raises is the conversion of an
    [int] too large for a float, and [math.pow]. *)
Class FloatOps : Type := {
  F : Type;
  of_int : Z -> F;             (* an [int] operand turned into a [float] *)
  int_fits : Z -> bool;        (* whether the [int] is in the range of the
                                  floats; the conversion of another one
                                  raises an [OverflowError] *)
  of_idf : idfv -> F;          (* the stored idf as an operand *)
  half : F;                    (* the literal [0.5] *)
  fadd : F -> F -> F;
  fmul : F -> F -> F;
  fdiv : F -> F -> F;          (* [x / y] when [y] is not 0 *)
  fpow : F -> F -> F;          (* what [math.pow(x, y)] returns for
                                  [x >= 0], when it returns *)
  pow_overflows : F -> F -> bool;
                               (* for finite [x > 0] and [y]: whether the
                                  power is beyond the range of the floats *)
  is_finite : F -> bool;       (* neither an infinity nor a NaN *)
  fsign : F -> comparison;     (* how a finite operand compares with 0 *)
  fgtb : F -> F -> bool        (* [x > y] *)
}.

Section Scoring.

Context {ops : FloatOps}.

(** [math.pow(x, y)] for an [int] base [x >= 0], the only bases the
    scorer passes, and a [float] exponent.  With a finite exponent, a
    zero base gives 0.0 for a positive exponent, 1.0 for a zero exponent
    and a [ValueError] for a negative one.  The base 1 gives 1.0 for
    every exponent.  Another base is first converted, which raises an
    [OverflowError] when it is too large, and with a finite exponent a
    power beyond the range of the floats is an [OverflowError].  With an
    exponent that is an infinity or a NaN nothing is raised. *)
Definition math_pow (x : Z) (y : F) : result F :=
  if x =? 0 then
    if is_finite y then
      match fsign y with
      | Lt => Raise (ValueError Math_domain_error)
      | Eq => Ok (of_int 1)
      | Gt => Ok (of_int 0)
      end
    else Ok (fpow (of_int 0) y)
  else if x =? 1 then Ok (fpow (of_int 1) y)
  else if negb (int_fits x) then Raise OverflowError
  else if (is_finite y && pow_overflows (of_int x) y)%bool
       then Raise OverflowError
  else Ok (fpow (of_int x) y).

(** An [int] as the operand of a float operation. *)
Definition float_of_int (z : Z) : result F :=
  if int_fits z then Ok (of_int z) else Raise OverflowError.

(** The stored idf as the operand of a float product: an [int], the 0 of
    the initial entries or the ceiling of the zero-score pass, is
    converted; a [float] is taken as it is. *)
Definition float_of_idf (w : idfv) : result F :=
  match w with
  | IdfInt z => if int_fits z then Ok (of_idf w) else Raise OverflowError
  | IdfLog2 _ _ => Ok (of_idf w)
  end.

(** The counting loop of the scorer: [ngram_counts[ngram] += 1]. *)
Definition count_occurrence (ngram_counts : dict Z) (ngram : string) : dict Z :=
  dict_set ngram_counts ngram (get_default ngram_counts ngram 0 + 1).

(** One term of the sum,
    [ngram_freq[n].idf * pow(c, repetition_penalty_exp)
       * (0.5 + 0.5*c/max_freq)], evaluated left to right: the lookup,
    the power, the product of the two, then the second factor.  In
    [0.5*c] the count [c] is one that [pow] has converted already.  The
    division converts [max_freq] and then tests it; the conversion of 0
    cannot fail, so that the test comes first here. *)
Definition score_term (ngram_freq : dict NGramData) (max_freq : Z)
    (repetition_penalty_exp : F) (n : string) (c : Z) : result F :=
  value <- getitem ngram_freq n ;;
  repetition_penalty <- math_pow c repetition_penalty_exp ;;
  weight <- float_of_idf (idf value) ;;
  if max_freq =? 0 then Raise ZeroDivisionError
  else
    divisor <- float_of_int max_freq ;;
    let tf := fadd half (fdiv (fmul half (of_int c)) divisor) in
    Ok (fmul (fmul weight repetition_penalty) tf).

(** [sum(... for n, c in ngram_counts.items())], which starts from the
    [int] 0 and adds the terms in the order of the dictionary.  From
    Python 3.12 on, [sum] also carries a correction of the rounding
    errors of these additions, which makes no difference in exact
    arithmetic and is not part of the model. *)
Definition sum_terms (ngram_freq : dict NGramData) (max_freq : Z)
    (repetition_penalty_exp : F) (ngram_counts : dict Z) : result F :=
  fold_left
    (fun acc item =>
       total <- acc ;;
       term <- score_term ngram_freq max_freq repetition_penalty_exp
                 (fst item) (snd item) ;;
       Ok (fadd total term))
    ngram_counts (Ok (of_int 0)).

(** [def score_function(string)], the closure that
    [tfidf_score_function] returns, with the variables it captures as
    its first arguments.  The number of n-grams of a string is at most
    its length plus one, which is in the range of the floats: the last
    division converts it without a test. *)
Definition score_function (ngram_freq : dict NGramData)
    (max_freq ngram_length len_threshold : Z)
    (len_penalty_exp repetition_penalty_exp : F) (s : string) : result F :=
  let string_ngrams := ngrams s ngram_length in
  let ngram_counts := fold_left count_occurrence string_ngrams [] in
  let num_ngrams := Z.of_nat (List.length string_ngrams) in
  length_penalty <-
    math_pow (Z.max 0 (num_ngrams - len_threshold)) len_penalty_exp ;;
  total <- sum_terms ngram_freq max_freq repetition_penalty_exp ngram_counts ;;
  let score := fadd total length_penalty in
  Ok (fdiv score (of_int (1 + num_ngrams))).

(** [next(iter(d.keys()))] *)
Definition first_key {V : Type} (d : dict V) : result string :=
  match d with
  | [] => Raise StopIteration
  | (k, _) :: _ => Ok k
  end.

(** [def tfidf_score_function(ngram_freq, len_threshold, len_penalty_exp,
    repetition_penalty_exp)].  [len_threshold] is the integer that
    [int(len_threshold)] gives. *)
Definition tfidf_score_function (ngram_freq : dict NGramData)
    (len_threshold : Z) (len_penalty_exp repetition_penalty_exp : F)
    : result (string -> result F) :=
  max_freq <- highest_total_frequency ngram_freq ;;
  key <- first_key ngram_freq ;;
  let ngram_length := PyStr.len key in
  Ok (score_function ngram_freq max_freq ngram_length len_threshold
        len_penalty_exp repetition_penalty_exp).

(* ------------------------------------------------------------------ *)
(** ** Scoring and evaluating strings *)

(** [_delchars = str.maketrans('', '',
      string.punctuation + string.digits + ' ')] *)
Definition _delchars : string :=
  (PyStr.punctuation ++ PyStr.digits ++ " ")%string.

(** [string.lower().translate(_delchars)], the first statement of the
    detector. *)
Definition normalize (s : string) : string :=
  PyStr.translate_delete _delchars (PyStr.lower s).

(** [def nonsense_detector(string, show=trace)], the closure that
    [generate_nonsense_detector] returns, with the variables it captures
    as its first arguments.  The tracing variant prints a line before it
    returns the same value. *)
Definition nonsense_detector (string_score : string -> result F)
    (min_length : Z) (min_score : F) (s : string) : result bool :=
  let s := normalize s in
  if PyStr.len s <? min_length then Raise (ValueError Too_short_to_test)
  else
    score <- string_score s ;;
    Ok (fgtb score min_score).

(** [if not ngram_freq]: [None] and the empty dictionary are false. *)
Definition is_falsy (ngram_freq : option (dict NGramData)) : bool :=
  match ngram_freq with
  | None => true
  | Some [] => true
  | Some (_ :: _) => false
  end.

(** [def generate_nonsense_detector(ngram_freq, min_length, min_score,
    ..., score_len_threshold, score_len_penalty_exp,
    score_rep_penalty_exp)].  [pickled] is what the pickle file holds,
    [None] when the file does not exist. *)
Definition generate_nonsense_detector
    (ngram_freq pickled : option (dict NGramData))
    (min_length : Z) (min_score : F)
    (score_len_threshold : Z)
    (score_len_penalty_exp score_rep_penalty_exp : F)
    : result (string -> result bool) :=
  table <-
    (if is_falsy ngram_freq then
       match pickled with
       | None => Raise (ValueError Cannot_find_pickle_file)
       | Some t => Ok t
       end
     else Ok (match ngram_freq with Some t => t | None => [] end)) ;;
  string_score <-
    tfidf_score_function table score_len_threshold
      score_len_penalty_exp score_rep_penalty_exp ;;
  Ok (nonsense_detector string_score min_length min_score).

End Scoring.

(* ------------------------------------------------------------------ *)
(** ** Notions of the specification and of the proofs *)

(** The idf values of the n-grams whose [string_frequency] is positive,
    in the order of the table. *)
Definition observed_idfs (t : dict NGramData) : list idfv :=
  map idf (filter (fun v => 0 <? string_frequency v) (dict_values t)).

(** An idf that stands for a finite number: an integer, or the logarithm
    of a positive quotient. *)
Definition idf_finite (x : idfv) : Prop :=
  match x with
  | IdfInt _ => True
  | IdfLog2 p q => 0 < p /\ 0 < q
  end.

(** What the two dictionaries of the counting pass always satisfy: they
    have the same keys in the same order, every set of occurrences has a
    member and every count is at least 1. *)
Definition counting_invariant (st : dict Z * dict (list string)) : Prop :=
  dict_keys (fst st) = dict_keys (snd st)
  /\ Forall (fun kv => snd kv <> []) (snd st)
  /\ Forall (fun kv => 1 <= snd kv) (fst st).

(** While one string [cur] is counted, after [N] earlier strings: a set
    of occurrences has at most [N] members, or [N + 1] when [cur] is one
    of them. *)
Definition occurrences_bounded (cur : string) (N : Z)
    (occurrences : dict (list string)) : Prop :=
  Forall
    (fun kv =>
       Z.of_nat (List.length (snd kv)) <= N + 1
       /\ (~ In cur (snd kv) -> Z.of_nat (List.length (snd kv)) <= N))
    occurrences.

(** An entry of the table before the zero-score pass: either the initial
    entry, or an observed n-gram, found in at least one and at most
    [num_strings] strings, with its idf
    [log(num_strings/(1 + string_frequency), 2)]. *)
Definition scored_entry (num_strings : Z) (v : NGramData) : Prop :=
  v = mkNGramData 0 0 (IdfInt 0)
  \/ (1 <= string_frequency v <= num_strings
      /\ idf v = IdfLog2 num_strings (1 + string_frequency v)).

(** The dictionaries of the counting pass when n = 0: nothing yet, or the
    empty string alone. *)
Definition only_empty_key (st : dict Z * dict (list string)) : Prop :=
  exists c l, st = ([("", c)], [("", l)]).

(** The exceptions a scorer can raise. *)
Definition scorer_exception (e : exn) : Prop :=
  e = ValueError Math_domain_error
  \/ e = ZeroDivisionError
  \/ e = OverflowError
  \/ exists k, e = KeyError k.

(** The letters a..z as a list. *)
Definition all_letters : list ascii :=
  list_ascii_of_string PyStr.ascii_lowercase.

(** Every string of [k] lowercase letters, in alphabetical order. *)
Fixpoint words (k : nat) : list string :=
  match k with
  | O => [""]
  | S k' => flat_map (fun letter => map (String letter) (words k')) all_letters
  end.

(** The possible n-grams of length [k]: the list that
    [all_possible_ngrams] builds for [k >= 1], by recursion on [k]. *)
Fixpoint lowercase_ngrams (k : nat) : list string :=
  match k with
  | O => []
  | S k' =>
      let all_letters := list_ascii_of_string PyStr.ascii_lowercase in
      match k' with
      | O => map (fun letter => String letter "") all_letters
      | S _ =>
          flat_map (fun letter => map (String letter) (lowercase_ngrams k'))
            all_letters
      end
  end.

(** The table of a small corpus, as [ngram_values] returns it. *)
Definition table_of (string_list : list string) (n : Z) : dict NGramData :=
  match ngram_values 5 string_list n true with
  | Ok t => t
  | Raise _ => []
  end.

Definition table_a : dict NGramData := Eval vm_compute in table_of ["a"] 1.

(** The distinct elements of a list, in the order of their first
    occurrence. *)
Definition distinct (l : list string) : list string :=
  fold_left (fun seen x => set_add x seen) l [].

(** c(g): the number of occurrences of [g] in a list of n-grams. *)
Definition occurrence_count (g : string) (l : list string) : Z :=
  Z.of_nat (count_occ string_dec l g).

Section ScoreFormula.

Context {ops : FloatOps}.

(** The contribution of an n-gram of idf [w] that occurs [c] times:
    [w * c^repetition_penalty_exponent
       * (0.5 + 0.5 * c / max_total_frequency)]. *)
Definition contribution (w : idfv) (c : Z) (repetition_penalty_exponent : F)
    (max_total_frequency : Z) : F :=
  fmul (fmul (of_idf w) (fpow (of_int c) repetition_penalty_exponent))
       (fadd half (fdiv (fmul half (of_int c)) (of_int max_total_frequency))).

(** idf(g), read in the table. *)
Definition idf_of (table : dict NGramData) (g : string) : idfv :=
  match dict_get table g with
  | Some d => idf d
  | None => IdfInt 0
  end.

(** The length penalty [max(0, m - length_threshold)^length_penalty_exponent],
    which is 0 up to the threshold. *)
Definition length_penalty_formula (m length_threshold : Z)
    (length_penalty_exponent : F) : F :=
  if m <=? length_threshold then of_int 0
  else fpow (of_int (m - length_threshold)) length_penalty_exponent.

(** The score of the specification: the sum of the contributions of the
    distinct n-grams of [s], plus the length penalty, over [1 + m]. *)
Definition score_formula (table : dict NGramData)
    (max_total_frequency n length_threshold : Z)
    (length_penalty_exponent repetition_penalty_exponent : F)
    (s : string) : F :=
  let grams := ngrams s n in
  let m := Z.of_nat (List.length grams) in
  let ngram_score_sum :=
    fold_left
      (fun acc g =>
         fadd acc
           (contribution (idf_of table g) (occurrence_count g grams)
              repetition_penalty_exponent max_total_frequency))
      (distinct grams) (of_int 0) in
  fdiv (fadd ngram_score_sum
          (length_penalty_formula m length_threshold length_penalty_exponent))
       (of_int (1 + m)).

End ScoreFormula.

Section FloatRange.

Context {ops : FloatOps}.

(** A power [math.pow(x, y)] of a base [x >= 1] that raises nothing:
    the base is 1, or it is in the range of the floats and so is the
    power, when the exponent is finite. *)
Definition pow_in_range (x : Z) (y : F) : Prop :=
  x = 1
  \/ (int_fits x = true
      /\ (is_finite y && pow_overflows (of_int x) y)%bool = false).

(** A stored idf that is a float, or an [int] in the range of the
    floats. *)
Definition idf_fits (w : idfv) : Prop :=
  match w with
  | IdfInt z => int_fits z = true
  | IdfLog2 _ _ => True
  end.

(** The scorer stays in the range of the floats on a list of n-grams:
    the maximal total frequency, the stored idf of every n-gram, the
    power of its count and the power of the length penalty are. *)
Definition in_float_range (table : dict NGramData)
    (max_freq len_threshold : Z) (lexp rexp : F) (grams : list string)
    : Prop :=
  (max_freq <> 0 -> int_fits max_freq = true)
  /\ (len_threshold < Z.of_nat (List.length grams) ->
      pow_in_range (Z.of_nat (List.length grams) - len_threshold) lexp)
  /\ forall g, In g grams ->
       pow_in_range (occurrence_count g grams) rexp
       /\ idf_fits (idf_of table g).

End FloatRange.

(* ------------------------------------------------------------------ *)
(** ** The arithmetic read in the real numbers *)

Definition log2R (x : R) : R := (ln x / ln 2)%R.

(** The number an idf stands for. *)
Definition idf_real (x : idfv) : R :=
  match x with
  | IdfInt z => IZR z
  | IdfLog2 p q => log2R (IZR p / IZR q)
  end.

#[export] Instance RealOps : FloatOps := {|
  F := R;
  of_int := IZR;
  of_idf := idf_real;
  half := (1 / 2)%R;
  fadd := Rplus;
  fmul := Rmult;
  fdiv := Rdiv;
  fpow := Rpower;
  pow_overflows := fun _ _ => false;
  is_finite := fun _ => true;
  int_fits := fun _ => true;
  fsign := fun x => Rcompare x 0;
  fgtb := fun x y => if Rlt_dec y x then true else false
|}.

(** A positive quotient of which the idf is the logarithm. *)
Definition idf_ratio (x : idfv) : Z * Z :=
  match x with
  | IdfInt k => if 0 <=? k then (2 ^ k, 1) else (1, 2 ^ (- k))
  | IdfLog2 p q => (p, q)
  end.

(** The sum of the scorer before the division by [1 + m], for a list of
    n-grams. *)
Definition score_sum (table : dict NGramData) (max_freq len_threshold : Z)
    (lexp rexp : R) (grams : list string) : R :=
  (fold_left
     (fun acc g =>
        acc + contribution (ops := RealOps) (idf_of table g)
                (occurrence_count g grams) rexp max_freq)
     (distinct grams) 0
   + length_penalty_formula (ops := RealOps) (Z.of_nat (List.length grams))
       len_threshold lexp)%R.

(** The tabulation character, code point 9. *)
Definition tab : ascii := ascii_of_N 9.

(** A corpus of eight strings in which a occurs in three distinct
    strings, and b and c in one each; its table for n = 1. *)
Definition corpus8 : list string := ["a"; "ab"; "ac"; "a"; "a"; "a"; "a"; "a"].

Definition table8 : dict NGramData := Eval vm_compute in table_of corpus8 1.

(* ------------------------------------------------------------------ *)
(** ** Notions of the further properties *)
(** The lower-cased strings of the corpus that hold the n-gram [g], in
    the order of the corpus. *)
Definition strings_with (g : string) (string_list : list string) (n : Z)
    : list string :=
  filter (fun x => mem_string g (ngrams x n)) (map PyStr.lower string_list).

(** The number of occurrences of the n-gram [g] in the whole corpus. *)
Fixpoint corpus_occurrences (g : string) (string_list : list string) (n : Z)
    : Z :=
  match string_list with
  | [] => 0
  | s :: rest =>
      occurrence_count g (ngrams (PyStr.lower s) n)
      + corpus_occurrences g rest n
  end.

(** The table of a corpus of two strings that share no n-gram: every
    observed n-gram is in N - 1 = 1 string, its idf is 0, and the
    zero-score pass resets every count. *)
Definition corpus_ab : list string := ["a"; "b"].

Definition table_ab : dict NGramData := Eval vm_compute in table_of corpus_ab 1.

(* ------------------------------------------------------------------ *)
(** ** Testing utilities *)

(** [True == 1] in a numeric context. *)
Definition int_of_bool (b : bool) : Z := if b then 1 else 0.

(** The totals [(failures, successes, count, skipped)] that [run_tests]
    returns; the elapsed time, read on the clock, is left out. *)
Definition totals : Type := (Z * Z * Z * Z)%type.

Section Testing.

(** [nonsense_tester(string, trace_scores)] *)
Variable nonsense_tester : string -> bool -> result bool.
Variable min_length : Z.
Variable sense : string.

(** The body of the loop of [run_tests] in [test_strings]. *)
Definition test_string (trace_scores : bool) (acc : result totals)
    (s : string) : result totals :=
  st <- acc ;;
  let '(failures, successes, count, skipped) := st in
  let s := normalize s in
  if PyStr.len s <? min_length
  then Ok (failures, successes, count, skipped + 1)
  else
    let count := count + 1 in
    is_junk <- nonsense_tester s trace_scores ;;
    if String.eqb sense "valid"
    then Ok (failures + int_of_bool is_junk,
             successes + int_of_bool (negb is_junk), count, skipped)
    else Ok (failures + int_of_bool (negb is_junk),
             successes + int_of_bool is_junk, count, skipped).

(** [def run_tests(trace_scores)] of [test_strings], over [id_list]. *)
Definition run_tests (id_list : list string) (trace_scores : bool)
    : result totals :=
  fold_left (test_string trace_scores) id_list (Ok (0, 0, 0, 0)).

(** [def print_stats(failures, successes, count, skipped, elapsed_time)]:
    [percent = 100*successes/(failures + successes)] is computed before
    the message is printed. *)
Definition print_stats (t : totals) : result unit :=
  let '(failures, successes, count, skipped) := t in
  if failures + successes =? 0 then Raise ZeroDivisionError else Ok tt.

(** [def test_strings(input, nonsense_tester, min_length, sense,
    trace_scores, save_to=None)] for an [input] that is a list of
    strings. *)
Definition test_strings (id_list : list string) (trace_scores : bool)
    : result totals :=
  r <- run_tests id_list trace_scores ;;
  if trace_scores then _ <- print_stats r ;; Ok r else Ok r.

End Testing.

(** A detector used as the tester of the harness: its second argument
    only asks for a trace. *)
Definition detector_as_tester (detector : string -> result bool)
    : string -> bool -> result bool :=
  fun s _ => detector s.

(** [str.isspace] on one code point below 256: the code points 9 to 13,
    28 to 32, 133 and 160. *)
Definition is_space (c : ascii) : bool :=
  (PyStr.in_range 9 13 c || PyStr.in_range 28 32 c
   || N.eqb (N_of_ascii c) 133 || N.eqb (N_of_ascii c) 160)%bool.

(** [s.lstrip()] *)
Fixpoint lstrip (s : string) : string :=
  match s with
  | EmptyString => EmptyString
  | String c s' => if is_space c then lstrip s' else s
  end.

(** [s.rstrip()] *)
Fixpoint rstrip (s : string) : string :=
  match s with
  | EmptyString => EmptyString
  | String c s' =>
      match rstrip s' with
      | EmptyString => if is_space c then EmptyString else String c EmptyString
      | String d r => String c (String d r)
      end
  end.

(** [s.strip()] *)
Definition strip (s : string) : string := lstrip (rstrip s).

(** [s.split(sep)] for a separator of one character: the pieces between
    the separators, of which there is always at least one. *)
Fixpoint split (sep : ascii) (s : string) : list string :=
  match s with
  | EmptyString => [EmptyString]
  | String c s' =>
      if Ascii.eqb c sep then EmptyString :: split sep s'
      else
        match split sep s' with
        | piece :: pieces => String c piece :: pieces
        | [] => [String c EmptyString]
        end
  end.

(** The comma, code point 44. *)
Definition comma : ascii := ascii_of_N 44.

(** What ends a run of [test_labeled]: the [IndexError] of [pieces[1]],
    or an exception of the tester. *)
Inductive labeled_exn : Type :=
| IndexError
| TesterRaised (e : exn).

(** The tuple [(false_positives, false_negatives, count, skipped)] of
    [test_labeled], or the exception that ended the run; the elapsed
    time is left out. *)
Inductive labeled_result : Type :=
| Totals (false_positives false_negatives : list string) (count skipped : Z)
| Failed (e : labeled_exn).

(** The body of the loop of [run_tests] in [test_labeled]. *)
Definition test_line (nonsense_tester : string -> bool -> result bool)
    (min_length : Z) (trace_scores : bool)
    (acc : labeled_result) (line : string) : labeled_result :=
  match acc with
  | Failed e => Failed e
  | Totals false_positives false_negatives count skipped =>
      match split comma (strip line) with
      | first :: s :: _ =>
          let is_real := String.eqb first "y" in
          if PyStr.len s <? min_length
          then Totals false_positives false_negatives count (skipped + 1)
          else
            let count := count + 1 in
            match nonsense_tester s trace_scores with
            | Raise e => Failed (TesterRaised e)
            | Ok is_junk =>
                if is_real then
                  if is_junk
                  then Totals (false_positives ++ [s]) false_negatives
                         count skipped
                  else Totals false_positives false_negatives count skipped
                else
                  if negb is_junk
                  then Totals false_positives (false_negatives ++ [s])
                         count skipped
                  else Totals false_positives false_negatives count skipped
            end
      | _ => Failed IndexError
      end
  end.

(** [def run_tests(filename, trace_scores)] of [test_labeled], over the
    lines that [f.readlines()] gives. *)
Definition run_tests_labeled (nonsense_tester : string -> bool -> result bool)
    (min_length : Z) (lines : list string) (trace_scores : bool)
    : labeled_result :=
  fold_left (test_line nonsense_tester min_length trace_scores) lines
    (Totals [] [] 0 0).

(** The line feed, code point 10, that ends a line of a file. *)
Definition line_feed : string := String (ascii_of_N 10) EmptyString.

(* ================================================================== *)
(** * Properties *)

(** ** N-gram extraction *)

Lemma range_nonpos (k : Z) : k <= 0 -> PyStr.range k = [].
Proof.
  intros Hk. unfold PyStr.range.
  replace (Z.to_nat k) with O by lia. reflexivity.
Qed.

Lemma length_range (k : Z) : List.length (PyStr.range k) = Z.to_nat k.
Proof. unfold PyStr.range. now rewrite length_map, length_seq. Qed.

Lemma length_ngrams (s : string) (n : Z) :
  List.length (ngrams s n) = Z.to_nat (PyStr.len s - n + 1).
Proof. unfold ngrams. now rewrite length_map, length_range. Qed.

Lemma length_substring (s : string) (i m : nat) :
  (i + m <= String.length s)%nat -> String.length (substring i m s) = m.
Proof.
  revert i m. induction s as [|c s IH]; intros i m H; simpl in H.
  - assert (i = O) by lia. assert (m = O) by lia. subst. reflexivity.
  - destruct i as [|i].
    + destruct m as [|m]; [reflexivity|]. simpl. f_equal. apply IH. lia.
    + simpl. apply IH. lia.
Qed.

(** Inside the string a slice of positive width is the substring. *)
Lemma slice_window (s : string) (i n : Z) :
  0 <= i -> 1 <= n -> i + n <= PyStr.len s ->
  PyStr.slice s i (i + n) = substring (Z.to_nat i) (Z.to_nat n) s.
Proof.
  intros Hi Hn Hlen. unfold PyStr.slice, PyStr.adjust_index.
  destruct (i <? 0) eqn:E1; [apply Z.ltb_lt in E1; lia|].
  destruct (i + n <? 0) eqn:E2; [apply Z.ltb_lt in E2; lia|].
  rewrite !Z.min_l by lia.
  destruct (i <? i + n) eqn:E3; [|apply Z.ltb_ge in E3; lia].
  do 2 f_equal. lia.
Qed.

Lemma nth_map_seq {A : Type} (f : nat -> A) (d : A) (len i : nat) :
  (i < len)%nat -> nth i (map f (seq 0 len)) d = f i.
Proof.
  intros Hi. rewrite (nth_indep _ d (f O)) by now rewrite length_map, length_seq.
  rewrite (map_nth f). now rewrite seq_nth.
Qed.

Lemma ngrams_substrings (s : string) (n : Z) :
  1 <= n ->
  ngrams s n =
  map (fun i => substring i (Z.to_nat n) s)
      (seq 0 (Z.to_nat (PyStr.len s - n + 1))).
Proof.
  intros Hn. unfold ngrams, PyStr.range. rewrite map_map.
  apply map_ext_in. intros i Hi. apply in_seq in Hi.
  rewrite slice_window by lia. now rewrite Nat2Z.id.
Qed.

(** C9. For 1 <= n <= len(s), [ngrams s n] is the list of the
    len(s) - n + 1 windows of s in order: its i-th element is the
    substring of length n that starts at position i, so that its k-th
    character is the character i + k of s and each window starts one
    character after the one before it.  For n > len(s) it is the empty
    list, and no exception is involved: [ngrams] is a total function. *)
Theorem ngrams_contiguous_windows (s : string) (n : Z) :
  (1 <= n <= PyStr.len s ->
     Z.of_nat (List.length (ngrams s n)) = PyStr.len s - n + 1
     /\ forall i : nat, (i < List.length (ngrams s n))%nat ->
          nth i (ngrams s n) "" = substring i (Z.to_nat n) s
          /\ PyStr.len (nth i (ngrams s n) "") = n
          /\ forall k : nat, (k < Z.to_nat n)%nat ->
               String.get k (nth i (ngrams s n) "") = String.get (i + k) s)
  /\ (PyStr.len s < n -> ngrams s n = []).
Proof.
  split.
  - intros [Hn Hlen]. split.
    + rewrite length_ngrams. lia.
    + intros i Hi. rewrite length_ngrams in Hi.
      assert (Hnth : nth i (ngrams s n) "" = substring i (Z.to_nat n) s).
      { rewrite ngrams_substrings by assumption.
        now rewrite nth_map_seq by exact Hi. }
      rewrite Hnth. split; [reflexivity|]. split.
      * unfold PyStr.len in *. rewrite length_substring by lia. lia.
      * intros k Hk. rewrite substring_correct1 by exact Hk.
        f_equal. lia.
  - intros Hlt. unfold ngrams. rewrite range_nonpos by lia. reflexivity.
Qed.

Example ngrams_hello :
  ngrams "hello" 2 = ["he"; "el"; "ll"; "lo"] /\ ngrams "hello" 6 = [].
Proof. split; reflexivity. Qed.

(** ** Dictionaries *)

Section DictFacts.

Context {V : Type}.

Lemma dict_get_set_eq (d : dict V) (k : string) (v : V) :
  dict_get (dict_set d k v) k = Some v.
Proof.
  induction d as [|[k' v'] d IH]; simpl.
  - now rewrite String.eqb_refl.
  - destruct (String.eqb k k') eqn:E; simpl; rewrite E; [reflexivity|exact IH].
Qed.

Lemma dict_get_set_ne (d : dict V) (k k' : string) (v : V) :
  k <> k' -> dict_get (dict_set d k v) k' = dict_get d k'.
Proof.
  intros Hne. induction d as [|[k0 v0] d IH]; simpl.
  - destruct (String.eqb k' k) eqn:E; [|reflexivity].
    apply String.eqb_eq in E. congruence.
  - destruct (String.eqb k k0) eqn:E; simpl.
    + apply String.eqb_eq in E. subst k0.
      destruct (String.eqb k' k) eqn:E'; [|reflexivity].
      apply String.eqb_eq in E'. congruence.
    + now rewrite IH.
Qed.

Lemma dict_get_In (d : dict V) (k : string) (v : V) :
  dict_get d k = Some v -> In (k, v) d.
Proof.
  induction d as [|[k' v'] d IH]; simpl; [discriminate|].
  destruct (String.eqb k k') eqn:E.
  - apply String.eqb_eq in E. intros [= ->]. subst. now left.
  - intros H. right. now apply IH.
Qed.

Lemma dict_get_None (d : dict V) (k : string) :
  dict_get d k = None <-> ~ In k (dict_keys d).
Proof.
  induction d as [|[k' v'] d IH]; simpl.
  - tauto.
  - destruct (String.eqb k k') eqn:E.
    + apply String.eqb_eq in E. subst. split; [discriminate|]. tauto.
    + apply String.eqb_neq in E. rewrite IH. split.
      * intros H [H'|H']; [congruence|tauto].
      * tauto.
Qed.

Lemma dict_get_Some_key (d : dict V) (k : string) :
  In k (dict_keys d) -> exists v, dict_get d k = Some v.
Proof.
  intros Hin. destruct (dict_get d k) as [v|] eqn:E; [now exists v|].
  apply dict_get_None in E. contradiction.
Qed.

(** Assignment keeps the keys when the key is present and appends the
    key when it is not. *)
Lemma dict_keys_set (d : dict V) (k : string) (v : V) :
  dict_keys (dict_set d k v) =
  if mem_string k (dict_keys d) then dict_keys d else dict_keys d ++ [k].
Proof.
  unfold dict_keys.
  induction d as [|[k' v'] d IH]; simpl; [reflexivity|].
  destruct (String.eqb k k') eqn:E; simpl; [reflexivity|].
  rewrite IH. now destruct (mem_string k (map fst d)).
Qed.

Lemma Forall_dict_set (P : string * V -> Prop) (d : dict V) (k : string) (v : V) :
  Forall P d -> (forall k', P (k', v)) -> Forall P (dict_set d k v).
Proof.
  intros Hd Hv. induction Hd as [|[k' v'] d Hx Hd IH]; simpl.
  - constructor; [apply Hv|constructor].
  - destruct (String.eqb k k'); constructor; auto.
Qed.

Lemma Forall_fromkeys (P : string * V -> Prop) (keys : list string) (v : V) :
  (forall k, P (k, v)) -> Forall P (fromkeys keys v).
Proof.
  intros Hv. unfold fromkeys.
  assert (H : forall d, Forall P d ->
            Forall P (fold_left (fun d k => dict_set d k v) keys d)).
  { induction keys as [|k keys IH]; intros d Hd; simpl; [exact Hd|].
    apply IH. now apply Forall_dict_set. }
  apply H. constructor.
Qed.

End DictFacts.

Lemma mem_string_In (x : string) (l : list string) :
  mem_string x l = true <-> In x l.
Proof.
  induction l as [|y l IH]; simpl.
  - split; [discriminate|tauto].
  - rewrite orb_true_iff, IH, String.eqb_eq. split; intros [H|H]; auto.
Qed.

Lemma mem_string_not_In (x : string) (l : list string) :
  mem_string x l = false <-> ~ In x l.
Proof.
  rewrite <- mem_string_In. destruct (mem_string x l); split; congruence.
Qed.

Lemma fold_left_invariant {A B : Type} (f : A -> B -> A) (P : A -> Prop)
    (l : list B) (a : A) :
  P a -> (forall a b, P a -> In b l -> P (f a b)) -> P (fold_left f l a).
Proof.
  revert a. induction l as [|b l IH]; intros a Ha Hf; simpl; [exact Ha|].
  apply IH.
  - apply Hf; [exact Ha|now left].
  - intros a' b' Ha' Hb'. apply Hf; [exact Ha'|now right].
Qed.

(** ** The counting pass *)

Lemma set_add_nonempty (x : string) (s : list string) : set_add x s <> [].
Proof.
  unfold set_add. destruct (mem_string x s) eqn:E.
  - intros ->. discriminate.
  - destruct s; discriminate.
Qed.

Lemma get_default_lower_bound (d : dict Z) (k : string) (b : Z) :
  Forall (fun kv => b <= snd kv) d -> b <= 1 -> b - 1 <= get_default d k 0.
Proof.
  intros Hd Hb. unfold get_default.
  destruct (dict_get d k) as [v|] eqn:E; [|lia].
  apply dict_get_In in E. rewrite Forall_forall in Hd.
  specialize (Hd _ E). simpl in Hd. lia.
Qed.

Lemma count_ngram_invariant (lowered ngram : string)
    (st : dict Z * dict (list string)) :
  counting_invariant st -> counting_invariant (count_ngram lowered st ngram).
Proof.
  destruct st as [counts occurrences]. unfold counting_invariant. simpl.
  intros (Hk & Ho & Hc). repeat split.
  - rewrite !dict_keys_set, Hk. reflexivity.
  - apply Forall_dict_set; [exact Ho|]. intros k'. simpl.
    apply set_add_nonempty.
  - apply Forall_dict_set; [exact Hc|]. intros k'. simpl.
    pose proof (get_default_lower_bound counts ngram 1 Hc). lia.
Qed.

Lemma count_string_invariant (n : Z) (st : dict Z * dict (list string) * Z)
    (s : string) :
  counting_invariant (fst st) -> counting_invariant (fst (count_string n st s)).
Proof.
  destruct st as [[counts occurrences] num]. simpl. intros Hinv.
  destruct (fold_left (count_ngram (PyStr.lower s)) (ngrams (PyStr.lower s) n)
              (counts, occurrences)) as [c' o'] eqn:E.
  simpl.
  change (c', o') with (fst (c', o', num)). simpl. rewrite <- E.
  apply fold_left_invariant; [exact Hinv|].
  intros a b Ha _. now apply count_ngram_invariant.
Qed.

Lemma count_pass_invariant (string_list : list string) (n : Z) :
  counting_invariant (fst (count_pass string_list n)).
Proof.
  unfold count_pass.
  apply (fold_left_invariant (count_string n)
           (fun st => counting_invariant (fst st))).
  - repeat split; constructor.
  - intros a b Ha _. now apply count_string_invariant.
Qed.

Lemma count_string_num (n : Z) (st : dict Z * dict (list string) * Z)
    (s : string) :
  snd (count_string n st s) = snd st + 1.
Proof.
  destruct st as [[counts occurrences] num]. simpl.
  now destruct (fold_left _ _ _).
Qed.

(** [num_strings] is the length of the corpus. *)
Lemma count_pass_num (string_list : list string) (n : Z) :
  snd (count_pass string_list n) = Z.of_nat (List.length string_list).
Proof.
  unfold count_pass.
  assert (H : forall st,
            snd (fold_left (count_string n) string_list st)
            = snd st + Z.of_nat (List.length string_list)).
  { induction string_list as [|s l IH]; intros st; simpl List.length.
    - simpl. lia.
    - simpl fold_left. rewrite IH, count_string_num. lia. }
  rewrite H. simpl. lia.
Qed.

Lemma count_ngram_bounded (lowered : string) (N : Z)
    (st : dict Z * dict (list string)) (ngram : string) :
  0 <= N ->
  occurrences_bounded lowered N (snd st) ->
  occurrences_bounded lowered N (snd (count_ngram lowered st ngram)).
Proof.
  destruct st as [counts occurrences]. unfold occurrences_bounded. simpl.
  intros HN Hocc. apply Forall_dict_set; [exact Hocc|]. intros k'. simpl.
  assert (Hl : Z.of_nat (List.length (get_default occurrences ngram [])) <= N + 1
               /\ (~ In lowered (get_default occurrences ngram []) ->
                   Z.of_nat (List.length (get_default occurrences ngram [])) <= N)).
  { unfold get_default. destruct (dict_get occurrences ngram) as [l|] eqn:E.
    - apply dict_get_In in E. rewrite Forall_forall in Hocc.
      exact (Hocc _ E).
    - simpl. lia. }
  destruct Hl as [Hl1 Hl2]. unfold set_add.
  destruct (mem_string lowered (get_default occurrences ngram [])) eqn:E.
  - apply mem_string_In in E. split; [exact Hl1|]. intros Hn. contradiction.
  - apply mem_string_not_In in E. rewrite length_app. simpl List.length.
    split; [specialize (Hl2 E); lia|].
    intros Hn. exfalso. apply Hn. apply in_or_app. right. now left.
Qed.

Lemma count_string_bounded (n : Z) (st : dict Z * dict (list string) * Z)
    (s : string) :
  0 <= snd st
  /\ Forall (fun kv => Z.of_nat (List.length (snd kv)) <= snd st) (snd (fst st)) ->
  0 <= snd (count_string n st s)
  /\ Forall (fun kv => Z.of_nat (List.length (snd kv))
                      <= snd (count_string n st s))
      (snd (fst (count_string n st s))).
Proof.
  destruct st as [[counts occurrences] num]. cbn [fst snd]. intros [Hnum Hocc].
  unfold count_string.
  assert (H : occurrences_bounded (PyStr.lower s) num
                (snd (fold_left (count_ngram (PyStr.lower s))
                        (ngrams (PyStr.lower s) n) (counts, occurrences)))).
  { apply (fold_left_invariant (count_ngram (PyStr.lower s))
             (fun st => occurrences_bounded (PyStr.lower s) num (snd st))).
    - cbn [snd]. unfold occurrences_bounded.
      eapply Forall_impl; [|exact Hocc]. intros kv Hkv. cbn beta in Hkv. lia.
    - intros a b Ha _. now apply count_ngram_bounded. }
  destruct (fold_left _ _ _) as [c' o']. cbn [fst snd] in *.
  split; [lia|]. eapply Forall_impl; [|exact H]. intros kv [Hkv _]. exact Hkv.
Qed.

(** No set of occurrences has more members than the corpus has strings. *)
Lemma count_pass_bounded (string_list : list string) (n : Z) :
  Forall (fun kv => Z.of_nat (List.length (snd kv))
                    <= snd (count_pass string_list n))
    (snd (fst (count_pass string_list n))).
Proof.
  unfold count_pass.
  apply (fold_left_invariant (count_string n)
           (fun st => 0 <= snd st
                      /\ Forall (fun kv => Z.of_nat (List.length (snd kv))
                                          <= snd st) (snd (fst st)))).
  - split; [simpl; lia|constructor].
  - intros a b Ha _. now apply count_string_bounded.
Qed.

(** ** The scoring pass *)

Lemma ngram_idf_value_Ok (N sf tf mf : Z) (v : idfv) :
  0 <= sf -> ngram_idf_value N sf tf mf = Ok v ->
  0 < N /\ v = IdfLog2 N (1 + sf).
Proof.
  intros Hsf. unfold ngram_idf_value.
  destruct (1 + sf =? 0) eqn:E1; [discriminate|].
  destruct (N * (1 + sf) <=? 0) eqn:E2; [discriminate|].
  destruct (1 + sf <? 0) eqn:E3; [apply Z.ltb_lt in E3; lia|].
  intros [= <-]. apply Z.leb_gt in E2. split; [nia|reflexivity].
Qed.

Lemma ngram_idf_value_defined (N sf tf mf : Z) :
  0 <= sf -> 0 < N -> ngram_idf_value N sf tf mf = Ok (IdfLog2 N (1 + sf)).
Proof.
  intros Hsf HN. unfold ngram_idf_value.
  destruct (1 + sf =? 0) eqn:E1; [apply Z.eqb_eq in E1; lia|].
  destruct (N * (1 + sf) <=? 0) eqn:E2; [apply Z.leb_le in E2; nia|].
  destruct (1 + sf <? 0) eqn:E3; [apply Z.ltb_lt in E3; lia|].
  reflexivity.
Qed.

Lemma score_pass_entries (counts : dict Z) (N mf : Z)
    (occurrences : dict (list string)) (t0 t : dict NGramData) :
  Forall (fun kv => snd kv <> []) occurrences ->
  Forall (fun kv => Z.of_nat (List.length (snd kv)) <= N) occurrences ->
  Forall (fun kv => scored_entry N (snd kv)) t0 ->
  fold_left (score_ngram counts N mf) occurrences (Ok t0) = Ok t ->
  Forall (fun kv => scored_entry N (snd kv)) t.
Proof.
  revert t0.
  induction occurrences as [|[g l] occ IH]; intros t0 Ho Hb Ht0; simpl.
  - now intros [= <-].
  - inversion Ho as [|? ? Hl Ho']; subst. simpl in Hl.
    inversion Hb as [|? ? Hlb Hb']; subst. simpl in Hlb.
    destruct (ngram_idf_value N (Z.of_nat (List.length l))
                (get_default counts g 0) mf) as [v|e] eqn:E; simpl.
    + apply IH; [exact Ho'|exact Hb'|].
      apply Forall_dict_set; [exact Ht0|]. intros k'. simpl.
      apply ngram_idf_value_Ok in E; [|lia]. destruct E as [HN ->].
      right. simpl. destruct l as [|x l]; [congruence|].
      simpl List.length in *. repeat split; lia.
    + clear. intros H. exfalso.
      induction occ as [|x occ IH]; simpl in H; [discriminate|auto].
Qed.

(** ** The idf weights as real numbers *)

Lemma Rcompare_positive (x : R) : (0 < x)%R -> Rcompare x 0 = Gt.
Proof. intros Hx. destruct (Rcompare_spec x 0); [lra|lra|reflexivity]. Qed.

Lemma ln_2_positive : (0 < ln 2)%R.
Proof. rewrite <- ln_1. apply ln_increasing; lra. Qed.

Lemma log2R_2 : log2R 2 = 1%R.
Proof. unfold log2R. pose proof ln_2_positive. field. lra. Qed.

Lemma log2R_le (x y : R) :
  (0 < x)%R -> (0 < y)%R -> (log2R x <= log2R y)%R <-> (x <= y)%R.
Proof.
  intros Hx Hy. unfold log2R. pose proof ln_2_positive as H2. split.
  - intros H. destruct (Rle_or_lt x y) as [Hle|Hlt]; [exact Hle|].
    apply (ln_increasing y x Hy) in Hlt.
    apply (Rmult_lt_compat_r (/ ln 2)) in Hlt;
      [unfold Rdiv in H; lra|now apply Rinv_0_lt_compat].
  - intros [Hlt | ->]; [|lra].
    apply (ln_increasing x y Hx) in Hlt.
    apply (Rmult_lt_compat_r (/ ln 2)) in Hlt;
      [unfold Rdiv; lra|now apply Rinv_0_lt_compat].
Qed.

Lemma log2R_Rpower (r : R) : log2R (Rpower 2 r) = r.
Proof.
  unfold log2R. rewrite ln_Rpower. pose proof ln_2_positive. field. lra.
Qed.

Lemma Rpower_2_nonneg (k : Z) : 0 <= k -> Rpower 2 (IZR k) = IZR (2 ^ k).
Proof.
  intros Hk. rewrite <- (Z2Nat.id k Hk) at 1.
  rewrite <- INR_IZR_INZ, Rpower_pow by lra.
  rewrite pow_IZR. now rewrite Z2Nat.id.
Qed.

Lemma Rpower_2_negative (k : Z) :
  k < 0 -> Rpower 2 (IZR k) = (/ IZR (2 ^ (- k)))%R.
Proof.
  intros Hk. replace (IZR k) with (- IZR (- k))%R
    by (rewrite opp_IZR; lra).
  rewrite Rpower_Ropp, Rpower_2_nonneg by lia. reflexivity.
Qed.

Lemma idf_ratio_positive (x : idfv) :
  idf_finite x -> 0 < fst (idf_ratio x) /\ 0 < snd (idf_ratio x).
Proof.
  destruct x as [k|p q]; simpl; [intros _|tauto].
  destruct (0 <=? k) eqn:E; simpl; split; try lia;
    apply Z.pow_pos_nonneg; lia.
Qed.

Lemma idf_real_ratio (x : idfv) :
  idf_real x
  = log2R (IZR (fst (idf_ratio x)) / IZR (snd (idf_ratio x))).
Proof.
  destruct x as [k|p q]; simpl; [|reflexivity].
  destruct (0 <=? k) eqn:E; simpl.
  - apply Z.leb_le in E. rewrite <- Rpower_2_nonneg by exact E.
    unfold Rdiv. rewrite Rinv_1, Rmult_1_r. now rewrite log2R_Rpower.
  - apply Z.leb_gt in E. unfold Rdiv. rewrite Rmult_1_l.
    rewrite <- Rpower_2_negative by exact E. now rewrite log2R_Rpower.
Qed.

Lemma ratio_le (a b c d : Z) :
  0 < a -> 0 < b -> 0 < c -> 0 < d ->
  (log2R (IZR a / IZR b) <= log2R (IZR c / IZR d))%R <-> a * d <= c * b.
Proof.
  intros Ha Hb Hc Hd.
  assert (Ha' : (0 < IZR a)%R) by now apply IZR_lt.
  assert (Hb' : (0 < IZR b)%R) by now apply IZR_lt.
  assert (Hc' : (0 < IZR c)%R) by now apply IZR_lt.
  assert (Hd' : (0 < IZR d)%R) by now apply IZR_lt.
  rewrite log2R_le by (apply Rdiv_lt_0_compat; assumption).
  split.
  - intros H. apply le_IZR. rewrite !mult_IZR.
    apply (Rmult_le_compat_r (IZR b * IZR d)) in H; [|nra].
    replace (IZR a / IZR b * (IZR b * IZR d))%R with (IZR a * IZR d)%R in H
      by (field; lra).
    replace (IZR c / IZR d * (IZR b * IZR d))%R with (IZR c * IZR b)%R in H
      by (field; lra).
    exact H.
  - intros H. apply IZR_le in H. rewrite !mult_IZR in H.
    apply (Rmult_le_reg_r (IZR b * IZR d)); [nra|].
    replace (IZR a / IZR b * (IZR b * IZR d))%R with (IZR a * IZR d)%R
      by (field; lra).
    replace (IZR c / IZR d * (IZR b * IZR d))%R with (IZR c * IZR b)%R
      by (field; lra).
    exact H.
Qed.

(** The comparison of two idf values is the comparison of the numbers
    they stand for. *)
Lemma idf_leb_real (x y : idfv) :
  idf_finite x -> idf_finite y ->
  idf_leb x y = true <-> (idf_real x <= idf_real y)%R.
Proof.
  intros Hx Hy.
  destruct x as [a|p q], y as [b|r s].
  - simpl. rewrite Z.leb_le. split; [apply IZR_le|apply le_IZR].
  - rewrite (idf_real_ratio (IdfInt a)), (idf_real_ratio (IdfLog2 r s)).
    pose proof (idf_ratio_positive (IdfInt a) Hx) as [H1 H2].
    simpl in Hy. rewrite ratio_le by (simpl; tauto).
    unfold idf_leb, idf_ratio.
    destruct (0 <=? a); cbn [fst snd]; rewrite Z.leb_le; lia.
  - rewrite (idf_real_ratio (IdfInt b)), (idf_real_ratio (IdfLog2 p q)).
    pose proof (idf_ratio_positive (IdfInt b) Hy) as [H1 H2].
    simpl in Hx. rewrite ratio_le by (simpl; tauto).
    unfold idf_leb, idf_ratio.
    destruct (0 <=? b); cbn [fst snd]; rewrite Z.leb_le; lia.
  - simpl in Hx, Hy. unfold idf_real. rewrite ratio_le by tauto.
    simpl. now rewrite Z.leb_le.
Qed.

Lemma idf_is_zero_real (x : idfv) :
  idf_finite x -> idf_is_zero x = true <-> idf_real x = 0%R.
Proof.
  intros Hx. destruct x as [k|p q]; simpl.
  - rewrite Z.eqb_eq. split; [now intros ->|apply eq_IZR_R0].
  - simpl in Hx. destruct Hx as [Hp Hq]. rewrite Z.eqb_eq.
    assert (Hp' : (0 < IZR p)%R) by now apply IZR_lt.
    assert (Hq' : (0 < IZR q)%R) by now apply IZR_lt.
    unfold log2R. pose proof ln_2_positive as H2. split.
    + intros ->. unfold Rdiv at 2. rewrite Rinv_r by lra. rewrite ln_1. lra.
    + intros H. assert (Hln : ln (IZR p / IZR q) = ln 1).
      { rewrite ln_1. unfold Rdiv in H at 1.
        apply Rmult_integral in H. destruct H as [H|H]; [exact H|].
        assert (0 < / ln 2)%R by now apply Rinv_0_lt_compat. lra. }
      apply ln_inv in Hln; [|now apply Rdiv_lt_0_compat|lra].
      apply eq_IZR. apply (Rmult_eq_compat_r (IZR q)) in Hln.
      unfold Rdiv in Hln. rewrite Rmult_assoc, Rinv_l in Hln by lra. lra.
Qed.

(** [py_ceil x] is the least integer that [x] does not exceed. *)
Lemma py_ceil_least (x : idfv) :
  idf_finite x ->
  idf_leb x (IdfInt (py_ceil x)) = true
  /\ idf_leb x (IdfInt (py_ceil x - 1)) = false.
Proof.
  destruct x as [z|p q]; intros Hx.
  - simpl. split; [apply Z.leb_le|apply Z.leb_gt]; lia.
  - simpl in Hx. destruct Hx as [Hp Hq]. unfold py_ceil.
    destruct (q <? p) eqn:E.
    + apply Z.ltb_lt in E.
      pose proof (Z.mul_div_le (p + q - 1) q Hq) as Hlo.
      pose proof (Z.mul_succ_div_gt (p + q - 1) q Hq) as Hhi.
      set (a := (p + q - 1) / q) in *.
      assert (Ha : 1 < a) by nia.
      pose proof (Z.log2_up_spec a Ha) as [Hc1 Hc2].
      pose proof (Z.log2_up_pos a Ha) as Hc.
      set (c := Z.log2_up a) in *.
      unfold idf_leb.
      destruct (0 <=? c) eqn:E0; [|apply Z.leb_gt in E0; lia].
      destruct (0 <=? c - 1) eqn:E1; [|apply Z.leb_gt in E1; lia].
      replace (Z.pred c) with (c - 1) in Hc1 by lia.
      split; [apply Z.leb_le|apply Z.leb_gt]; nia.
    + apply Z.ltb_ge in E.
      pose proof (Z.mul_div_le q p Hp) as Hlo.
      pose proof (Z.mul_succ_div_gt q p Hp) as Hhi.
      set (b := q / p) in *.
      assert (Hb : 0 < b) by nia.
      pose proof (Z.log2_spec b Hb) as [Hj1 Hj2].
      pose proof (Z.log2_nonneg b) as Hj.
      set (j := Z.log2 b) in *.
      unfold idf_leb.
      destruct (0 <=? - j - 1) eqn:E1; [apply Z.leb_le in E1; lia|].
      replace (- (- j - 1)) with (Z.succ j) by lia.
      split; [|apply Z.leb_gt; nia].
      destruct (0 <=? - j) eqn:E0.
      * apply Z.leb_le in E0. assert (Hj0 : - j = 0) by lia.
        rewrite Hj0, Z.pow_0_r. apply Z.leb_le. lia.
      * rewrite Z.opp_involutive. apply Z.leb_le. nia.
Qed.

Lemma py_ceil_real (x : idfv) :
  idf_finite x ->
  (IZR (py_ceil x) - 1 < idf_real x <= IZR (py_ceil x))%R.
Proof.
  intros Hx. destruct (py_ceil_least x Hx) as [Hle Hgt].
  apply (idf_leb_real x (IdfInt (py_ceil x)) Hx I) in Hle.
  split; [|exact Hle].
  destruct (Rlt_or_le (IZR (py_ceil x) - 1) (idf_real x)) as [H|H];
    [exact H|].
  rewrite <- minus_IZR in H.
  apply (idf_leb_real x (IdfInt (py_ceil x - 1)) Hx I) in H. congruence.
Qed.

Lemma fold_idf_max (xs : list idfv) (m0 : idfv) :
  idf_finite m0 -> Forall idf_finite xs ->
  idf_finite (fold_left (fun m y => if idf_gtb y m then y else m) xs m0)
  /\ (fold_left (fun m y => if idf_gtb y m then y else m) xs m0 = m0
      \/ In (fold_left (fun m y => if idf_gtb y m then y else m) xs m0) xs)
  /\ (idf_real m0
      <= idf_real (fold_left (fun m y => if idf_gtb y m then y else m) xs m0))%R
  /\ forall x, In x xs ->
       (idf_real x
        <= idf_real (fold_left (fun m y => if idf_gtb y m then y else m) xs m0))%R.
Proof.
  revert m0. induction xs as [|y xs IH]; intros m0 Hm0 Hxs; cbn [fold_left].
  - repeat split; [exact Hm0|now left|lra|intros x []].
  - inversion Hxs as [|? ? Hy Hxs']; subst.
    destruct (idf_gtb y m0) eqn:E; unfold idf_gtb in E.
    + assert (Hlt : (idf_real m0 < idf_real y)%R).
      { destruct (Rlt_or_le (idf_real m0) (idf_real y)) as [H|H]; [exact H|].
        apply (idf_leb_real y m0 Hy Hm0) in H. rewrite H in E. discriminate. }
      destruct (IH y Hy Hxs') as (Hf & Hin & Hle & Hall).
      split; [exact Hf|].
      split; [right; destruct Hin as [Hin|Hin];
              [left; now rewrite Hin|now right]|].
      split; [lra|].
      intros x [<-|Hx]; [lra|now apply Hall].
    + apply negb_false_iff in E. apply (idf_leb_real y m0 Hy Hm0) in E.
      destruct (IH m0 Hm0 Hxs') as (Hf & Hin & Hle & Hall).
      split; [exact Hf|].
      split; [destruct Hin as [Hin|Hin]; [now left|right; now right]|].
      split; [exact Hle|].
      intros x [<-|Hx]; [lra|now apply Hall].
Qed.

(** [max] returns an element that no element exceeds. *)
Lemma py_max_idf (l : list idfv) (m : idfv) :
  Forall idf_finite l -> py_max idf_gtb l = Ok m ->
  In m l /\ forall x, In x l -> (idf_real x <= idf_real m)%R.
Proof.
  destruct l as [|x0 xs]; [discriminate|]. intros Hall [= <-].
  inversion Hall as [|? ? H0 Hxs]; subst.
  destruct (fold_idf_max xs x0 H0 Hxs) as (_ & Hin & Hle & Hmax).
  split; [destruct Hin as [Hin|Hin]; [left; now rewrite Hin|now right]|].
  intros x [<-|Hx]; [exact Hle|now apply Hmax].
Qed.

(** ** The table builder *)

(** The steps of a run of [ngram_values] that returns. *)
Lemma ngram_values_Ok (limit : nat) (string_list : list string) (n : Z)
    (rz : bool) (t : dict NGramData) :
  ngram_values limit string_list n rz = Ok t ->
  let counts := fst (fst (count_pass string_list n)) in
  let occurrences := snd (fst (count_pass string_list n)) in
  let num_strings := snd (count_pass string_list n) in
  exists possible max_frequency t0,
    all_possible_ngrams limit n = Ok possible
    /\ py_max Z.gtb (dict_values counts) = Ok max_frequency
    /\ fold_left (score_ngram counts num_strings max_frequency) occurrences
         (Ok (fromkeys possible initial_entry)) = Ok t0
    /\ ngram_values limit string_list n false = Ok t0
    /\ (if rz
        then exists highest,
               highest_idf t0 = Ok highest
               /\ t = map (readjust (py_ceil highest)) t0
        else t = t0).
Proof.
  unfold ngram_values.
  destruct (count_pass string_list n) as [[counts occurrences] num]. simpl.
  destruct (all_possible_ngrams limit n) as [possible|e]; simpl; [|discriminate].
  destruct (py_max Z.gtb (dict_values counts)) as [mf|e]; simpl; [|discriminate].
  destruct (fold_left (score_ngram counts num mf) occurrences
              (Ok (fromkeys possible initial_entry))) as [t0|e] eqn:Efold;
    simpl; [|discriminate].
  intros H. exists possible, mf, t0.
  split; [reflexivity|]. split; [reflexivity|]. split; [exact Efold|].
  split; [reflexivity|].
  destruct rz.
  - destruct (highest_idf t0) as [hi|e]; simpl in H; [|discriminate].
    injection H as H. subst t. exists hi. split; reflexivity.
  - injection H as H. now subst t.
Qed.

(** Every entry of the table before the zero-score pass is the initial
    entry or the entry of an observed n-gram. *)
Lemma scored_table_entries (limit : nat) (string_list : list string) (n : Z)
    (t0 : dict NGramData) :
  ngram_values limit string_list n false = Ok t0 ->
  Forall (fun kv => scored_entry (snd (count_pass string_list n)) (snd kv)) t0.
Proof.
  intros H. apply ngram_values_Ok in H.
  destruct H as (possible & mf & t0' & _ & _ & Hfold & _ & ->).
  eapply score_pass_entries; [| | |exact Hfold].
  - apply (count_pass_invariant string_list n).
  - apply count_pass_bounded.
  - apply Forall_fromkeys. intros k. now left.
Qed.

Lemma dict_get_readjust (m : Z) (t0 : dict NGramData) (g : string) :
  dict_get (map (readjust m) t0) g =
  option_map (fun v => snd (readjust m (g, v))) (dict_get t0 g).
Proof.
  induction t0 as [|[k v] t0 IH]; simpl; [reflexivity|].
  destruct (idf_is_zero (idf v)) eqn:Ez; simpl;
    destruct (String.eqb g k) eqn:E; simpl; try exact IH; now rewrite Ez.
Qed.

Lemma dict_keys_readjust (m : Z) (t0 : dict NGramData) :
  dict_keys (map (readjust m) t0) = dict_keys t0.
Proof.
  unfold dict_keys. rewrite map_map. apply map_ext. intros [k v]. simpl.
  now destruct (idf_is_zero (idf v)).
Qed.

Lemma scored_entry_finite (N : Z) (v : NGramData) :
  scored_entry N v -> idf_finite (idf v).
Proof.
  intros [-> | (Hsf & Hidf)]; [exact I|].
  rewrite Hidf. cbn [idf_finite]. lia.
Qed.

(** [highest_idf] returns the idf of an entry of the table, which no idf
    of the table exceeds. *)
Lemma highest_idf_real (t : dict NGramData) (highest : idfv) :
  Forall (fun kv => idf_finite (idf (snd kv))) t ->
  highest_idf t = Ok highest ->
  (exists g v, In (g, v) t /\ idf v = highest)
  /\ forall g v, In (g, v) t -> (idf_real (idf v) <= idf_real highest)%R.
Proof.
  intros Hfin Hhi. unfold highest_idf in Hhi.
  apply py_max_idf in Hhi; [|now apply Forall_map].
  destruct Hhi as [Hin Hmax]. split.
  - apply in_map_iff in Hin. destruct Hin as ([g v] & Hv & Hin).
    now exists g, v.
  - intros g v Hgv. apply Hmax.
    apply (in_map (fun kv => idf (snd kv))) in Hgv. exact Hgv.
Qed.

(** The ceiling is settled by the number the idf stands for. *)
Lemma py_ceil_unique (x : idfv) (c : Z) :
  idf_finite x -> (IZR c - 1 < idf_real x <= IZR c)%R -> py_ceil x = c.
Proof.
  intros Hx [Hlo Hhi]. destruct (py_ceil_real x Hx) as [Hlo' Hhi'].
  assert (H1 : (IZR (py_ceil x) < IZR (c + 1))%R) by (rewrite plus_IZR; lra).
  assert (H2 : (IZR c < IZR (py_ceil x + 1))%R) by (rewrite plus_IZR; lra).
  apply lt_IZR in H1, H2. lia.
Qed.

(** The idf values of the n-grams that keep a positive
    [string_frequency] after the zero-score pass are those of the
    observed n-grams whose idf is not 0. *)
Lemma In_observed_idfs (c : Z) (t0 : dict NGramData) (N : Z) (x : idfv) :
  Forall (fun kv => scored_entry N (snd kv)) t0 ->
  In x (observed_idfs (map (readjust c) t0))
  <-> exists g v, In (g, v) t0 /\ 1 <= string_frequency v
                  /\ idf_is_zero (idf v) = false /\ x = idf v.
Proof.
  intros Hall. rewrite Forall_forall in Hall.
  unfold observed_idfs, dict_values. rewrite map_map. split.
  - intros Hin. apply in_map_iff in Hin. destruct Hin as (v' & <- & Hin).
    apply filter_In in Hin. destruct Hin as [Hin Hsf].
    apply in_map_iff in Hin. destruct Hin as ([g v] & <- & Hin).
    apply Z.ltb_lt in Hsf. unfold readjust in Hsf |- *.
    destruct (idf_is_zero (idf v)) eqn:Ez; simpl in Hsf; [lia|].
    exists g, v. simpl. repeat split; try assumption. lia.
  - intros (g & v & Hin & Hsf & Hz & ->).
    apply in_map_iff. exists v. split; [reflexivity|].
    apply filter_In. split; [|apply Z.ltb_lt; lia].
    apply in_map_iff. exists (g, v). split; [|exact Hin].
    unfold readjust. now rewrite Hz.
Qed.

(** On a corpus of two strings or more, the ceiling of the highest idf
    of the whole table is the ceiling of the highest idf of the n-grams
    that keep a positive [string_frequency], whenever the table holds an
    idf equal to 0. *)
Lemma ceil_of_observed_max (c N : Z) (t0 : dict NGramData) (hi m : idfv) :
  2 <= N ->
  Forall (fun kv => scored_entry N (snd kv)) t0 ->
  highest_idf t0 = Ok hi ->
  py_max idf_gtb (observed_idfs (map (readjust c) t0)) = Ok m ->
  (exists g v, In (g, v) t0 /\ idf_is_zero (idf v) = true) ->
  py_ceil m = py_ceil hi.
Proof.
  intros HN Hall Hhi Hm (gz & vz & Hinz & Hz).
  assert (Hfin : Forall (fun kv => idf_finite (idf (snd kv))) t0).
  { eapply Forall_impl; [|exact Hall]. intros kv. apply scored_entry_finite. }
  pose proof Hfin as Hfin'. rewrite Forall_forall in Hfin'.
  pose proof Hall as Hall'. rewrite Forall_forall in Hall'.
  destruct (highest_idf_real t0 hi Hfin Hhi) as [(g1 & v1 & Hin1 & Hv1) Hmax].
  assert (Hhifin : idf_finite hi) by (rewrite <- Hv1; exact (Hfin' _ Hin1)).
  assert (Hobsfin : Forall idf_finite (observed_idfs (map (readjust c) t0))).
  { apply Forall_forall. intros x Hx.
    apply (In_observed_idfs c t0 N x Hall) in Hx.
    destruct Hx as (g & v & Hin & _ & _ & ->). exact (Hfin' _ Hin). }
  destruct (py_max_idf _ m Hobsfin Hm) as [Hmin Hmmax].
  apply (In_observed_idfs c t0 N m Hall) in Hmin.
  destruct Hmin as (gm & vm & Hinm & Hsfm & Hzm & ->).
  pose proof (Hfin' _ Hinm) as Hmfin. simpl in Hmfin.
  assert (Hzero : (0 <= idf_real hi)%R).
  { apply (idf_is_zero_real (idf vz) (Hfin' _ Hinz)) in Hz.
    rewrite <- Hz. exact (Hmax _ _ Hinz). }
  apply py_ceil_unique; [exact Hmfin|].
  destruct (py_ceil_real hi Hhifin) as [Hlo Hup].
  destruct (idf_is_zero hi) eqn:Ehi.
  - apply (idf_is_zero_real hi Hhifin) in Ehi.
    assert (Hc0 : py_ceil hi = 0).
    { apply py_ceil_unique; [exact Hhifin|]. rewrite Ehi. lra. }
    rewrite Hc0. pose proof (Hmax _ _ Hinm) as Hle. rewrite Ehi in Hle.
    split; [|exact Hle].
    destruct (Hall' _ Hinm) as [Hinit | (Hsf & Hidf)].
    + simpl in Hinit. rewrite Hinit in Hsfm. simpl in Hsfm. lia.
    + cbn [snd] in Hsf, Hidf.
      destruct (Rlt_or_le (0 - 1) (idf_real (idf vm))) as [H|H]; [exact H|].
      replace (0 - 1)%R with (IZR (-1)) in H by lra.
      apply (idf_leb_real (idf vm) (IdfInt (-1)) Hmfin I) in H.
      rewrite Hidf in H. unfold idf_leb in H. simpl (0 <=? -1) in H.
      cbv iota in H. apply Z.leb_le in H.
      change (2 ^ (- -1)) with 2 in H. lia.
  - assert (Hobs : In hi (observed_idfs (map (readjust c) t0))).
    { apply (In_observed_idfs c t0 N hi Hall). exists g1, v1.
      rewrite Hv1. repeat split; try assumption.
      destruct (Hall' _ Hin1) as [Hinit | (Hsf & _)];
        [|cbn [snd] in Hsf; lia].
      simpl in Hinit. rewrite Hinit in Hv1. simpl in Hv1. subst hi.
      discriminate. }
    pose proof (Hmmax _ Hobs) as H1. pose proof (Hmax _ _ Hinm) as H2.
    assert (Heq : idf_real (idf vm) = idf_real hi) by lra.
    rewrite Heq. lra.
Qed.

(** C1 (as amended). When [ngram_values] returns a table, every n-gram
    whose [string_frequency] in it is 0 has for idf the ceiling of
    [highest_idf] of the table as it stands before the zero-score pass.
    That value is the idf of an entry of that table which no idf of that
    table exceeds: the maximum is over all the entries, the n-grams that
    were never observed taking part with their initial idf 0.  The
    ceiling is the integer c with c - 1 < highest <= c.  On a corpus of
    two strings or more, when some n-gram of the returned table has a
    positive [string_frequency], it is also the ceiling of the maximum
    idf over the n-grams with a positive [string_frequency]. *)
Theorem zero_frequency_idf_is_ceil_of_highest_idf
    (limit : nat) (string_list : list string) (n : Z) (t : dict NGramData) :
  ngram_values limit string_list n true = Ok t ->
  exists t0 highest,
    ngram_values limit string_list n false = Ok t0
    /\ highest_idf t0 = Ok highest
    /\ (exists g v, In (g, v) t0 /\ idf v = highest)
    /\ (forall g v, In (g, v) t0 -> (idf_real (idf v) <= idf_real highest)%R)
    /\ (IZR (py_ceil highest) - 1 < idf_real highest
        <= IZR (py_ceil highest))%R
    /\ (forall g d, dict_get t g = Some d -> string_frequency d = 0 ->
          idf d = IdfInt (py_ceil highest))
    /\ (2 <= Z.of_nat (List.length string_list) ->
        forall m, py_max idf_gtb (observed_idfs t) = Ok m ->
        forall g d, dict_get t g = Some d -> string_frequency d = 0 ->
          idf d = IdfInt (py_ceil m)).
Proof.
  intros H. pose proof (ngram_values_Ok _ _ _ _ _ H) as Hsteps.
  destruct Hsteps as (possible & mf & t0 & _ & _ & _ & Hfalse & hi & Hhi & ->).
  pose proof (scored_table_entries _ _ _ _ Hfalse) as Hall.
  assert (Hfin : Forall (fun kv => idf_finite (idf (snd kv))) t0).
  { eapply Forall_impl; [|exact Hall]. intros kv. apply scored_entry_finite. }
  destruct (highest_idf_real t0 hi Hfin Hhi) as [Hattained Hmax].
  assert (Hzero : forall g d,
            dict_get (map (readjust (py_ceil hi)) t0) g = Some d ->
            string_frequency d = 0 ->
            idf d = IdfInt (py_ceil hi)
            /\ exists g0 v0, In (g0, v0) t0 /\ idf_is_zero (idf v0) = true).
  { intros g d Hget Hsf. rewrite dict_get_readjust in Hget.
    destruct (dict_get t0 g) as [v|] eqn:Ev; [|discriminate].
    simpl in Hget. injection Hget as <-.
    pose proof (dict_get_In _ _ _ Ev) as Hin.
    destruct (idf_is_zero (idf v)) eqn:Ez.
    - split; [reflexivity|]. now exists g, v.
    - simpl in Hsf. rewrite Forall_forall in Hall.
      specialize (Hall _ Hin). simpl in Hall.
      destruct Hall as [-> | (Hge & _)]; [discriminate|lia]. }
  exists t0, hi.
  split; [exact Hfalse|]. split; [exact Hhi|]. split; [exact Hattained|].
  split; [exact Hmax|]. split; [|split].
  - apply py_ceil_real. destruct Hattained as (g & v & Hin & <-).
    rewrite Forall_forall in Hfin. exact (Hfin _ Hin).
  - intros g d Hget Hsf. exact (proj1 (Hzero g d Hget Hsf)).
  - intros HN m Hm g d Hget Hsf.
    destruct (Hzero g d Hget Hsf) as [-> Hz]. f_equal. symmetry.
    rewrite <- (count_pass_num string_list n) in HN.
    exact (ceil_of_observed_max _ _ t0 hi m HN Hall Hhi Hm Hz).
Qed.

Lemma zero_frequency_idf_is_ceil_of_highest_idf_witness :
  ngram_values 5 corpus8 1 true = Ok table8
  /\ dict_get table8 "x" = Some (mkNGramData 0 0 (IdfInt 2))
  /\ py_max idf_gtb (observed_idfs table8) = Ok (IdfLog2 8 2)
  /\ (exists t0 highest,
        ngram_values 5 corpus8 1 false = Ok t0
        /\ highest_idf t0 = Ok highest
        /\ IdfInt 2 = IdfInt (py_ceil highest))
  /\ IdfInt 2 = IdfInt (py_ceil (IdfLog2 8 2)).
Proof.
  split; [reflexivity|]. split; [reflexivity|]. split; [reflexivity|].
  destruct (zero_frequency_idf_is_ceil_of_highest_idf 5 corpus8 1 table8
              eq_refl)
    as (t0 & highest & H0 & Hhi & _ & _ & _ & Hzero & Hobserved).
  split.
  - exists t0, highest. split; [exact H0|]. split; [exact Hhi|].
    apply (Hzero "x" (mkNGramData 0 0 (IdfInt 2))); reflexivity.
  - apply (Hobserved ltac:(simpl; lia) (IdfLog2 8 2) eq_refl "x"
             (mkNGramData 0 0 (IdfInt 2))); reflexivity.
Defined.

(** C1, as stated, fails.  On the corpus of the single string a, with
    n = 1, the n-gram b has [string_frequency] 0 and idf 0, while the
    only n-gram with a positive [string_frequency] is a, whose idf is
    log2(1/2) = -1: the ceiling of the maximum over those n-grams is -1. *)
Lemma zero_frequency_idf_not_ceil_of_observed_max :
  exists t d m,
    ngram_values 5 ["a"] 1 true = Ok t
    /\ dict_get t "b" = Some d
    /\ string_frequency d = 0
    /\ idf d = IdfInt 0
    /\ observed_idfs t = [IdfLog2 1 2]
    /\ py_max idf_gtb (observed_idfs t) = Ok m
    /\ py_ceil m = -1
    /\ idf d <> IdfInt (py_ceil m).
Proof.
  exists table_a, initial_entry, (IdfLog2 1 2).
  repeat split; discriminate.
Qed.

(** C2 fails on the corpus a, b with n = 1.  The counting pass finds the
    n-gram a once, in one of the two strings, and the scoring pass gives
    it the idf log2(2/(1 + 1)), which is 0; the zero-score pass tests the
    idf, not the [string_frequency], and replaces the entry by
    [NGramData(0, 0, max_idf)]: the observed n-gram keeps neither its
    [string_frequency] nor its [total_frequency]. *)
Theorem zero_score_pass_resets_observed_ngram :
  let counts := fst (fst (count_pass ["a"; "b"] 1)) in
  let occurrences := snd (fst (count_pass ["a"; "b"] 1)) in
  dict_get counts "a" = Some 1
  /\ dict_get occurrences "a" = Some ["a"]
  /\ snd (count_pass ["a"; "b"] 1) = 2
  /\ (exists t0,
        ngram_values 5 ["a"; "b"] 1 false = Ok t0
        /\ dict_get t0 "a" = Some (mkNGramData 1 1 (IdfLog2 2 2)))
  /\ (exists t,
        ngram_values 5 ["a"; "b"] 1 true = Ok t
        /\ dict_get t "a" = Some (mkNGramData 0 0 (IdfInt 0))).
Proof.
  repeat split.
  - eexists. split; reflexivity.
  - eexists. split; reflexivity.
Qed.

(** ** Window lengths below 1 and empty corpora *)

(** Below 0 the recursion of [all_possible_ngrams] never reaches its base
    cases: whatever the recursion limit, the call ends in a
    [RecursionError]. *)
Lemma all_possible_ngrams_negative (limit : nat) (n : Z) :
  n < 0 -> all_possible_ngrams limit n = Raise RecursionError.
Proof.
  revert n. induction limit as [|limit IH]; intros n Hn; [reflexivity|].
  cbn [all_possible_ngrams].
  destruct (n =? 0) eqn:E0; [apply Z.eqb_eq in E0; lia|].
  destruct (n =? 1) eqn:E1; [apply Z.eqb_eq in E1; lia|].
  rewrite IH by lia. reflexivity.
Qed.

Lemma all_possible_ngrams_zero (limit : nat) :
  all_possible_ngrams (S limit) 0 = Ok [].
Proof. reflexivity. Qed.

Lemma slice_empty (s : string) (i : Z) : PyStr.slice s i (i + 0) = "".
Proof.
  unfold PyStr.slice. rewrite Z.add_0_r. now rewrite Z.ltb_irrefl.
Qed.

(** With n = 0 every window is the empty string, and there is at least
    one. *)
Lemma ngrams_zero (s : string) :
  ngrams s 0 = repeat "" (S (String.length s)).
Proof.
  unfold ngrams, PyStr.range, PyStr.len. rewrite map_map.
  replace (Z.to_nat (Z.of_nat (String.length s) - 0 + 1))
    with (S (String.length s)) by lia.
  generalize (S (String.length s)) as k. generalize O as start.
  intros start k. revert start.
  induction k as [|k IH]; intros start; simpl; [reflexivity|].
  rewrite slice_empty. f_equal. apply IH.
Qed.

Lemma count_ngram_empty_key (lowered : string)
    (st : dict Z * dict (list string)) :
  st = ([], []) \/ only_empty_key st ->
  only_empty_key (count_ngram lowered st "").
Proof.
  intros [-> | (c & l & ->)]; unfold count_ngram; simpl; eexists; eexists;
    reflexivity.
Qed.

Lemma count_string_empty_key (st : dict Z * dict (list string) * Z)
    (s : string) :
  fst st = ([], []) \/ only_empty_key (fst st) ->
  only_empty_key (fst (count_string 0 st s)).
Proof.
  destruct st as [[counts occurrences] num]. cbn [fst]. intros Hst.
  unfold count_string. rewrite ngrams_zero. cbn [repeat fold_left].
  destruct (fold_left (count_ngram (PyStr.lower s))
              (repeat "" (String.length (PyStr.lower s)))
              (count_ngram (PyStr.lower s) (counts, occurrences) ""))
    as [c' o'] eqn:E.
  cbn [fst]. rewrite <- E. clear E.
  apply (fold_left_invariant (count_ngram (PyStr.lower s))
           (fun st => only_empty_key st)).
  - now apply count_ngram_empty_key.
  - intros a b Ha Hb. apply repeat_spec in Hb. subst b.
    apply count_ngram_empty_key. now right.
Qed.

Lemma count_pass_empty_key (string_list : list string) :
  string_list <> [] -> only_empty_key (fst (count_pass string_list 0)).
Proof.
  destruct string_list as [|s l]; [congruence|]. intros _.
  unfold count_pass. cbn [fold_left].
  apply (fold_left_invariant (count_string 0)
           (fun st => only_empty_key (fst st))).
  - apply (count_string_empty_key ([], [], 0) s). now left.
  - intros a b Ha _. apply count_string_empty_key. now right.
Qed.

(** C6 (as amended). [ngram_values] raises an exception on the empty
    corpus, whatever n is, and on every corpus when n is negative (the
    recursion of [all_possible_ngrams] does not end).  With n = 0 and a
    corpus that is not empty it raises nothing: it returns a table with
    one entry, whose key is the empty string. *)
Theorem ngram_values_failures :
  (forall limit n rz, exists e, ngram_values limit [] n rz = Raise e)
  /\ (forall limit string_list n rz,
        n < 0 -> ngram_values limit string_list n rz = Raise RecursionError)
  /\ (forall limit string_list rz,
        string_list <> [] ->
        exists d, ngram_values (S limit) string_list 0 rz = Ok [("", d)]).
Proof.
  split; [|split].
  - intros limit n rz. unfold ngram_values. simpl.
    destruct (all_possible_ngrams limit n) as [possible|e]; simpl; eexists;
      reflexivity.
  - intros limit string_list n rz Hn. unfold ngram_values.
    destruct (count_pass string_list n) as [[counts occurrences] num].
    now rewrite all_possible_ngrams_negative.
  - intros limit string_list rz Hne. unfold ngram_values.
    pose proof (count_pass_empty_key string_list Hne) as (c & l & Hst).
    pose proof (count_pass_invariant string_list 0) as (_ & Hl & _).
    pose proof (count_pass_num string_list 0) as Hnum.
    destruct (count_pass string_list 0) as [[counts occurrences] num].
    simpl in Hst, Hl, Hnum. injection Hst as -> ->.
    rewrite all_possible_ngrams_zero. simpl.
    inversion Hl as [|? ? Hl' _]; subst. simpl in Hl'.
    rewrite ngram_idf_value_defined.
    + simpl. destruct rz; [|eexists; reflexivity].
      unfold readjust. simpl.
      match goal with
      | |- context [if ?b then _ else _] => destruct b
      end; eexists; reflexivity.
    + lia.
    + destruct string_list; [congruence|]. simpl List.length. lia.
Qed.

(** C6, as stated, fails at n = 0: on the corpus of the single string a
    the builder returns a table. *)
Lemma ngram_values_zero_returns :
  ngram_values 5 ["a"] 0 true = Ok [("", mkNGramData 1 2 (IdfLog2 1 2))].
Proof. reflexivity. Qed.

(** ** The possible n-grams *)

Lemma mem_char_In (c : ascii) (s : string) :
  PyStr.mem_char c s = true <-> In c (list_ascii_of_string s).
Proof.
  induction s as [|d s IH]; simpl.
  - split; [discriminate|tauto].
  - rewrite orb_true_iff, IH, Ascii.eqb_eq. split; intros [H|H]; auto.
Qed.

Lemma is_lower_letter_mem (c : ascii) :
  PyStr.is_lower_letter c = PyStr.mem_char c PyStr.ascii_lowercase.
Proof.
  destruct c as [b0 b1 b2 b3 b4 b5 b6 b7].
  destruct b0, b1, b2, b3, b4, b5, b6, b7; reflexivity.
Qed.

Lemma is_lower_letter_In (c : ascii) :
  PyStr.is_lower_letter c = true <-> In c all_letters.
Proof. rewrite is_lower_letter_mem. apply mem_char_In. Qed.

Lemma NoDup_all_letters : NoDup all_letters.
Proof.
  unfold all_letters. simpl.
  repeat (constructor; [simpl; intuition discriminate|]). constructor.
Qed.

Lemma length_all_letters : List.length all_letters = 26%nat.
Proof. reflexivity. Qed.

(** [words k] holds exactly the strings of [k] lowercase letters. *)
Lemma In_words (k : nat) (s : string) :
  In s (words k) <->
  String.length s = k /\ PyStr.all_chars PyStr.is_lower_letter s = true.
Proof.
  revert s. induction k as [|k IH]; intros s; cbn [words].
  - split.
    + intros [<- | []]. split; reflexivity.
    + intros [Hl _]. destruct s; [now left|discriminate].
  - rewrite in_flat_map. split.
    + intros (c & Hc & Hs). apply in_map_iff in Hs.
      destruct Hs as (s' & <- & Hs'). apply IH in Hs'.
      destruct Hs' as [Hl Hall]. simpl. rewrite Hl, Hall.
      apply is_lower_letter_In in Hc. rewrite Hc. split; reflexivity.
    + intros [Hl Hall]. destruct s as [|c s]; [discriminate|].
      simpl in Hl, Hall. apply andb_true_iff in Hall.
      destruct Hall as [Hc Hall]. exists c. split.
      * now apply is_lower_letter_In.
      * apply in_map. apply IH. split; [lia|exact Hall].
Qed.

Lemma length_flat_map_const {A B : Type} (f : A -> list B) (m : nat)
    (l : list A) :
  (forall a, List.length (f a) = m) ->
  List.length (flat_map f l) = (List.length l * m)%nat.
Proof.
  intros Hf. induction l as [|a l IH]; simpl; [reflexivity|].
  now rewrite length_app, Hf, IH.
Qed.

Lemma length_words (k : nat) : List.length (words k) = (26 ^ k)%nat.
Proof.
  induction k as [|k IH]; [reflexivity|].
  cbn [words].
  rewrite (length_flat_map_const _ (List.length (words k)))
    by (intros a; apply length_map).
  rewrite length_all_letters, IH. reflexivity.
Qed.

Lemma NoDup_flat_map_cons (l : list string) (letters : list ascii) :
  NoDup letters -> NoDup l ->
  NoDup (flat_map (fun letter => map (String letter) l) letters).
Proof.
  intros Hletters Hl. induction Hletters as [|c letters Hc Hn IH]; simpl.
  - constructor.
  - apply NoDup_app.
    + clear -Hl. induction Hl as [|x l Hx Hl IH]; simpl; constructor; auto.
      intros Hin. apply in_map_iff in Hin.
      destruct Hin as (y & [= ->] & Hy). contradiction.
    + exact IH.
    + intros s Hs Hs'. apply in_map_iff in Hs. destruct Hs as (x & <- & Hx).
      apply in_flat_map in Hs'. destruct Hs' as (c' & Hc' & Hs').
      apply in_map_iff in Hs'. destruct Hs' as (y & [= -> ->] & Hy).
      contradiction.
Qed.

Lemma NoDup_words (k : nat) : NoDup (words k).
Proof.
  induction k as [|k IH]; cbn [words].
  - constructor; [simpl; tauto|constructor].
  - apply NoDup_flat_map_cons; [apply NoDup_all_letters|exact IH].
Qed.

Lemma flat_map_singleton {A B : Type} (f : A -> B) (l : list A) :
  flat_map (fun a => [f a]) l = map f l.
Proof. induction l as [|a l IH]; simpl; [reflexivity|now rewrite IH]. Qed.

(** From length 1 on, the list of the possible n-grams is [words]. *)
Lemma lowercase_ngrams_words (k : nat) :
  lowercase_ngrams (S k) = words (S k).
Proof.
  induction k as [|k IH].
  - cbn [lowercase_ngrams words]. fold all_letters.
    now rewrite (flat_map_singleton (fun letter => String letter "")).
  - change (lowercase_ngrams (S (S k)))
      with (flat_map (fun letter => map (String letter) (lowercase_ngrams (S k)))
              all_letters).
    now rewrite IH.
Qed.

Lemma fold_append_ngrams (shorter : result (list string))
    (letters : list ascii) (acc : list string) :
  fold_left
    (fun acc letter =>
       new_ngrams <- acc ;;
       shorter <- shorter ;;
       Ok (new_ngrams ++ map (String letter) shorter))
    letters (Ok acc)
  = match letters, shorter with
    | [], _ => Ok acc
    | _ :: _, Raise e => Raise e
    | _ :: _, Ok l =>
        Ok (acc ++ flat_map (fun letter => map (String letter) l) letters)
    end.
Proof.
  destruct shorter as [l|e].
  - revert acc. induction letters as [|c letters IH]; intros acc;
      [reflexivity|].
    cbn [fold_left bind]. rewrite IH.
    destruct letters; simpl; now rewrite <- ?app_assoc, ?app_nil_r.
  - destruct letters as [|c letters]; [reflexivity|].
    cbn [fold_left bind]. clear. induction letters; simpl; auto.
Qed.

(** What [all_possible_ngrams] returns from n = 1 on: the possible
    n-grams when the recursion limit allows n frames, a [RecursionError]
    when it does not. *)
Lemma all_possible_ngrams_positive (limit k : nat) :
  all_possible_ngrams limit (Z.of_nat (S k)) =
  if (S k <=? limit)%nat then Ok (lowercase_ngrams (S k))
  else Raise RecursionError.
Proof.
  revert k. induction limit as [|limit IH]; intros k; [reflexivity|].
  cbn [all_possible_ngrams].
  destruct (Z.of_nat (S k) =? 0) eqn:E0; [apply Z.eqb_eq in E0; lia|].
  destruct k as [|k].
  - reflexivity.
  - destruct (Z.of_nat (S (S k)) =? 1) eqn:E1; [apply Z.eqb_eq in E1; lia|].
    replace (Z.of_nat (S (S k)) - 1) with (Z.of_nat (S k)) by lia.
    rewrite (fold_append_ngrams (all_possible_ngrams limit (Z.of_nat (S k)))).
    rewrite IH.
    change (S (S k) <=? S limit)%nat with (S k <=? limit)%nat.
    destruct (S k <=? limit)%nat; reflexivity.
Qed.

Lemma length_lowercase_ngrams (n : Z) :
  1 <= n -> Z.of_nat (List.length (lowercase_ngrams (Z.to_nat n))) = 26 ^ n.
Proof.
  intros Hn. destruct (Z.to_nat n) as [|k] eqn:E; [lia|].
  rewrite lowercase_ngrams_words, length_words.
  rewrite Nat2Z.inj_pow. f_equal. lia.
Qed.

(** ** The keys of the counting pass *)

Lemma In_keys_set {V : Type} (d : dict V) (k k' : string) (v : V) :
  In k' (dict_keys (dict_set d k v)) <-> In k' (dict_keys d) \/ k' = k.
Proof.
  rewrite dict_keys_set. destruct (mem_string k (dict_keys d)) eqn:E.
  - apply mem_string_In in E. split; [tauto|]. intros [H| ->]; assumption.
  - rewrite in_app_iff. simpl. intuition.
Qed.

Lemma length_dict_set {V : Type} (d : dict V) (k : string) (v : V) :
  (List.length d <= List.length (dict_set d k v))%nat.
Proof.
  induction d as [|[k' v'] d IH]; simpl; [lia|].
  destruct (String.eqb k k'); simpl; lia.
Qed.

Lemma count_ngram_keys (lowered ngram : string)
    (st : dict Z * dict (list string)) (k : string) :
  In k (dict_keys (fst (count_ngram lowered st ngram)))
  <-> In k (dict_keys (fst st)) \/ k = ngram.
Proof. destruct st as [counts occurrences]. simpl. apply In_keys_set. Qed.

Lemma fold_count_ngram_keys (lowered : string) (l : list string)
    (st : dict Z * dict (list string)) (k : string) :
  In k (dict_keys (fst (fold_left (count_ngram lowered) l st)))
  <-> In k (dict_keys (fst st)) \/ In k l.
Proof.
  revert st. induction l as [|g l IH]; intros st; simpl; [tauto|].
  rewrite IH, count_ngram_keys. intuition.
Qed.

Lemma count_string_keys (n : Z) (st : dict Z * dict (list string) * Z)
    (s : string) (k : string) :
  In k (dict_keys (fst (fst (count_string n st s))))
  <-> In k (dict_keys (fst (fst st))) \/ In k (ngrams (PyStr.lower s) n).
Proof.
  destruct st as [[counts occurrences] num]. unfold count_string.
  rewrite <- (fold_count_ngram_keys (PyStr.lower s) _ (counts, occurrences)).
  now destruct (fold_left _ _ _).
Qed.

(** The keys of [counts] are the n-grams of the lower-cased strings of
    the corpus. *)
Lemma count_pass_keys (string_list : list string) (n : Z) (k : string) :
  In k (dict_keys (fst (fst (count_pass string_list n))))
  <-> exists s, In s string_list /\ In k (ngrams (PyStr.lower s) n).
Proof.
  unfold count_pass.
  assert (H : forall st,
            In k (dict_keys (fst (fst (fold_left (count_string n) string_list st))))
            <-> In k (dict_keys (fst (fst st)))
                \/ exists s, In s string_list /\ In k (ngrams (PyStr.lower s) n)).
  { induction string_list as [|s l IH]; intros st; simpl.
    - split; [tauto|]. intros [H|(s & [] & _)]. exact H.
    - rewrite IH, count_string_keys. split.
      + intros [[H|H]|(s' & Hs' & H)]; eauto.
      + intros [H|(s' & [<-|Hs'] & H)]; eauto. }
  rewrite H. simpl. split; [intros [[]|H']; exact H'|auto].
Qed.

Lemma lower_length (s : string) :
  String.length (PyStr.lower s) = String.length s.
Proof. induction s as [|c s IH]; simpl; [reflexivity|now rewrite IH]. Qed.

Lemma all_chars_substring (p : ascii -> bool) (s : string) (i m : nat) :
  PyStr.all_chars p s = true -> PyStr.all_chars p (substring i m s) = true.
Proof.
  revert i m. induction s as [|c s IH]; intros i m H.
  - destruct i, m; exact H.
  - simpl in H. apply andb_true_iff in H. destruct H as [Hc Hs].
    destruct i as [|i].
    + destruct m as [|m]; [reflexivity|]. simpl. rewrite Hc. now apply IH.
    + simpl. now apply IH.
Qed.

(** An n-gram of a string of lowercase letters is one of the possible
    n-grams. *)
Lemma ngrams_lowercase (s : string) (n : Z) (g : string) :
  1 <= n -> PyStr.all_chars PyStr.is_lower_letter s = true ->
  In g (ngrams s n) -> In g (lowercase_ngrams (Z.to_nat n)).
Proof.
  intros Hn Hs Hg. rewrite ngrams_substrings in Hg by exact Hn.
  apply in_map_iff in Hg. destruct Hg as (i & <- & Hi). apply in_seq in Hi.
  destruct (Z.to_nat n) as [|k] eqn:E; [lia|].
  rewrite lowercase_ngrams_words. apply In_words. split.
  - apply length_substring. unfold PyStr.len in Hi. lia.
  - now apply all_chars_substring.
Qed.

(** ** The size of the table *)

Lemma fromkeys_keys {V : Type} (keys : list string) (v : V) :
  NoDup keys -> dict_keys (fromkeys keys v) = keys.
Proof.
  intros Hnd. unfold fromkeys.
  assert (H : forall d, NoDup (dict_keys d ++ keys) ->
            dict_keys (fold_left (fun d k => dict_set d k v) keys d)
            = dict_keys d ++ keys).
  { clear Hnd. induction keys as [|k keys IH]; intros d Hd; simpl.
    - now rewrite app_nil_r.
    - assert (Hk : ~ In k (dict_keys d)).
      { intros Hin. apply NoDup_remove_2 in Hd. apply Hd.
        apply in_or_app. now left. }
      rewrite IH; rewrite dict_keys_set;
        apply mem_string_not_In in Hk; rewrite Hk;
        rewrite <- app_assoc; [reflexivity|exact Hd]. }
  apply (H []). exact Hnd.
Qed.

(** The scoring pass over a corpus that is not empty raises nothing; it
    keeps the keys it finds, and adds none when the observed n-grams are
    among them. *)
Lemma score_pass_total (counts : dict Z) (N mf : Z)
    (occurrences : dict (list string)) (t : dict NGramData) :
  0 < N ->
  exists t',
    fold_left (score_ngram counts N mf) occurrences (Ok t) = Ok t'
    /\ (forall k, In k (dict_keys t) -> In k (dict_keys t'))
    /\ (List.length t <= List.length t')%nat
    /\ (exists extra, dict_keys t' = dict_keys t ++ extra)
    /\ ((forall k, In k (dict_keys occurrences) -> In k (dict_keys t)) ->
        dict_keys t' = dict_keys t).
Proof.
  intros HN. revert t.
  induction occurrences as [|[g l] occ IH]; intros t; cbn [fold_left].
  - exists t. repeat split; auto. exists []. now rewrite app_nil_r.
  - unfold score_ngram at 2. cbn [bind].
    rewrite ngram_idf_value_defined by lia. cbn [bind].
    destruct (IH (dict_set t g
                    (mkNGramData (Z.of_nat (List.length l))
                       (get_default counts g 0)
                       (IdfLog2 N (1 + Z.of_nat (List.length l))))))
      as (t' & Hfold & Hkeep & Hlen & (extra & Hextra) & Hsame).
    exists t'. split; [exact Hfold|]. split; [|split; [|split]].
    + intros k Hk. apply Hkeep. apply In_keys_set. now left.
    + pose proof (length_dict_set t g
                    (mkNGramData (Z.of_nat (List.length l))
                       (get_default counts g 0)
                       (IdfLog2 N (1 + Z.of_nat (List.length l))))). lia.
    + rewrite Hextra, dict_keys_set.
      destruct (mem_string g (dict_keys t)); [now exists extra|].
      exists ([g] ++ extra). now rewrite app_assoc.
    + intros Hsub.
      assert (Hg : mem_string g (dict_keys t) = true).
      { apply mem_string_In. apply Hsub. now left. }
      rewrite Hsame.
      * now rewrite dict_keys_set, Hg.
      * intros k Hk. apply In_keys_set. left. apply Hsub. now right.
Qed.

Lemma py_max_nonempty {A : Type} (gtb : A -> A -> bool) (l : list A) :
  l <> [] -> exists m, py_max gtb l = Ok m.
Proof. destruct l as [|x l]; [congruence|]. intros _. eexists. reflexivity. Qed.

Lemma py_max_Ok_nonempty {A : Type} (gtb : A -> A -> bool) (l : list A) (m : A) :
  py_max gtb l = Ok m -> l <> [].
Proof. destruct l; [discriminate|]. intros _. discriminate. Qed.

Lemma readjust_finite (m : Z) (N : Z) (kv : string * NGramData) :
  scored_entry N (snd kv) -> idf_finite (idf (snd (readjust m kv))).
Proof.
  destruct kv as [k v]. simpl. intros Hv.
  destruct (idf_is_zero (idf v)); simpl; [exact I|].
  destruct Hv as [-> | (Hsf & Hidf)]; [exact I|].
  rewrite Hidf. cbn [idf_finite]. lia.
Qed.

(** A corpus on which the counting pass finds an n-gram has a string. *)
Lemma counts_nonempty_corpus (string_list : list string) (n : Z) :
  dict_values (fst (fst (count_pass string_list n))) <> [] ->
  0 < snd (count_pass string_list n).
Proof.
  intros Hne. rewrite count_pass_num.
  destruct (fst (fst (count_pass string_list n))) as [|[k c] counts] eqn:E;
    [now contradiction Hne|].
  assert (Hk : In k (dict_keys (fst (fst (count_pass string_list n))))).
  { rewrite E. now left. }
  apply count_pass_keys in Hk. destruct Hk as (s & Hs & _).
  destruct string_list; [contradiction|]. simpl List.length. lia.
Qed.

(** Whenever [ngram_values] returns a table for n >= 1, the keys of the
    table start with the possible n-grams, and its entries are those of
    the table before the zero-score pass, readjusted. *)
Lemma ngram_values_keys (limit : nat) (string_list : list string) (n : Z)
    (t : dict NGramData) :
  1 <= n -> ngram_values limit string_list n true = Ok t ->
  (forall k, In k (lowercase_ngrams (Z.to_nat n)) -> In k (dict_keys t))
  /\ (List.length (lowercase_ngrams (Z.to_nat n)) <= List.length t)%nat
  /\ Forall (fun kv => idf_finite (idf (snd kv))) t
  /\ exists extra, dict_keys t = lowercase_ngrams (Z.to_nat n) ++ extra.
Proof.
  intros Hn H. pose proof (ngram_values_Ok _ _ _ _ _ H) as Hsteps.
  destruct Hsteps as (possible & mf & t0 & Hposs & Hmax & Hfold & Hfalse
                      & hi & Hhi & ->).
  replace n with (Z.of_nat (S (Nat.pred (Z.to_nat n)))) in Hposs by lia.
  rewrite all_possible_ngrams_positive in Hposs.
  destruct (S (Nat.pred (Z.to_nat n)) <=? limit)%nat; [|discriminate].
  replace (S (Nat.pred (Z.to_nat n))) with (Z.to_nat n) in Hposs by lia.
  injection Hposs as <-.
  apply py_max_Ok_nonempty in Hmax. apply counts_nonempty_corpus in Hmax.
  destruct (score_pass_total (fst (fst (count_pass string_list n)))
              (snd (count_pass string_list n)) mf
              (snd (fst (count_pass string_list n)))
              (fromkeys (lowercase_ngrams (Z.to_nat n)) initial_entry) Hmax)
    as (t' & Hfold' & Hkeep & Hlen & (extra & Hextra) & _).
  rewrite Hfold in Hfold'. injection Hfold' as <-.
  assert (Hnd : NoDup (lowercase_ngrams (Z.to_nat n))).
  { destruct (Z.to_nat n) as [|k]; [constructor|].
    rewrite lowercase_ngrams_words. apply NoDup_words. }
  split; [|split; [|split]]; cycle 3.
  { exists extra. rewrite dict_keys_readjust, Hextra.
    now rewrite fromkeys_keys. }
  - intros k Hk. rewrite dict_keys_readjust. apply Hkeep.
    now rewrite fromkeys_keys.
  - rewrite length_map.
    rewrite <- (fromkeys_keys (lowercase_ngrams (Z.to_nat n)) initial_entry Hnd)
      at 1.
    unfold dict_keys. rewrite length_map. exact Hlen.
  - apply Forall_map. pose proof (scored_table_entries _ _ _ _ Hfalse) as Hall.
    eapply Forall_impl; [|exact Hall]. intros kv. apply readjust_finite.
Qed.

(** On a corpus of letters with a string of n characters or more,
    [ngram_values] returns, and the keys of the table are the possible
    n-grams and nothing else. *)
Lemma ngram_values_letters (limit : nat) (string_list : list string) (n : Z) :
  1 <= n -> (Z.to_nat n <= limit)%nat ->
  (exists s, In s string_list /\ n <= PyStr.len s) ->
  Forall (fun s => PyStr.all_chars PyStr.is_lower_letter (PyStr.lower s) = true)
    string_list ->
  exists t,
    ngram_values limit string_list n true = Ok t
    /\ dict_keys t = lowercase_ngrams (Z.to_nat n).
Proof.
  intros Hn Hlimit (s & Hs & Hlen) Hletters.
  assert (Hnd : NoDup (lowercase_ngrams (Z.to_nat n))).
  { destruct (Z.to_nat n) as [|k]; [constructor|].
    rewrite lowercase_ngrams_words. apply NoDup_words. }
  assert (Hposs : all_possible_ngrams limit n
                  = Ok (lowercase_ngrams (Z.to_nat n))).
  { replace n with (Z.of_nat (S (Nat.pred (Z.to_nat n)))) at 1 by lia.
    rewrite all_possible_ngrams_positive.
    replace (S (Nat.pred (Z.to_nat n))) with (Z.to_nat n) by lia.
    destruct (Z.to_nat n <=? limit)%nat eqn:E; [reflexivity|].
    apply Nat.leb_gt in E. lia. }
  assert (Hcounts : dict_values (fst (fst (count_pass string_list n))) <> []).
  { assert (Hg : exists g, In g (ngrams (PyStr.lower s) n)).
    { pose proof (length_ngrams (PyStr.lower s) n) as Hl.
      unfold PyStr.len in *. rewrite lower_length in Hl.
      destruct (ngrams (PyStr.lower s) n) as [|g l]; [simpl in Hl; lia|].
      exists g. now left. }
    destruct Hg as (g & Hg).
    assert (Hk : In g (dict_keys (fst (fst (count_pass string_list n)))))
      by (apply count_pass_keys; eauto).
    unfold dict_keys, dict_values in *.
    destruct (fst (fst (count_pass string_list n))); [contradiction|discriminate]. }
  pose proof (counts_nonempty_corpus _ _ Hcounts) as HN.
  destruct (py_max_nonempty Z.gtb _ Hcounts) as (mf & Hmf).
  destruct (score_pass_total (fst (fst (count_pass string_list n)))
              (snd (count_pass string_list n)) mf
              (snd (fst (count_pass string_list n)))
              (fromkeys (lowercase_ngrams (Z.to_nat n)) initial_entry) HN)
    as (t0 & Hfold & Hkeep & _ & _ & Hsame).
  assert (Hkeys : dict_keys t0 = lowercase_ngrams (Z.to_nat n)).
  { rewrite Hsame; [now apply fromkeys_keys|].
    intros k Hk. rewrite fromkeys_keys by exact Hnd.
    destruct (count_pass_invariant string_list n) as (Heq & _).
    rewrite <- Heq in Hk. apply count_pass_keys in Hk.
    destruct Hk as (s' & Hs' & Hk). rewrite Forall_forall in Hletters.
    eapply ngrams_lowercase; [exact Hn|apply Hletters; exact Hs'|exact Hk]. }
  assert (Ht0 : map (fun kv => idf (snd kv)) t0 <> []).
  { destruct t0 as [|kv t0]; [|discriminate]. simpl in Hkeys.
    pose proof (length_lowercase_ngrams n Hn) as Hl. rewrite <- Hkeys in Hl.
    simpl in Hl. assert (0 < 26 ^ n) by (apply Z.pow_pos_nonneg; lia). lia. }
  destruct (py_max_nonempty idf_gtb _ Ht0) as (hi & Hhi).
  exists (map (readjust (py_ceil hi)) t0). split.
  - unfold ngram_values.
    destruct (count_pass string_list n) as [[counts occurrences] num].
    simpl in Hmf, Hfold. rewrite Hposs. cbn [bind]. rewrite Hmf. cbn [bind].
    rewrite Hfold. cbn [bind]. unfold highest_idf. rewrite Hhi. reflexivity.
  - now rewrite dict_keys_readjust.
Qed.

(** A table built for n >= 1 starts with a key of length n, the window
    length a scorer reads in it, and holds every n-gram of a string of
    lowercase letters. *)
Lemma built_table_covers (limit : nat) (string_list : list string) (n : Z)
    (table : dict NGramData) :
  1 <= n -> ngram_values limit string_list n true = Ok table ->
  (exists key, first_key table = Ok key /\ PyStr.len key = n)
  /\ forall s g,
       PyStr.all_chars PyStr.is_lower_letter s = true ->
       In g (ngrams s n) -> dict_get table g <> None.
Proof.
  intros Hn H.
  destruct (ngram_values_keys _ _ _ _ Hn H) as (Hkeys & _ & _ & extra & Hextra).
  split.
  - destruct (Z.to_nat n) as [|k] eqn:E; [lia|].
    pose proof (length_words (S k)) as Hlen.
    rewrite lowercase_ngrams_words in Hextra.
    destruct (words (S k)) as [|h l] eqn:Ew.
    + cbn [List.length] in Hlen.
      pose proof (Nat.pow_nonzero 26 (S k) ltac:(lia)). lia.
    + destruct table as [|[key v] table]; [discriminate|].
      injection Hextra as -> _. exists h. split; [reflexivity|].
      assert (Hh : In h (words (S k))) by (rewrite Ew; now left).
      apply In_words in Hh. unfold PyStr.len. lia.
  - intros s g Hs Hg. apply (ngrams_lowercase s n g Hn Hs) in Hg.
    apply Hkeys in Hg. apply dict_get_Some_key in Hg.
    destruct Hg as (v & Hv). congruence.
Qed.

(** C10 (as amended). Whenever [ngram_values] returns a table for a
    window length n >= 1, the table has an entry for every n-gram of n
    lowercase letters, so that the lookup of such an n-gram never fails;
    it has at least 26^n entries; and every idf in it is finite.  When
    moreover the lower-cased strings of the corpus are made of the letters
    a..z only, one of them has n characters or more and the recursion
    limit allows n frames, [ngram_values] does return a table, and the
    table has exactly 26^n entries. *)
Theorem weight_table_entries :
  (forall limit string_list n t,
     1 <= n -> ngram_values limit string_list n true = Ok t ->
     26 ^ n <= Z.of_nat (List.length t)
     /\ (forall g, PyStr.len g = n ->
           PyStr.all_chars PyStr.is_lower_letter g = true ->
           exists d, dict_get t g = Some d)
     /\ Forall (fun kv => idf_finite (idf (snd kv))) t)
  /\ (forall limit string_list n,
        1 <= n -> (Z.to_nat n <= limit)%nat ->
        (exists s, In s string_list /\ n <= PyStr.len s) ->
        Forall (fun s =>
                  PyStr.all_chars PyStr.is_lower_letter (PyStr.lower s) = true)
          string_list ->
        exists t,
          ngram_values limit string_list n true = Ok t
          /\ Z.of_nat (List.length t) = 26 ^ n).
Proof.
  split.
  - intros limit string_list n t Hn H.
    destruct (ngram_values_keys _ _ _ _ Hn H) as (Hkeys & Hlen & Hfin & _).
    split; [|split].
    + rewrite <- (length_lowercase_ngrams n Hn). lia.
    + intros g Hg Hletters. apply dict_get_Some_key. apply Hkeys.
      destruct (Z.to_nat n) as [|k] eqn:E; [lia|].
      rewrite lowercase_ngrams_words. apply In_words.
      unfold PyStr.len in Hg. split; [lia|exact Hletters].
    + exact Hfin.
  - intros limit string_list n Hn Hlimit Hs Hletters.
    destruct (ngram_values_letters _ _ _ Hn Hlimit Hs Hletters)
      as (t & Ht & Hkeys).
    exists t. split; [exact Ht|].
    rewrite <- (length_lowercase_ngrams n Hn), <- Hkeys.
    unfold dict_keys. now rewrite length_map.
Qed.

(** C10, as stated, fails.  A corpus string with a character that is not
    a letter adds its n-grams to the table: the corpus of the single
    string 1 gives, for n = 1, a table of 27 entries.  A corpus without
    any string of n characters gives no table at all: the builder raises
    the [ValueError] of [max] on an empty list. *)
Lemma weight_table_size_not_always_26_pow_n :
  (exists t,
     ngram_values 5 ["1"] 1 true = Ok t
     /\ List.length t = 27%nat
     /\ dict_get t "1" = Some (mkNGramData 1 1 (IdfLog2 1 2)))
  /\ ngram_values 5 ["a"] 2 true = Raise (ValueError Max_arg_is_empty).
Proof.
  split; [|reflexivity].
  eexists. split; [reflexivity|]. split; reflexivity.
Qed.

(** ** The detector *)

Section DetectorFacts.

Context {ops : FloatOps}.

Lemma math_pow_exception (x : Z) (y : F) (e : exn) :
  math_pow x y = Raise e ->
  e = ValueError Math_domain_error \/ e = OverflowError.
Proof.
  unfold math_pow. destruct (x =? 0).
  - destruct (is_finite y); [|discriminate].
    destruct (fsign y); try discriminate. intros [= <-]. now left.
  - destruct (x =? 1); [discriminate|].
    destruct (negb (int_fits x)); [intros [= <-]; now right|].
    destruct (is_finite y && pow_overflows (of_int x) y)%bool;
      [intros [= <-]; now right|discriminate].
Qed.

Lemma float_of_idf_exception (w : idfv) (e : exn) :
  float_of_idf w = Raise e -> e = OverflowError.
Proof.
  destruct w as [z|p q]; cbn [float_of_idf]; [|discriminate].
  destruct (int_fits z); [discriminate|]. now intros [= <-].
Qed.

Lemma float_of_int_exception (z : Z) (e : exn) :
  float_of_int z = Raise e -> e = OverflowError.
Proof.
  unfold float_of_int. destruct (int_fits z); [discriminate|].
  now intros [= <-].
Qed.

Lemma score_term_exception (ngram_freq : dict NGramData) (max_freq : Z)
    (rexp : F) (n : string) (c : Z) (e : exn) :
  score_term ngram_freq max_freq rexp n c = Raise e -> scorer_exception e.
Proof.
  unfold score_term, getitem, scorer_exception.
  destruct (dict_get ngram_freq n) as [value|]; cbn [bind].
  - destruct (math_pow c rexp) as [p|e'] eqn:E; cbn [bind].
    + destruct (float_of_idf (idf value)) as [w|e'] eqn:Ew; cbn [bind].
      * destruct (max_freq =? 0); [intros [= <-]; tauto|].
        destruct (float_of_int max_freq) as [d|e'] eqn:Ed; cbn [bind];
          [discriminate|].
        intros [= <-]. apply float_of_int_exception in Ed. tauto.
      * intros [= <-]. apply float_of_idf_exception in Ew. tauto.
    + intros [= <-]. apply math_pow_exception in E. tauto.
  - intros [= <-]. right. right. right. now exists n.
Qed.

Lemma sum_terms_exception (ngram_freq : dict NGramData) (max_freq : Z)
    (rexp : F) (ngram_counts : dict Z) (e : exn) :
  sum_terms ngram_freq max_freq rexp ngram_counts = Raise e ->
  scorer_exception e.
Proof.
  unfold sum_terms. generalize (of_int 0) as start.
  assert (Hraise : forall l e',
            fold_left
              (fun acc item =>
                 total <- acc ;;
                 term <- score_term ngram_freq max_freq rexp
                           (fst item) (snd item) ;;
                 Ok (fadd total term)) l (Raise e') = Raise e').
  { induction l as [|x l IH]; intros e'; simpl; [reflexivity|apply IH]. }
  induction ngram_counts as [|[g c] l IH]; intros start; cbn [fold_left].
  - discriminate.
  - cbn [bind fst snd].
    destruct (score_term ngram_freq max_freq rexp g c) as [t|e'] eqn:E;
      cbn [bind].
    + apply IH.
    + rewrite Hraise. intros [= <-]. now apply score_term_exception in E.
Qed.

(** A scorer raises nothing but what a lookup, a power, a conversion or
    a division raises. *)
Lemma score_function_exception (ngram_freq : dict NGramData)
    (max_freq ngram_length len_threshold : Z) (lexp rexp : F)
    (s : string) (e : exn) :
  score_function ngram_freq max_freq ngram_length len_threshold lexp rexp s
  = Raise e ->
  scorer_exception e.
Proof.
  unfold score_function.
  destruct (math_pow _ lexp) as [p|e'] eqn:E; cbn [bind].
  - destruct (sum_terms _ _ _ _) as [t|e'] eqn:E'; cbn [bind];
      [discriminate|].
    intros [= <-]. now apply sum_terms_exception in E'.
  - intros [= <-]. apply math_pow_exception in E.
    unfold scorer_exception. tauto.
Qed.

Lemma generate_nonsense_detector_Ok
    (ngram_freq pickled : option (dict NGramData))
    (min_length : Z) (min_score : F) (len_threshold : Z) (lexp rexp : F)
    (detector : string -> result bool) :
  generate_nonsense_detector ngram_freq pickled min_length min_score
    len_threshold lexp rexp = Ok detector ->
  exists table max_freq ngram_length,
    detector =
    nonsense_detector
      (score_function table max_freq ngram_length len_threshold lexp rexp)
      min_length min_score.
Proof.
  unfold generate_nonsense_detector, tfidf_score_function.
  match goal with
  | |- bind ?r _ = _ -> _ => destruct r as [table|e]
  end; cbn [bind]; [|discriminate].
  destruct (highest_total_frequency table) as [mf|e]; cbn [bind];
    [|discriminate].
  destruct (first_key table) as [key|e]; cbn [bind]; [|discriminate].
  intros [= <-]. now exists table, mf, (PyStr.len key).
Qed.

(** C7. A detector raises the error of the too short input exactly when
    the normalized string has fewer than [min_length] characters: with
    [min_length - 1] characters it raises it, with [min_length]
    characters it does not.  When it raises it, the result is that
    exception: no score is computed and no verdict is returned. *)
Theorem too_short_iff_below_min_length
    (ngram_freq pickled : option (dict NGramData))
    (min_length : Z) (min_score : F) (len_threshold : Z) (lexp rexp : F)
    (detector : string -> result bool) :
  generate_nonsense_detector ngram_freq pickled min_length min_score
    len_threshold lexp rexp = Ok detector ->
  forall raw : string,
    (detector raw = Raise (ValueError Too_short_to_test)
     <-> PyStr.len (normalize raw) < min_length)
    /\ (PyStr.len (normalize raw) = min_length - 1 ->
        detector raw = Raise (ValueError Too_short_to_test))
    /\ (PyStr.len (normalize raw) = min_length ->
        detector raw <> Raise (ValueError Too_short_to_test))
    /\ (detector raw = Raise (ValueError Too_short_to_test) ->
        forall verdict, detector raw <> Ok verdict).
Proof.
  intros Hgen raw.
  apply generate_nonsense_detector_Ok in Hgen.
  destruct Hgen as (table & mf & len & ->).
  assert (Hiff :
    nonsense_detector (score_function table mf len len_threshold lexp rexp)
      min_length min_score raw = Raise (ValueError Too_short_to_test)
    <-> PyStr.len (normalize raw) < min_length).
  { unfold nonsense_detector.
    destruct (PyStr.len (normalize raw) <? min_length) eqn:E.
    - apply Z.ltb_lt in E. tauto.
    - apply Z.ltb_ge in E. split; [|lia].
      destruct (score_function _ _ _ _ _ _ _) as [x|e] eqn:Es; cbn [bind];
        [discriminate|].
      intros [= ->]. apply score_function_exception in Es.
      destruct Es as [Es|[Es|[Es|(k & Es)]]]; discriminate. }
  split; [exact Hiff|]. split; [|split].
  - intros Hlen. apply Hiff. lia.
  - intros Hlen H. apply Hiff in H. lia.
  - intros H verdict. rewrite H. discriminate.
Qed.

End DetectorFacts.

Lemma too_short_iff_below_min_length_witness :
  generate_nonsense_detector (ops := RealOps) (Some table_a) None 6 (IZR 8)
    25 1%R 1%R
  = Ok (nonsense_detector (score_function table_a 1 1 25 1%R 1%R) 6 (IZR 8))
  /\ normalize "AB-c d9e" = "abcde"
  /\ nonsense_detector (ops := RealOps)
       (score_function table_a 1 1 25 1%R 1%R) 6 (IZR 8) "AB-c d9e"
     = Raise (ValueError Too_short_to_test)
  /\ nonsense_detector (ops := RealOps)
       (score_function table_a 1 1 25 1%R 1%R) 6 (IZR 8) "abcdef"
     <> Raise (ValueError Too_short_to_test).
Proof.
  split; [reflexivity|]. split; [reflexivity|].
  pose proof (too_short_iff_below_min_length (ops := RealOps)
                (Some table_a) None 6 (IZR 8) 25 1%R 1%R
                (nonsense_detector (ops := RealOps)
                   (score_function (ops := RealOps) table_a 1 1 25 1%R 1%R)
                   6 (IZR 8))
                eq_refl) as H.
  split.
  - destruct (H "AB-c d9e") as (_ & Hshort & _). apply Hshort. reflexivity.
  - destruct (H "abcdef") as (_ & _ & Hlong & _). apply Hlong. reflexivity.
Defined.

(** ** Normalization *)

(** C4 fails on an input with a tabulation: [_delchars] holds the ASCII
    punctuation, the digits and the space, so that lower-casing and
    [translate] leave the tabulation in place, and the normalized string
    is not made of lowercase letters only. *)
Theorem normalize_keeps_tabulation :
  let raw := ("abc" ++ String tab "def")%string in
  normalize raw = raw
  /\ PyStr.mem_char tab (normalize raw) = true
  /\ PyStr.is_lower_letter tab = false
  /\ PyStr.all_chars PyStr.is_lower_letter (normalize raw) = false
  /\ normalize "Ab1, c!" = "abc".
Proof. repeat split. Qed.

(** What normalization does remove: no character of [_delchars]
    survives. *)
Lemma normalize_deletes (raw : string) (c : ascii) :
  PyStr.mem_char c _delchars = true ->
  PyStr.mem_char c (normalize raw) = false.
Proof.
  intros Hc. unfold normalize. generalize (PyStr.lower raw) as s.
  induction s as [|d s IH]; [reflexivity|]. cbn [PyStr.translate_delete].
  destruct (PyStr.mem_char d _delchars) eqn:Ed; [exact IH|].
  cbn [PyStr.mem_char]. rewrite IH, orb_false_r.
  destruct (Ascii.eqb c d) eqn:E; [|reflexivity].
  apply Ascii.eqb_eq in E. congruence.
Qed.

(** C5. There is a raw input whose normalized form has [min_length]
    characters or more and still holds a character outside a..z, on
    which a detector built over a table of [ngram_values] returns no
    verdict and does not raise the error of the too short input: the
    lookup of the scorer raises a [KeyError] on the n-gram made of that
    character.  The input is a tabulation followed by the letters a to
    y; the table is that of the corpus of the single string a with
    n = 1; the detector has the default [min_length] 6 and length
    threshold 25, and any arithmetic, decision threshold and exponents:
    the string has 26 n-grams, the length penalty is a power of 1, which
    raises nothing, and the first lookup is that of the tabulation. *)
Theorem detector_key_error_on_tabulation :
  exists (raw : string) (table : dict NGramData),
    ngram_values 5 ["a"] 1 true = Ok table
    /\ 6 <= PyStr.len (normalize raw)
    /\ PyStr.mem_char tab (normalize raw) = true
    /\ PyStr.is_lower_letter tab = false
    /\ forall (ops : FloatOps) (min_score lexp rexp : F),
         exists detector,
           generate_nonsense_detector (Some table) None 6 min_score 25
             lexp rexp = Ok detector
           /\ detector raw = Raise (KeyError (String tab ""))
           /\ detector raw <> Raise (ValueError Too_short_to_test)
           /\ forall verdict, detector raw <> Ok verdict.
Proof.
  exists (String tab "abcdefghijklmnopqrstuvwxy"), table_a.
  split; [reflexivity|]. split; [discriminate|].
  split; [reflexivity|]. split; [reflexivity|].
  intros ops min_score lexp rexp.
  exists (nonsense_detector (score_function table_a 1 1 25 lexp rexp)
            6 min_score).
  split; [reflexivity|].
  assert (H : nonsense_detector (score_function table_a 1 1 25 lexp rexp)
                6 min_score (String tab "abcdefghijklmnopqrstuvwxy")
              = Raise (KeyError (String tab ""))) by reflexivity.
  split; [exact H|]. split; [rewrite H; discriminate|].
  intros verdict. rewrite H. discriminate.
Qed.

(** ** Counting the n-grams of a string *)

Lemma distinct_snoc (l : list string) (x : string) :
  distinct (l ++ [x]) = set_add x (distinct l).
Proof. unfold distinct. now rewrite fold_left_app. Qed.

Lemma In_set_add (x y : string) (s : list string) :
  In y (set_add x s) <-> In y s \/ y = x.
Proof.
  unfold set_add. destruct (mem_string x s) eqn:E.
  - apply mem_string_In in E. split; [tauto|]. intros [H| ->]; assumption.
  - rewrite in_app_iff. simpl. intuition.
Qed.

Lemma NoDup_set_add (x : string) (s : list string) :
  NoDup s -> NoDup (set_add x s).
Proof.
  intros Hs. unfold set_add. destruct (mem_string x s) eqn:E; [exact Hs|].
  apply mem_string_not_In in E. apply NoDup_app; [exact Hs| |].
  - constructor; [tauto|constructor].
  - intros a Ha [<-|[]]. contradiction.
Qed.

(** [distinct l] lists the elements of [l], each once. *)
Lemma distinct_spec (l : list string) :
  NoDup (distinct l) /\ forall x, In x (distinct l) <-> In x l.
Proof.
  induction l as [|x l IH] using rev_ind.
  - split; [constructor|]. intros x. reflexivity.
  - destruct IH as [Hnd Hin]. rewrite distinct_snoc. split.
    + now apply NoDup_set_add.
    + intros y. rewrite In_set_add, in_app_iff, Hin. simpl. intuition.
Qed.

(** The dictionary of the counts of the elements of a list. *)
Lemma dict_get_tabulate {V : Type} (f : string -> V) (keys : list string)
    (x : string) :
  dict_get (map (fun g => (g, f g)) keys) x
  = if mem_string x keys then Some (f x) else None.
Proof.
  induction keys as [|k keys IH]; simpl; [reflexivity|].
  destruct (String.eqb x k) eqn:E; simpl; [|exact IH].
  apply String.eqb_eq in E. now subst.
Qed.

Lemma dict_set_tabulate {V : Type} (f : string -> V) (keys : list string)
    (x : string) (v : V) :
  NoDup keys ->
  dict_set (map (fun g => (g, f g)) keys) x v
  = map (fun g => (g, if String.eqb g x then v else f g)) (set_add x keys).
Proof.
  intros Hnd. unfold set_add.
  induction Hnd as [|k keys Hk Hnd IH]; simpl.
  - now rewrite String.eqb_refl.
  - destruct (String.eqb x k) eqn:E; simpl.
    + apply String.eqb_eq in E. subst k. rewrite String.eqb_refl. f_equal.
      apply map_ext_in. intros g Hg.
      destruct (String.eqb g x) eqn:E'; [|reflexivity].
      apply String.eqb_eq in E'. subst. contradiction.
    + rewrite IH.
      destruct (mem_string x keys); simpl; rewrite (String.eqb_sym k x), E;
        reflexivity.
Qed.

Lemma occurrence_count_snoc (g x : string) (l : list string) :
  occurrence_count g (l ++ [x])
  = if String.eqb g x then occurrence_count x l + 1 else occurrence_count g l.
Proof.
  unfold occurrence_count. rewrite count_occ_app. simpl.
  destruct (string_dec x g) as [->|Hne].
  - rewrite String.eqb_refl. lia.
  - destruct (String.eqb g x) eqn:E; [|lia].
    apply String.eqb_eq in E. congruence.
Qed.

Lemma occurrence_count_positive (g : string) (l : list string) :
  In g l -> 1 <= occurrence_count g l.
Proof.
  intros Hin. unfold occurrence_count.
  apply (count_occ_In string_dec) in Hin. lia.
Qed.

Lemma fold_max_Z (xs : list Z) (x : Z) :
  let m := fold_left (fun m y => if y >? m then y else m) xs x in
  (m = x \/ In m xs) /\ x <= m /\ forall y, In y xs -> y <= m.
Proof.
  revert x. induction xs as [|a xs IH]; intros x; cbn [fold_left].
  - cbv zeta. split; [now left|]. split; [lia|]. intros y [].
  - specialize (IH (if a >? x then a else x)). cbv zeta in IH |- *.
    destruct IH as (Hin & Hle & Hall).
    destruct (a >? x) eqn:E;
      [apply Z.gtb_lt in E|rewrite Z.gtb_ltb in E; apply Z.ltb_ge in E].
    + split; [destruct Hin as [->|Hin]; right; [now left|now right]|].
      split; [lia|]. intros y [<-|Hy]; [exact Hle|now apply Hall].
    + split; [destruct Hin as [->|Hin]; [now left|right; now right]|].
      split; [lia|]. intros y [<-|Hy]; [lia|now apply Hall].
Qed.

(** What [highest_total_frequency] returns is a total frequency of the
    table that none exceeds. *)
Lemma highest_total_frequency_max (t : dict NGramData) (m : Z) :
  highest_total_frequency t = Ok m ->
  (exists g v, In (g, v) t /\ total_frequency v = m)
  /\ forall g v, In (g, v) t -> total_frequency v <= m.
Proof.
  unfold highest_total_frequency. destruct t as [|[g0 v0] t]; cbn [map py_max];
    [discriminate|].
  cbn [snd]. intros [= <-].
  pose proof (fold_max_Z (map (fun kv => total_frequency (snd kv)) t)
                (total_frequency v0)) as H.
  cbv zeta in H. destruct H as (Hin & Hle & Hall). split.
  - destruct Hin as [Heq|Hin].
    + exists g0, v0. split; [now left|now symmetry].
    + apply in_map_iff in Hin. destruct Hin as ([g v] & Hv & Hgv).
      exists g, v. split; [now right|exact Hv].
  - intros g v [[= <- <-]|Hgv]; [exact Hle|].
    apply Hall. apply in_map_iff. now exists (g, v).
Qed.

Section ScoreFacts.

Context {ops : FloatOps}.

(** The loop [ngram_counts[ngram] += 1] leaves, for each distinct n-gram
    in the order of its first occurrence, the number of its
    occurrences. *)
Lemma count_occurrences (l : list string) :
  fold_left count_occurrence l []
  = map (fun g => (g, occurrence_count g l)) (distinct l).
Proof.
  induction l as [|x l IH] using rev_ind; [reflexivity|].
  rewrite fold_left_app, IH. cbn [fold_left]. unfold count_occurrence.
  destruct (distinct_spec l) as [Hnd Hin].
  rewrite dict_set_tabulate by exact Hnd. rewrite distinct_snoc.
  apply map_ext. intros g. f_equal. rewrite occurrence_count_snoc.
  destruct (String.eqb g x); [|reflexivity]. f_equal.
  unfold get_default. rewrite dict_get_tabulate.
  destruct (mem_string x (distinct l)) eqn:E; [reflexivity|].
  apply mem_string_not_In in E. rewrite Hin in E.
  apply (count_occ_not_In string_dec) in E.
  unfold occurrence_count. now rewrite E.
Qed.

Lemma math_pow_nonzero (x : Z) (y : F) :
  x <> 0 -> pow_in_range x y -> math_pow x y = Ok (fpow (of_int x) y).
Proof.
  intros Hx Hr. unfold math_pow.
  destruct (x =? 0) eqn:E; [apply Z.eqb_eq in E; contradiction|].
  destruct (x =? 1) eqn:E1; [apply Z.eqb_eq in E1; now subst|].
  destruct Hr as [->|[Hfit Hpow]]; [now rewrite Z.eqb_refl in E1|].
  now rewrite Hfit, Hpow.
Qed.

(** The power of a zero base, with a finite exponent. *)
Lemma math_pow_zero (y : F) :
  is_finite y = true ->
  math_pow 0 y
  = match fsign y with
    | Lt => Raise (ValueError Math_domain_error)
    | Eq => Ok (of_int 1)
    | Gt => Ok (of_int 0)
    end.
Proof. intros H. unfold math_pow. cbn [Z.eqb]. now rewrite H. Qed.

(** With a finite positive exponent, the power the scorer computes is
    the length penalty of the specification, when it is in the range of
    the floats. *)
Lemma length_penalty_positive_exponent (m len_threshold : Z) (lexp : F) :
  is_finite lexp = true ->
  fsign lexp = Gt ->
  (len_threshold < m -> pow_in_range (m - len_threshold) lexp) ->
  math_pow (Z.max 0 (m - len_threshold)) lexp
  = Ok (length_penalty_formula m len_threshold lexp).
Proof.
  intros Hfin Hsign Hr. unfold length_penalty_formula.
  destruct (m <=? len_threshold) eqn:E.
  - apply Z.leb_le in E. rewrite Z.max_l by lia.
    rewrite math_pow_zero by exact Hfin. now rewrite Hsign.
  - apply Z.leb_gt in E. rewrite Z.max_r by lia.
    apply math_pow_nonzero; [lia|]. apply Hr. lia.
Qed.

Lemma float_of_idf_fits (w : idfv) :
  idf_fits w -> float_of_idf w = Ok (of_idf w).
Proof.
  destruct w as [z|p q]; cbn [idf_fits float_of_idf]; [|reflexivity].
  now intros ->.
Qed.

Lemma score_term_defined (table : dict NGramData) (max_freq : Z) (rexp : F)
    (g : string) (c : Z) :
  dict_get table g <> None -> c <> 0 -> max_freq <> 0 ->
  pow_in_range c rexp -> idf_fits (idf_of table g) ->
  int_fits max_freq = true ->
  score_term table max_freq rexp g c
  = Ok (contribution (idf_of table g) c rexp max_freq).
Proof.
  intros Hg Hc Hmf Hpow Hidf Hfit.
  unfold score_term, getitem, idf_of, contribution in *.
  destruct (dict_get table g) as [d|]; [|contradiction]. cbn [bind].
  rewrite math_pow_nonzero by assumption. cbn [bind].
  rewrite float_of_idf_fits by exact Hidf. cbn [bind].
  destruct (max_freq =? 0) eqn:E; [apply Z.eqb_eq in E; contradiction|].
  unfold float_of_int. now rewrite Hfit.
Qed.

Lemma sum_terms_defined (table : dict NGramData) (max_freq : Z) (rexp : F)
    (c : string -> Z) (keys : list string) :
  (forall g, In g keys ->
     dict_get table g <> None /\ c g <> 0
     /\ pow_in_range (c g) rexp /\ idf_fits (idf_of table g)) ->
  max_freq <> 0 -> int_fits max_freq = true ->
  sum_terms table max_freq rexp (map (fun g => (g, c g)) keys)
  = Ok (fold_left
          (fun acc g =>
             fadd acc (contribution (idf_of table g) (c g) rexp max_freq))
          keys (of_int 0)).
Proof.
  intros Hkeys Hmf Hfit. unfold sum_terms. generalize (of_int 0) as start.
  induction keys as [|g keys IH]; intros start; [reflexivity|].
  cbn [map fold_left fst snd bind].
  destruct (Hkeys g (or_introl eq_refl)) as (Hg & Hc & Hpow & Hidf).
  rewrite score_term_defined by assumption. cbn [bind].
  apply IH. intros g' Hg'. apply Hkeys. now right.
Qed.

(** The scorer computes the score of the specification. *)
Lemma score_function_score_formula (table : dict NGramData)
    (max_freq n len_threshold : Z) (lexp rexp : F) (s : string) :
  is_finite lexp = true ->
  fsign lexp = Gt ->
  (forall g, In g (ngrams s n) -> dict_get table g <> None) ->
  max_freq <> 0 ->
  in_float_range table max_freq len_threshold lexp rexp (ngrams s n) ->
  score_function table max_freq n len_threshold lexp rexp s
  = Ok (score_formula table max_freq n len_threshold lexp rexp s).
Proof.
  intros Hfin Hsign Hkeys Hmf (Hfit & Hpen & Hgrams).
  unfold score_function, score_formula.
  rewrite length_penalty_positive_exponent by assumption. cbn [bind].
  rewrite count_occurrences.
  rewrite (sum_terms_defined table max_freq rexp
             (fun g => occurrence_count g (ngrams s n)));
    [reflexivity| |exact Hmf|exact (Hfit Hmf)].
  intros g Hg. apply (proj1 (proj2 (distinct_spec _) g)) in Hg.
  destruct (Hgrams g Hg) as [Hpow Hidf].
  split; [now apply Hkeys|]. split; [|now split].
  pose proof (occurrence_count_positive g _ Hg). lia.
Qed.

(** C3 (as amended).  A scorer made by [tfidf_score_function] reads in
    the table the maximal total frequency, a total frequency of the
    table that none exceeds, and the window length n, the length of the
    first key.  On a string s whose m n-grams are keys of the table it
    returns the sum over the distinct n-grams g of s of idf(g) *
    c(g)^rexp * (0.5 + 0.5 * c(g) / max_total_frequency), plus
    max(0, m - threshold)^lexp, divided by 1 + m, when the length
    exponent is finite and positive, the maximal total frequency is not
    0 and the powers and the integers of the table are in the range of
    the floats.  For m <= threshold and a finite length exponent, the
    length penalty is 0 for a positive exponent, 1 for the exponent 0
    and the [ValueError] of [math.pow] for a negative one.  For m = 0,
    a threshold that is not negative and a finite positive exponent the
    scorer returns a number, (0 + 0) / 1, and raises nothing.  On a table that [ngram_values]
    built for a window length n >= 1, the scorer reads that n in the
    table and every n-gram of a string of lowercase letters is a key of
    the table. *)
Theorem scorer_returns_score_formula (table : dict NGramData)
    (len_threshold : Z) (lexp rexp : F) (scorer : string -> result F)
    (s : string) :
  tfidf_score_function table len_threshold lexp rexp = Ok scorer ->
  exists max_freq key,
    highest_total_frequency table = Ok max_freq
    /\ (exists g d, In (g, d) table /\ total_frequency d = max_freq)
    /\ (forall g d, In (g, d) table -> total_frequency d <= max_freq)
    /\ first_key table = Ok key
    /\ let n := PyStr.len key in
       let m := Z.of_nat (List.length (ngrams s n)) in
       (is_finite lexp = true ->
        fsign lexp = Gt ->
        (forall g, In g (ngrams s n) -> dict_get table g <> None) ->
        max_freq <> 0 ->
        in_float_range table max_freq len_threshold lexp rexp (ngrams s n) ->
        scorer s = Ok (score_formula table max_freq n len_threshold lexp rexp s))
       /\ (m <= len_threshold ->
           is_finite lexp = true ->
           math_pow (Z.max 0 (m - len_threshold)) lexp
           = match fsign lexp with
             | Lt => Raise (ValueError Math_domain_error)
             | Eq => Ok (of_int 1)
             | Gt => Ok (of_int 0)
             end
           /\ length_penalty_formula m len_threshold lexp = of_int 0)
       /\ (m = 0 ->
           0 <= len_threshold ->
           is_finite lexp = true ->
           fsign lexp = Gt ->
           scorer s = Ok (fdiv (fadd (of_int 0) (of_int 0)) (of_int 1)))
       /\ (forall limit string_list window,
             1 <= window ->
             ngram_values limit string_list window true = Ok table ->
             PyStr.all_chars PyStr.is_lower_letter s = true ->
             n = window
             /\ forall g, In g (ngrams s n) -> dict_get table g <> None).
Proof.
  unfold tfidf_score_function. intros Hgen.
  destruct (highest_total_frequency table) as [mf|e] eqn:Emf;
    cbn [bind] in Hgen; [|discriminate].
  destruct (first_key table) as [key|e] eqn:Ekey; cbn [bind] in Hgen;
    [|discriminate].
  injection Hgen as <-. exists mf, key.
  split; [reflexivity|].
  destruct (highest_total_frequency_max table mf Emf) as [Hattained Hmax].
  split; [exact Hattained|]. split; [exact Hmax|].
  split; [reflexivity|]. cbv zeta.
  split; [|split; [|split]]; cycle 3.
  { intros limit string_list window Hw Hbuilt Hs.
    destruct (built_table_covers _ _ _ _ Hw Hbuilt)
      as ((key' & Hkey' & Hlen) & Hcover).
    rewrite Ekey in Hkey'. injection Hkey' as <-.
    split; [exact Hlen|]. intros g Hg. rewrite Hlen in Hg.
    exact (Hcover s g Hs Hg). }
  - intros Hfin Hsign Hkeys Hmf Hrange.
    now apply score_function_score_formula.
  - intros Hm Hfin. rewrite Z.max_l by lia. split.
    + now apply math_pow_zero.
    + unfold length_penalty_formula.
      destruct (_ <=? len_threshold) eqn:E; [reflexivity|].
      apply Z.leb_gt in E. lia.
  - intros Hm Hthr Hfin Hsign. unfold score_function.
    destruct (ngrams s (PyStr.len key)) as [|g l];
      [|cbn [List.length] in Hm; lia].
    cbn [List.length Z.of_nat Z.sub]. rewrite Z.max_l by lia.
    rewrite math_pow_zero by exact Hfin. now rewrite Hsign.
Qed.

End ScoreFacts.

(** ** The scorer in real arithmetic *)

(** In real arithmetic nothing leaves the range of the numbers. *)
Lemma real_pow_in_range (x : Z) (y : R) : pow_in_range (ops := RealOps) x y.
Proof. right. split; reflexivity. Qed.

Lemma real_in_float_range (table : dict NGramData)
    (max_freq len_threshold : Z) (lexp rexp : R) (grams : list string) :
  in_float_range (ops := RealOps) table max_freq len_threshold lexp rexp grams.
Proof.
  split; [reflexivity|]. split; [intros _; apply real_pow_in_range|].
  intros g _. split; [apply real_pow_in_range|].
  destruct (idf_of table g); [reflexivity|exact I].
Qed.

Lemma real_score_function_score_formula (table : dict NGramData)
    (max_freq n len_threshold : Z) (lexp rexp : R) (s : string) :
  (0 < lexp)%R ->
  (forall g, In g (ngrams s n) -> dict_get table g <> None) ->
  max_freq <> 0 ->
  score_function (ops := RealOps) table max_freq n len_threshold lexp rexp s
  = Ok (score_formula table max_freq n len_threshold lexp rexp s).
Proof.
  intros Hlexp Hkeys Hmf.
  apply (score_function_score_formula (ops := RealOps));
    [reflexivity|now apply Rcompare_positive|exact Hkeys|exact Hmf|].
  apply real_in_float_range.
Qed.

Lemma real_score_term_defined (table : dict NGramData) (max_freq : Z)
    (rexp : R) (g : string) (c : Z) :
  dict_get table g <> None -> c <> 0 -> max_freq <> 0 ->
  score_term (ops := RealOps) table max_freq rexp g c
  = Ok (contribution (idf_of table g) c rexp max_freq).
Proof.
  intros Hg Hc Hmf.
  apply (score_term_defined (ops := RealOps)); try assumption.
  - apply real_pow_in_range.
  - destruct (idf_of table g); [reflexivity|exact I].
  - reflexivity.
Qed.

Lemma scorer_returns_score_formula_witness :
  tfidf_score_function (ops := RealOps) table8 25 1%R 1%R
  = Ok (score_function table8 8 1 25 1%R 1%R)
  /\ @fsign RealOps 1%R = Gt
  /\ (forall g d, In (g, d) table8 -> total_frequency d <= 8)
  /\ score_function (ops := RealOps) table8 8 1 25 1%R 1%R "axyz"
     = Ok (score_formula table8 8 1 25 1%R 1%R "axyz")
  /\ math_pow (ops := RealOps) (Z.max 0 (4 - 25)) 1%R = Ok 0%R
  /\ score_function (ops := RealOps) table8 8 1 25 1%R 1%R ""
     = Ok ((0 + 0) / 1)%R.
Proof.
  assert (Hsign : @fsign RealOps 1%R = Gt) by (apply Rcompare_positive; lra).
  split; [reflexivity|]. split; [exact Hsign|].
  split; [|split; [|split]].
  - destruct (scorer_returns_score_formula (ops := RealOps) table8 25 1%R 1%R
                (score_function (ops := RealOps) table8 8 1 25 1%R 1%R)
                "axyz" eq_refl)
      as (max_freq & key & Hmf & _ & Hmax & _).
    vm_compute in Hmf. injection Hmf as <-. exact Hmax.
  - destruct (scorer_returns_score_formula (ops := RealOps) table8 25 1%R 1%R
                (score_function (ops := RealOps) table8 8 1 25 1%R 1%R)
                "axyz" eq_refl)
      as (max_freq & key & Hmf & _ & _ & Hkey & Hscore & _).
    vm_compute in Hmf, Hkey. injection Hmf as <-. injection Hkey as <-.
    apply Hscore.
    + reflexivity.
    + exact Hsign.
    + intros g [<-|[<-|[<-|[<-|[]]]]]; discriminate.
    + discriminate.
    + apply real_in_float_range.
  - destruct (scorer_returns_score_formula (ops := RealOps) table8 25 1%R 1%R
                (score_function (ops := RealOps) table8 8 1 25 1%R 1%R)
                "axyz" eq_refl)
      as (max_freq & key & Hmf & _ & _ & Hkey & _ & Hpenalty & _).
    vm_compute in Hkey. injection Hkey as <-.
    destruct Hpenalty as [Hp _]; [discriminate|reflexivity|].
    rewrite Hsign in Hp. exact Hp.
  - destruct (scorer_returns_score_formula (ops := RealOps) table8 25 1%R 1%R
                (score_function (ops := RealOps) table8 8 1 25 1%R 1%R)
                "" eq_refl)
      as (max_freq & key & Hmf & _ & _ & Hkey & _ & _ & Hempty & _).
    vm_compute in Hkey. injection Hkey as <-.
    apply Hempty; [reflexivity|lia|reflexivity|exact Hsign].
Defined.

(** ** Appending to a string *)

Lemma substring_append (s t : string) (i m : nat) :
  (i + m <= String.length s)%nat ->
  substring i m (s ++ t)%string = substring i m s.
Proof.
  revert i m. induction s as [|c s IH]; intros i m H; simpl in H.
  - assert (i = O) by lia. assert (m = O) by lia. subst. simpl.
    now destruct t.
  - destruct i as [|i].
    + destruct m as [|m]; [reflexivity|]. simpl. f_equal. apply IH. lia.
    + simpl. apply IH. lia.
Qed.

Lemma length_append (s t : string) :
  String.length (s ++ t)%string = (String.length s + String.length t)%nat.
Proof. induction s as [|c s IH]; simpl; [reflexivity|now rewrite IH]. Qed.

(** The n-grams of a string come first among the n-grams of the string
    with a suffix. *)
Lemma ngrams_append (s t : string) (n : Z) :
  1 <= n -> exists more, ngrams (s ++ t)%string n = ngrams s n ++ more.
Proof.
  intros Hn. rewrite !ngrams_substrings by exact Hn.
  unfold PyStr.len. rewrite length_append.
  set (a := Z.to_nat (Z.of_nat (String.length s) - n + 1)).
  set (b := Z.to_nat
              (Z.of_nat (String.length s + String.length t) - n + 1)).
  assert (Hab : (a <= b)%nat) by (unfold a, b; lia).
  replace b with (a + (b - a))%nat by lia. rewrite seq_app, map_app.
  exists (map (fun i => substring i (Z.to_nat n) (s ++ t)%string)
            (seq (0 + a) (b - a))).
  f_equal. apply map_ext_in. intros i Hi. apply in_seq in Hi.
  apply substring_append. unfold a in Hi. lia.
Qed.

(** ** Sums of real numbers in the order of a list *)

Lemma fold_sum_monotone (h h' : string -> R) (l : list string) (a a' : R) :
  (a <= a')%R -> (forall g, In g l -> (h g <= h' g)%R) ->
  (fold_left (fun acc g => acc + h g) l a
   <= fold_left (fun acc g => acc + h' g) l a')%R.
Proof.
  revert a a'. induction l as [|x l IH]; intros a a' Ha Hh; simpl;
    [exact Ha|].
  apply IH.
  - pose proof (Hh x (or_introl eq_refl)). lra.
  - intros g Hg. apply Hh. now right.
Qed.

Lemma fold_sum_snoc (h : string -> R) (l : list string) (x : string) (a : R) :
  fold_left (fun acc g => (acc + h g)%R) (l ++ [x]) a
  = (fold_left (fun acc g => acc + h g) l a + h x)%R.
Proof. now rewrite fold_left_app. Qed.

(** ** The terms of the score in real arithmetic *)

Lemma contribution_nonnegative (w : idfv) (c : Z) (rexp : R) (max_freq : Z) :
  (0 <= idf_real w)%R -> 0 < max_freq -> 1 <= c ->
  (0 <= contribution (ops := RealOps) w c rexp max_freq)%R.
Proof.
  intros Hw Hmf Hc. unfold contribution.
  cbn [fadd fmul fdiv fpow of_int of_idf half RealOps].
  assert (H1 : (1 <= IZR c)%R) by (apply IZR_le; lia).
  assert (Hm : (0 < IZR max_freq)%R) by (apply IZR_lt; lia).
  assert (Hpos : (0 < Rpower (IZR c) rexp)%R) by (unfold Rpower; apply exp_pos).
  apply Rmult_le_pos; [apply Rmult_le_pos; lra|].
  assert (0 <= 1 / 2 * IZR c / IZR max_freq)%R; [|lra].
  unfold Rdiv. apply Rmult_le_pos; [lra|]. left. now apply Rinv_0_lt_compat.
Qed.

Lemma contribution_monotone (w : idfv) (c1 c2 : Z) (rexp : R) (max_freq : Z) :
  (0 <= idf_real w)%R -> (0 <= rexp)%R -> 0 < max_freq -> 1 <= c1 <= c2 ->
  (contribution (ops := RealOps) w c1 rexp max_freq
   <= contribution (ops := RealOps) w c2 rexp max_freq)%R.
Proof.
  intros Hw Hrexp Hmf [Hc1 Hc2]. unfold contribution.
  cbn [fadd fmul fdiv fpow of_int of_idf half RealOps].
  assert (H1 : (1 <= IZR c1)%R) by (apply IZR_le; lia).
  assert (H12 : (IZR c1 <= IZR c2)%R) by (apply IZR_le; lia).
  assert (Hm : (0 < IZR max_freq)%R) by (apply IZR_lt; lia).
  assert (Hpow : (Rpower (IZR c1) rexp <= Rpower (IZR c2) rexp)%R).
  { apply Rle_Rpower_l; [exact Hrexp|lra]. }
  assert (Hpos : (0 < Rpower (IZR c1) rexp)%R) by (unfold Rpower; apply exp_pos).
  assert (Htf : (1 / 2 + 1 / 2 * IZR c1 / IZR max_freq
                 <= 1 / 2 + 1 / 2 * IZR c2 / IZR max_freq)%R).
  { apply Rplus_le_compat_l. unfold Rdiv.
    apply Rmult_le_compat_r; [left; now apply Rinv_0_lt_compat|lra]. }
  assert (Htf0 : (0 <= 1 / 2 + 1 / 2 * IZR c1 / IZR max_freq)%R).
  { assert (0 <= 1 / 2 * IZR c1 / IZR max_freq)%R; [|lra].
    unfold Rdiv. apply Rmult_le_pos; [lra|].
    left. now apply Rinv_0_lt_compat. }
  apply Rmult_le_compat; try assumption.
  - apply Rmult_le_pos; lra.
  - apply Rmult_le_compat_l; assumption.
Qed.

Lemma length_penalty_monotone (m len_threshold : Z) (lexp : R) :
  (0 <= lexp)%R ->
  (length_penalty_formula (ops := RealOps) m len_threshold lexp
   <= length_penalty_formula (ops := RealOps) (m + 1) len_threshold lexp)%R.
Proof.
  intros Hlexp. unfold length_penalty_formula.
  cbn [fpow of_int RealOps].
  destruct (m <=? len_threshold) eqn:E; destruct (m + 1 <=? len_threshold) eqn:E'.
  - lra.
  - left. unfold Rpower. apply exp_pos.
  - apply Z.leb_gt in E. apply Z.leb_le in E'. lia.
  - apply Z.leb_gt in E. apply Rle_Rpower_l; [exact Hlexp|].
    split; [apply IZR_lt; lia|apply IZR_le; lia].
Qed.

Lemma score_sum_snoc (table : dict NGramData) (max_freq len_threshold : Z)
    (lexp rexp : R) (grams : list string) (x : string) :
  (0 <= lexp)%R -> (0 <= rexp)%R -> 0 < max_freq ->
  (forall g, In g (grams ++ [x]) -> (0 <= idf_real (idf_of table g))%R) ->
  (score_sum table max_freq len_threshold lexp rexp grams
   <= score_sum table max_freq len_threshold lexp rexp (grams ++ [x]))%R.
Proof.
  intros Hlexp Hrexp Hmf Hidf. unfold score_sum.
  apply Rplus_le_compat.
  - destruct (distinct_spec grams) as [Hnd Hin].
    assert (Hterm : forall g, In g (distinct grams) ->
              (contribution (ops := RealOps) (idf_of table g)
                 (occurrence_count g grams) rexp max_freq
               <= contribution (ops := RealOps) (idf_of table g)
                    (occurrence_count g (grams ++ [x])) rexp max_freq)%R).
    { intros g Hg. apply Hin in Hg.
      apply contribution_monotone; try assumption.
      - apply Hidf. apply in_or_app. now left.
      - pose proof (occurrence_count_positive g grams Hg).
        rewrite occurrence_count_snoc.
        destruct (String.eqb g x) eqn:E; [|lia].
        apply String.eqb_eq in E. subst. lia. }
    rewrite distinct_snoc. unfold set_add.
    destruct (mem_string x (distinct grams)) eqn:E.
    + apply fold_sum_monotone; [lra|exact Hterm].
    + rewrite fold_sum_snoc.
      assert (Hx : (0 <= contribution (ops := RealOps) (idf_of table x)
                         (occurrence_count x (grams ++ [x])) rexp max_freq)%R).
      { apply contribution_nonnegative; [|exact Hmf|].
        - apply Hidf. apply in_or_app. right. now left.
        - apply occurrence_count_positive. apply in_or_app. right. now left. }
      pose proof (fold_sum_monotone _ _ (distinct grams) 0%R 0%R
                    (Rle_refl 0) Hterm). lra.
  - rewrite length_app. simpl List.length.
    replace (Z.of_nat (List.length grams + 1))
      with (Z.of_nat (List.length grams) + 1) by lia.
    now apply length_penalty_monotone.
Qed.

Lemma score_sum_append (table : dict NGramData) (max_freq len_threshold : Z)
    (lexp rexp : R) (grams more : list string) :
  (0 <= lexp)%R -> (0 <= rexp)%R -> 0 < max_freq ->
  (forall g, In g (grams ++ more) -> (0 <= idf_real (idf_of table g))%R) ->
  (score_sum table max_freq len_threshold lexp rexp grams
   <= score_sum table max_freq len_threshold lexp rexp (grams ++ more))%R.
Proof.
  intros Hlexp Hrexp Hmf. revert grams.
  induction more as [|x more IH]; intros grams Hidf.
  - rewrite app_nil_r. lra.
  - replace (grams ++ x :: more) with ((grams ++ [x]) ++ more) in *
      by (now rewrite <- app_assoc).
    apply Rle_trans
      with (score_sum table max_freq len_threshold lexp rexp (grams ++ [x])).
    + apply score_sum_snoc; try assumption.
      intros g Hg. apply Hidf. apply in_or_app. now left.
    + apply IH. exact Hidf.
Qed.

Lemma real_score_is_score_sum (table : dict NGramData)
    (max_freq n len_threshold : Z) (lexp rexp : R) (s : string) :
  score_formula (ops := RealOps) table max_freq n len_threshold lexp rexp s
  = (score_sum table max_freq len_threshold lexp rexp (ngrams s n)
     / IZR (1 + Z.of_nat (List.length (ngrams s n))))%R.
Proof. reflexivity. Qed.

(** ** Repetition and the score *)

Lemma real_scorer_axyz :
  score_function (ops := RealOps) table8 8 1 25 1%R 1%R "axyz"
  = Ok (63 / 80)%R.
Proof.
  rewrite real_score_function_score_formula.
  - f_equal. unfold score_formula.
    change (ngrams "axyz" 1) with ["a"; "x"; "y"; "z"].
    change (distinct ["a"; "x"; "y"; "z"]) with ["a"; "x"; "y"; "z"].
    cbn [fold_left List.length]. unfold contribution, length_penalty_formula.
    change (idf_of table8 "a") with (IdfLog2 8 4).
    change (idf_of table8 "x") with (IdfInt 2).
    change (idf_of table8 "y") with (IdfInt 2).
    change (idf_of table8 "z") with (IdfInt 2).
    change (occurrence_count "a" ["a"; "x"; "y"; "z"]) with 1.
    change (occurrence_count "x" ["a"; "x"; "y"; "z"]) with 1.
    change (occurrence_count "y" ["a"; "x"; "y"; "z"]) with 1.
    change (occurrence_count "z" ["a"; "x"; "y"; "z"]) with 1.
    change (Z.of_nat 4) with 4. change (4 <=? 25) with true.
    change (1 + 4) with 5.
    cbn [fadd fmul fdiv fpow of_int of_idf half RealOps idf_real].
    replace (8 / 4)%R with 2%R by lra.
    rewrite log2R_2, Rpower_1 by lra. lra.
  - lra.
  - intros g Hg.
    change (ngrams "axyz" 1) with ["a"; "x"; "y"; "z"] in Hg.
    destruct Hg as [<-|[<-|[<-|[<-|[]]]]]; discriminate.
  - discriminate.
Qed.

Lemma real_scorer_axyza :
  score_function (ops := RealOps) table8 8 1 25 1%R 1%R "axyza"
  = Ok (37 / 48)%R.
Proof.
  rewrite real_score_function_score_formula.
  - f_equal. unfold score_formula.
    change (ngrams "axyza" 1) with ["a"; "x"; "y"; "z"; "a"].
    change (distinct ["a"; "x"; "y"; "z"; "a"]) with ["a"; "x"; "y"; "z"].
    cbn [fold_left List.length]. unfold contribution, length_penalty_formula.
    change (idf_of table8 "a") with (IdfLog2 8 4).
    change (idf_of table8 "x") with (IdfInt 2).
    change (idf_of table8 "y") with (IdfInt 2).
    change (idf_of table8 "z") with (IdfInt 2).
    change (occurrence_count "a" ["a"; "x"; "y"; "z"; "a"]) with 2.
    change (occurrence_count "x" ["a"; "x"; "y"; "z"; "a"]) with 1.
    change (occurrence_count "y" ["a"; "x"; "y"; "z"; "a"]) with 1.
    change (occurrence_count "z" ["a"; "x"; "y"; "z"; "a"]) with 1.
    change (Z.of_nat 5) with 5. change (5 <=? 25) with true.
    change (1 + 5) with 6.
    cbn [fadd fmul fdiv fpow of_int of_idf half RealOps idf_real].
    replace (8 / 4)%R with 2%R by lra.
    rewrite log2R_2, !Rpower_1 by lra. lra.
  - lra.
  - intros g Hg.
    change (ngrams "axyza" 1) with ["a"; "x"; "y"; "z"; "a"] in Hg.
    destruct Hg as [<-|[<-|[<-|[<-|[<-|[]]]]]]; discriminate.
  - discriminate.
Qed.

(** C8, as stated, fails.  The table is that of [corpus8] for n = 1, in
    which a has idf log2(8/4) = 1 and the letters x, y, z, never
    observed, have idf 2; the scorer has the length threshold 25 and both
    exponents 1.  In axyz every n-gram occurs once, so that a attains the
    maximal count; appending one more a lowers the score from 63/80 to
    37/48. *)
Lemma appending_repeat_lowers_score :
  ngram_values 5 corpus8 1 true = Ok table8
  /\ tfidf_score_function (ops := RealOps) table8 25 1%R 1%R
     = Ok (score_function table8 8 1 25 1%R 1%R)
  /\ occurrence_count "a" (ngrams "axyz" 1) = 1
  /\ (forall g, occurrence_count g (ngrams "axyz" 1) <= 1)
  /\ exists before after : R,
       score_function (ops := RealOps) table8 8 1 25 1%R 1%R "axyz"
       = Ok before
       /\ score_function (ops := RealOps) table8 8 1 25 1%R 1%R
            ("axyz" ++ "a")%string = Ok after
       /\ (after < before)%R.
Proof.
  split; [reflexivity|]. split; [reflexivity|]. split; [reflexivity|].
  split.
  - intros g. change (ngrams "axyz" 1) with ["a"; "x"; "y"; "z"].
    unfold occurrence_count. cbn [count_occ].
    repeat destruct (string_dec _ g); subst; try discriminate; simpl; lia.
  - exists (63 / 80)%R, (37 / 48)%R.
    split; [exact real_scorer_axyz|]. split; [exact real_scorer_axyza|]. lra.
Qed.

(** C8 (as amended). In real arithmetic, for a table and a scorer with a
    positive maximal total frequency and a repetition exponent that is
    not negative: the repetition penalty c^rexp is non-decreasing in the
    count c >= 1; the term idf * c^rexp * (0.5 + 0.5 * c / max_freq) of
    an n-gram whose idf is not negative is non-decreasing in c; and, for
    n >= 1 and a positive length exponent, appending characters to a
    string (extra repeats of an n-gram among them) never lowers the sum
    of the scorer before its division by 1 + m, that is the score times
    1 + m, when the n-grams of the longer string have idf values that are
    not negative. *)
Theorem repetition_never_lowers_score_sum (table : dict NGramData)
    (max_freq : Z) (rexp : R) :
  0 < max_freq ->
  (0 <= rexp)%R ->
  (forall c1 c2 : Z,
     1 <= c1 <= c2 ->
     exists p1 p2 : R,
       math_pow (ops := RealOps) c1 rexp = Ok p1
       /\ math_pow (ops := RealOps) c2 rexp = Ok p2
       /\ (p1 <= p2)%R)
  /\ (forall (g : string) (d : NGramData) (c1 c2 : Z),
        dict_get table g = Some d ->
        (0 <= idf_real (idf d))%R ->
        1 <= c1 <= c2 ->
        exists t1 t2 : R,
          score_term (ops := RealOps) table max_freq rexp g c1 = Ok t1
          /\ score_term (ops := RealOps) table max_freq rexp g c2 = Ok t2
          /\ (t1 <= t2)%R)
  /\ (forall (n len_threshold : Z) (lexp : R) (s suffix : string),
        1 <= n ->
        (0 < lexp)%R ->
        (forall g, In g (ngrams (s ++ suffix)%string n) ->
           exists d, dict_get table g = Some d /\ (0 <= idf_real (idf d))%R) ->
        exists before after : R,
          score_function (ops := RealOps) table max_freq n len_threshold
            lexp rexp s = Ok before
          /\ score_function (ops := RealOps) table max_freq n len_threshold
               lexp rexp (s ++ suffix)%string = Ok after
          /\ (before * IZR (1 + Z.of_nat (List.length (ngrams s n)))
              <= after
                 * IZR (1 + Z.of_nat
                              (List.length (ngrams (s ++ suffix)%string n))))%R).
Proof.
  intros Hmf Hrexp. split; [|split].
  - intros c1 c2 [Hc1 Hc2].
    exists (Rpower (IZR c1) rexp), (Rpower (IZR c2) rexp).
    rewrite !(math_pow_nonzero (ops := RealOps))
      by (try lia; apply real_pow_in_range).
    repeat split.
    apply Rle_Rpower_l; [exact Hrexp|].
    split; [apply IZR_lt; lia|apply IZR_le; lia].
  - intros g d c1 c2 Hg Hidf Hc.
    assert (Hd : dict_get table g <> None) by congruence.
    rewrite !real_score_term_defined by (try exact Hd; lia).
    do 2 eexists. split; [reflexivity|]. split; [reflexivity|].
    apply contribution_monotone; try assumption.
    unfold idf_of. now rewrite Hg.
  - intros n len_threshold lexp s suffix Hn Hlexp Htable.
    destruct (ngrams_append s suffix n Hn) as (more & Hmore).
    assert (Hkeys : forall g, In g (ngrams (s ++ suffix)%string n) ->
              dict_get table g <> None).
    { intros g Hg. destruct (Htable g Hg) as (d & Hd & _). congruence. }
    assert (Hidf : forall g, In g (ngrams s n ++ more) ->
              (0 <= idf_real (idf_of table g))%R).
    { intros g Hg. rewrite <- Hmore in Hg.
      destruct (Htable g Hg) as (d & Hd & Hpos). unfold idf_of.
      now rewrite Hd. }
    rewrite !real_score_function_score_formula; try assumption; try lia.
    + do 2 eexists. split; [reflexivity|]. split; [reflexivity|].
      rewrite !real_score_is_score_sum.
      assert (Hpos : forall l : list string,
                (0 < IZR (1 + Z.of_nat (List.length l)))%R)
        by (intros l; apply IZR_lt; lia).
      pose proof (Hpos (ngrams s n)) as H1.
      pose proof (Hpos (ngrams (s ++ suffix)%string n)) as H2.
      unfold Rdiv. rewrite !Rmult_assoc, !Rinv_l, !Rmult_1_r by lra.
      rewrite Hmore. apply score_sum_append; try assumption; lra.
    + intros g Hg. apply Hkeys. rewrite Hmore. apply in_or_app. now left.
Qed.

Lemma repetition_never_lowers_score_sum_witness :
  (exists p1 p2 : R,
     math_pow (ops := RealOps) 1 1%R = Ok p1
     /\ math_pow (ops := RealOps) 2 1%R = Ok p2
     /\ (p1 <= p2)%R)
  /\ (exists t1 t2 : R,
        score_term (ops := RealOps) table8 8 1%R "a" 1 = Ok t1
        /\ score_term (ops := RealOps) table8 8 1%R "a" 2 = Ok t2
        /\ (t1 <= t2)%R)
  /\ (exists before after : R,
        score_function (ops := RealOps) table8 8 1 25 1%R 1%R "axyz"
        = Ok before
        /\ score_function (ops := RealOps) table8 8 1 25 1%R 1%R
             ("axyz" ++ "a")%string = Ok after
        /\ (before * 5 <= after * 6)%R).
Proof.
  destruct (repetition_never_lowers_score_sum table8 8 1%R
              ltac:(lia) ltac:(lra)) as (Hpenalty & Hterm & Hsum).
  split; [apply (Hpenalty 1 2); lia|]. split.
  - apply (Hterm "a" (mkNGramData 3 8 (IdfLog2 8 4)) 1 2); [reflexivity| |lia].
    cbn [idf idf_real]. replace (8 / 4)%R with 2%R by lra.
    rewrite log2R_2. lra.
  - apply (Hsum 1 25 1%R "axyz" "a"); [lia|lra|].
    intros g [<-|[<-|[<-|[<-|[<-|[]]]]]]; eexists; (split; [reflexivity|]);
      cbn [idf idf_real]; try lra.
    + replace (8 / 4)%R with 2%R by lra. rewrite log2R_2. lra.
    + replace (8 / 4)%R with 2%R by lra. rewrite log2R_2. lra.
Defined.

(* ================================================================== *)
(* ================================================================== *)
(** * Further properties of the code *)

(** ** What the counting pass counts *)

Lemma get_default_set {V : Type} (d : dict V) (k g : string) (v dflt : V) :
  get_default (dict_set d k v) g dflt
  = if String.eqb g k then v else get_default d g dflt.
Proof.
  unfold get_default. destruct (String.eqb g k) eqn:E.
  - apply String.eqb_eq in E. subst. now rewrite dict_get_set_eq.
  - apply String.eqb_neq in E. rewrite dict_get_set_ne; [reflexivity|].
    congruence.
Qed.

Lemma mem_string_set_add (x : string) (l : list string) :
  mem_string x (set_add x l) = true.
Proof. apply mem_string_In. apply In_set_add. now right. Qed.

Lemma set_add_idempotent (x : string) (l : list string) :
  set_add x (set_add x l) = set_add x l.
Proof. unfold set_add at 1. now rewrite mem_string_set_add. Qed.

Lemma occurrence_count_cons (g x : string) (l : list string) :
  occurrence_count g (x :: l)
  = (if String.eqb g x then 1 else 0) + occurrence_count g l.
Proof.
  unfold occurrence_count. simpl.
  destruct (string_dec x g) as [->|Hne].
  - rewrite String.eqb_refl. lia.
  - destruct (String.eqb g x) eqn:E; [|lia].
    apply String.eqb_eq in E. congruence.
Qed.

Lemma occurrence_count_nonnegative (g : string) (l : list string) :
  0 <= occurrence_count g l.
Proof. unfold occurrence_count. lia. Qed.

Lemma occurrence_count_zero (g : string) (l : list string) :
  occurrence_count g l = 0 <-> mem_string g l = false.
Proof.
  rewrite mem_string_not_In. unfold occurrence_count.
  rewrite (count_occ_not_In string_dec). lia.
Qed.

Lemma count_string_fst (n : Z) (st : dict Z * dict (list string) * Z)
    (s : string) :
  fst (count_string n st s)
  = fold_left (count_ngram (PyStr.lower s)) (ngrams (PyStr.lower s) n) (fst st).
Proof.
  destruct st as [[counts occurrences] num]. unfold count_string.
  cbn [fst]. now destruct (fold_left _ _ _).
Qed.

Lemma fold_count_ngram_counts (lowered : string) (l : list string)
    (st : dict Z * dict (list string)) (g : string) :
  get_default (fst (fold_left (count_ngram lowered) l st)) g 0
  = get_default (fst st) g 0 + occurrence_count g l.
Proof.
  revert st. induction l as [|x l IH]; intros st; cbn [fold_left].
  - unfold occurrence_count. simpl. lia.
  - rewrite IH, occurrence_count_cons. destruct st as [counts occurrences].
    unfold count_ngram. cbn [fst]. rewrite get_default_set.
    destruct (String.eqb g x) eqn:E; [|lia].
    apply String.eqb_eq in E. subst. lia.
Qed.

Lemma fold_count_ngram_occurrences (lowered : string) (l : list string)
    (st : dict Z * dict (list string)) (g : string) :
  get_default (snd (fold_left (count_ngram lowered) l st)) g []
  = if mem_string g l then set_add lowered (get_default (snd st) g [])
    else get_default (snd st) g [].
Proof.
  revert st. induction l as [|x l IH]; intros st; cbn [fold_left mem_string].
  - reflexivity.
  - rewrite IH. destruct st as [counts occurrences].
    unfold count_ngram. cbn [snd]. rewrite get_default_set.
    destruct (String.eqb g x) eqn:E; cbn [orb].
    + apply String.eqb_eq in E. subst.
      destruct (mem_string x l); [apply set_add_idempotent|reflexivity].
    + reflexivity.
Qed.

Lemma fold_count_string_counts (n : Z) (string_list : list string)
    (st : dict Z * dict (list string) * Z) (g : string) :
  get_default (fst (fst (fold_left (count_string n) string_list st))) g 0
  = get_default (fst (fst st)) g 0 + corpus_occurrences g string_list n.
Proof.
  revert st. induction string_list as [|s l IH]; intros st;
    cbn [fold_left corpus_occurrences]; [lia|].
  rewrite IH, count_string_fst, fold_count_ngram_counts. lia.
Qed.

Lemma fold_count_string_occurrences (n : Z) (string_list : list string)
    (st : dict Z * dict (list string) * Z) (g : string) :
  get_default (snd (fst (fold_left (count_string n) string_list st))) g []
  = fold_left (fun seen x => set_add x seen) (strings_with g string_list n)
      (get_default (snd (fst st)) g []).
Proof.
  revert st. induction string_list as [|s l IH]; intros st;
    cbn [fold_left]; [reflexivity|].
  rewrite IH, count_string_fst, fold_count_ngram_occurrences.
  unfold strings_with. cbn [map filter].
  destruct (mem_string g (ngrams (PyStr.lower s) n)); reflexivity.
Qed.

Lemma corpus_occurrences_nonnegative (g : string) (string_list : list string)
    (n : Z) :
  0 <= corpus_occurrences g string_list n.
Proof.
  induction string_list as [|s l IH]; cbn [corpus_occurrences]; [lia|].
  pose proof (occurrence_count_nonnegative g (ngrams (PyStr.lower s) n)). lia.
Qed.

Lemma count_pass_counts_default (string_list : list string) (n : Z)
    (g : string) :
  get_default (fst (fst (count_pass string_list n))) g 0
  = corpus_occurrences g string_list n.
Proof.
  pose proof (fold_count_string_counts n string_list ([], [], 0) g) as Hc.
  fold (count_pass string_list n) in Hc. cbn [fst snd] in Hc.
  change (get_default [] g 0) with 0 in Hc. lia.
Qed.

Lemma count_pass_occurrences_default (string_list : list string) (n : Z)
    (g : string) :
  get_default (snd (fst (count_pass string_list n))) g []
  = distinct (strings_with g string_list n).
Proof.
  pose proof (fold_count_string_occurrences n string_list ([], [], 0) g) as Ho.
  fold (count_pass string_list n) in Ho. exact Ho.
Qed.

(** An n-gram is a key of the two dictionaries exactly when it occurs in
    the corpus. *)
Lemma count_pass_key_iff (string_list : list string) (n : Z) (g : string) :
  (dict_get (fst (fst (count_pass string_list n))) g = None
   <-> corpus_occurrences g string_list n = 0)
  /\ (dict_get (snd (fst (count_pass string_list n))) g = None
      <-> corpus_occurrences g string_list n = 0).
Proof.
  pose proof (count_pass_counts_default string_list n g) as Hc.
  destruct (count_pass_invariant string_list n) as (Hkeys & _ & Hpos).
  assert (H1 : dict_get (fst (fst (count_pass string_list n))) g = None
               <-> corpus_occurrences g string_list n = 0).
  { unfold get_default in Hc.
    destruct (dict_get (fst (fst (count_pass string_list n))) g) as [c|] eqn:E.
    - apply dict_get_In in E. rewrite Forall_forall in Hpos.
      specialize (Hpos _ E). cbn [snd] in Hpos. split; [discriminate|lia].
    - split; [lia|reflexivity]. }
  split; [exact H1|]. rewrite <- H1, !dict_get_None. now rewrite Hkeys.
Qed.

(** X1. After the counting pass, [counts] maps an n-gram to the number
    of its occurrences in the lower-cased corpus, repeats within one
    string included, and [occurrences] maps it to the distinct
    lower-cased strings that hold it, in the order of the corpus; an
    n-gram that occurs nowhere is a key of neither dictionary, and
    [num_strings] is the length of the corpus. *)
Theorem counting_pass_counts (string_list : list string) (n : Z) (g : string) :
  let counts := fst (fst (count_pass string_list n)) in
  let occurrences := snd (fst (count_pass string_list n)) in
  dict_get counts g
  = (if corpus_occurrences g string_list n =? 0 then None
     else Some (corpus_occurrences g string_list n))
  /\ dict_get occurrences g
     = (if corpus_occurrences g string_list n =? 0 then None
        else Some (distinct (strings_with g string_list n)))
  /\ snd (count_pass string_list n) = Z.of_nat (List.length string_list).
Proof.
  cbv zeta.
  pose proof (count_pass_counts_default string_list n g) as Hc.
  pose proof (count_pass_occurrences_default string_list n g) as Ho.
  destruct (count_pass_key_iff string_list n g) as [Hkc Hko].
  unfold get_default in Hc, Ho.
  split; [|split; [|apply count_pass_num]].
  - destruct (dict_get (fst (fst (count_pass string_list n))) g) as [c|] eqn:E.
    + destruct (corpus_occurrences g string_list n =? 0) eqn:E0.
      * apply Z.eqb_eq in E0. apply Hkc in E0. discriminate.
      * now rewrite Hc.
    + now rewrite (proj1 Hkc eq_refl).
  - destruct (dict_get (snd (fst (count_pass string_list n))) g) as [l|] eqn:E.
    + destruct (corpus_occurrences g string_list n =? 0) eqn:E0.
      * apply Z.eqb_eq in E0. apply Hko in E0. discriminate.
      * now rewrite Ho.
    + now rewrite (proj1 Hko eq_refl).
Qed.

(** ** The entries of the table *)

Lemma NoDup_keys_set {V : Type} (d : dict V) (k : string) (v : V) :
  NoDup (dict_keys d) -> NoDup (dict_keys (dict_set d k v)).
Proof.
  intros Hnd. rewrite dict_keys_set.
  destruct (mem_string k (dict_keys d)) eqn:E; [exact Hnd|].
  apply mem_string_not_In in E. apply NoDup_app; [exact Hnd| |].
  - constructor; [tauto|constructor].
  - intros a Ha [<-|[]]. contradiction.
Qed.

Lemma count_pass_NoDup (string_list : list string) (n : Z) :
  NoDup (dict_keys (snd (fst (count_pass string_list n)))).
Proof.
  unfold count_pass.
  apply (fold_left_invariant (count_string n)
           (fun st => NoDup (dict_keys (snd (fst st))))).
  - constructor.
  - intros st s Hst _. rewrite count_string_fst.
    apply (fold_left_invariant (count_ngram (PyStr.lower s))
             (fun st => NoDup (dict_keys (snd st)))); [exact Hst|].
    intros [counts occurrences] x Ha _. unfold count_ngram. cbn [snd] in *.
    now apply NoDup_keys_set.
Qed.

Lemma dict_get_fromkeys {V : Type} (keys : list string) (v : V) (g : string) :
  dict_get (fromkeys keys v) g = if mem_string g keys then Some v else None.
Proof.
  unfold fromkeys.
  assert (H : forall d,
            dict_get (fold_left (fun d k => dict_set d k v) keys d) g
            = if mem_string g keys then Some v else dict_get d g).
  { induction keys as [|k keys IH]; intros d; cbn [fold_left mem_string];
      [reflexivity|].
    rewrite IH. destruct (String.eqb g k) eqn:E; cbn [orb].
    - apply String.eqb_eq in E. subst. rewrite dict_get_set_eq.
      now destruct (mem_string k keys).
    - apply String.eqb_neq in E.
      rewrite dict_get_set_ne by congruence. reflexivity. }
  apply H.
Qed.

Lemma dict_get_not_key {V : Type} (d : dict V) (k : string) :
  ~ In k (dict_keys d) -> dict_get d k = None.
Proof. apply dict_get_None. Qed.

(** The scoring pass writes, for each observed n-gram, the entry of its
    two frequencies and its idf, and leaves the other entries as they
    are. *)
Lemma score_pass_lookup (counts : dict Z) (N mf : Z)
    (occurrences : dict (list string)) (t t' : dict NGramData) (g : string) :
  NoDup (dict_keys occurrences) ->
  fold_left (score_ngram counts N mf) occurrences (Ok t) = Ok t' ->
  dict_get t' g
  = match dict_get occurrences g with
    | Some l =>
        Some (mkNGramData (Z.of_nat (List.length l)) (get_default counts g 0)
                (IdfLog2 N (1 + Z.of_nat (List.length l))))
    | None => dict_get t g
    end.
Proof.
  revert t. induction occurrences as [|[k l] occ IH]; intros t Hnd Hfold.
  - simpl in Hfold. injection Hfold as <-. reflexivity.
  - cbn [fold_left] in Hfold. unfold score_ngram at 2 in Hfold.
    cbn [bind] in Hfold.
    destruct (ngram_idf_value N (Z.of_nat (List.length l))
                (get_default counts k 0) mf) as [v|e] eqn:E; cbn [bind] in Hfold.
    + apply ngram_idf_value_Ok in E; [|lia]. destruct E as [_ ->].
      cbn [dict_keys map fst] in Hnd. inversion Hnd as [|? ? Hk Hnd']; subst.
      rewrite (IH _ Hnd' Hfold). cbn [dict_get].
      destruct (String.eqb g k) eqn:Eg.
      * apply String.eqb_eq in Eg. subst.
        rewrite (dict_get_not_key occ k Hk). now rewrite dict_get_set_eq.
      * apply String.eqb_neq in Eg.
        destruct (dict_get occ g); [reflexivity|].
        apply dict_get_set_ne. congruence.
    + exfalso. clear -Hfold.
      induction occ as [|x occ IH]; simpl in Hfold; [discriminate|auto].
Qed.

Lemma length_fold_set_add (l acc : list string) :
  (List.length (fold_left (fun seen x => set_add x seen) l acc)
   <= List.length acc + List.length l)%nat.
Proof.
  revert acc. induction l as [|x l IH]; intros acc; cbn [fold_left List.length];
    [lia|].
  specialize (IH (set_add x acc)). unfold set_add in *.
  destruct (mem_string x acc); [lia|].
  rewrite length_app in IH. simpl in IH. lia.
Qed.

Lemma length_distinct (l : list string) :
  (List.length (distinct l) <= List.length l)%nat.
Proof. apply (length_fold_set_add l []). Qed.

Lemma length_strings_with (g : string) (string_list : list string) (n : Z) :
  Z.of_nat (List.length (strings_with g string_list n))
  <= corpus_occurrences g string_list n
  /\ (List.length (strings_with g string_list n)
      <= List.length string_list)%nat.
Proof.
  unfold strings_with.
  induction string_list as [|s l [IH1 IH2]];
    cbn [map filter corpus_occurrences List.length]; [split; lia|].
  destruct (mem_string g (ngrams (PyStr.lower s) n)) eqn:E.
  - apply mem_string_In in E. apply occurrence_count_positive in E.
    cbn [List.length]. split; lia.
  - pose proof (occurrence_count_nonnegative g (ngrams (PyStr.lower s) n)).
    split; lia.
Qed.

(** The table before and after the zero-score pass, entry by entry. *)
Lemma built_table_lookup (limit : nat) (string_list : list string) (n : Z)
    (t : dict NGramData) :
  ngram_values limit string_list n true = Ok t ->
  exists possible t0 highest,
    all_possible_ngrams limit n = Ok possible
    /\ ngram_values limit string_list n false = Ok t0
    /\ highest_idf t0 = Ok highest
    /\ forall g,
         let tf := corpus_occurrences g string_list n in
         let sf := Z.of_nat (List.length (distinct (strings_with g string_list n))) in
         let N := Z.of_nat (List.length string_list) in
         dict_get t0 g
         = (if tf =? 0
            then if mem_string g possible then Some initial_entry else None
            else Some (mkNGramData sf tf (IdfLog2 N (1 + sf))))
         /\ dict_get t g
            = option_map (fun v => snd (readjust (py_ceil highest) (g, v)))
                (dict_get t0 g).
Proof.
  intros H. pose proof (ngram_values_Ok _ _ _ _ _ H) as Hsteps.
  destruct Hsteps as (possible & mf & t0 & Hposs & _ & Hfold & Hfalse
                      & hi & Hhi & ->).
  exists possible, t0, hi. repeat (split; [assumption|]).
  intros g. cbv zeta. split; [|apply dict_get_readjust].
  rewrite (score_pass_lookup _ _ _ _ _ _ g (count_pass_NoDup string_list n) Hfold).
  pose proof (count_pass_occurrences_default string_list n g) as Ho.
  pose proof (count_pass_counts_default string_list n g) as Hc.
  destruct (count_pass_key_iff string_list n g) as [_ Hko].
  rewrite count_pass_num.
  unfold get_default in Ho.
  destruct (dict_get (snd (fst (count_pass string_list n))) g) as [l|] eqn:E.
  - destruct (corpus_occurrences g string_list n =? 0) eqn:E0.
    + apply Z.eqb_eq in E0. apply Hko in E0. discriminate.
    + now rewrite Hc, Ho.
  - rewrite (proj1 Hko eq_refl). cbn [Z.eqb]. apply dict_get_fromkeys.
Qed.

(** X2. The table that [ngram_values] returns, entry by entry.  An
    n-gram that occurs nowhere in the lower-cased corpus has the entry
    (0, 0, max_idf) when it is one of the possible n-grams and no entry
    otherwise.  An n-gram that occurs has its [string_frequency], the
    number of distinct lower-cased strings that hold it, its
    [total_frequency], the number of its occurrences, and the idf
    [log(N/(1 + string_frequency), 2)], N being the length of the corpus,
    unless N = 1 + string_frequency: that idf is 0, and the zero-score
    pass replaces the entry by (0, 0, max_idf). *)
Theorem built_table_entry (limit : nat) (string_list : list string) (n : Z)
    (t : dict NGramData) :
  ngram_values limit string_list n true = Ok t ->
  exists possible max_idf,
    all_possible_ngrams limit n = Ok possible
    /\ forall g,
         let tf := corpus_occurrences g string_list n in
         let sf := Z.of_nat (List.length (distinct (strings_with g string_list n))) in
         let N := Z.of_nat (List.length string_list) in
         dict_get t g
         = if tf =? 0 then
             if mem_string g possible
             then Some (mkNGramData 0 0 (IdfInt max_idf)) else None
           else if N =? 1 + sf then Some (mkNGramData 0 0 (IdfInt max_idf))
           else Some (mkNGramData sf tf (IdfLog2 N (1 + sf))).
Proof.
  intros H. destruct (built_table_lookup _ _ _ _ H)
    as (possible & t0 & highest & Hposs & _ & _ & Hlookup).
  exists possible, (py_ceil highest). split; [exact Hposs|].
  intros g. cbv zeta. destruct (Hlookup g) as [H0 Ht]. rewrite Ht, H0.
  destruct (corpus_occurrences g string_list n =? 0).
  - destruct (mem_string g possible); reflexivity.
  - cbn [option_map readjust idf idf_is_zero].
    destruct (Z.of_nat (List.length string_list)
              =? 1 + Z.of_nat (List.length (distinct (strings_with g string_list n))));
      reflexivity.
Qed.

Lemma built_table_entry_witness :
  exists possible max_idf,
    all_possible_ngrams 5 1 = Ok possible
    /\ forall g,
         let tf := corpus_occurrences g corpus8 1 in
         let sf := Z.of_nat (List.length (distinct (strings_with g corpus8 1))) in
         let N := Z.of_nat (List.length corpus8) in
         dict_get table8 g
         = if tf =? 0 then
             if mem_string g possible
             then Some (mkNGramData 0 0 (IdfInt max_idf)) else None
           else if N =? 1 + sf then Some (mkNGramData 0 0 (IdfInt max_idf))
           else Some (mkNGramData sf tf (IdfLog2 N (1 + sf))).
Proof. exact (built_table_entry 5 corpus8 1 table8 eq_refl). Defined.

(** X3. In a table that [ngram_values] returns, every entry has
    0 <= string_frequency <= total_frequency, a [string_frequency] that
    does not exceed the number of corpus strings, and a
    [string_frequency] that is 0 exactly when the [total_frequency]
    is. *)
Theorem built_table_frequencies (limit : nat) (string_list : list string)
    (n : Z) (t : dict NGramData) (g : string) (d : NGramData) :
  ngram_values limit string_list n true = Ok t ->
  dict_get t g = Some d ->
  0 <= string_frequency d <= total_frequency d
    /\ string_frequency d <= Z.of_nat (List.length string_list)
    /\ (string_frequency d = 0 <-> total_frequency d = 0).
Proof.
  intros H Hd. destruct (built_table_lookup _ _ _ _ H)
    as (possible & t0 & highest & _ & Hfalse & _ & Hlookup).
  destruct (Hlookup g) as [H0 Ht]. rewrite Ht in Hd.
  destruct (dict_get t0 g) as [v|] eqn:Ev; [|discriminate].
  cbn [option_map readjust] in Hd.
  destruct (idf_is_zero (idf v)); cbn [snd] in Hd; injection Hd as <-.
  - cbn [string_frequency total_frequency]. lia.
  - pose proof (scored_table_entries _ _ _ _ Hfalse) as Hall.
    rewrite Forall_forall in Hall.
    specialize (Hall _ (dict_get_In _ _ _ Ev)). cbn [snd] in Hall.
    rewrite count_pass_num in Hall.
    destruct (corpus_occurrences g string_list n =? 0) eqn:E0.
    + destruct (mem_string g possible); [|discriminate].
      injection H0 as ->. cbn [initial_entry string_frequency total_frequency].
      lia.
    + apply Z.eqb_neq in E0.
      assert (Hv : v = mkNGramData
                (Z.of_nat (List.length (distinct (strings_with g string_list n))))
                (corpus_occurrences g string_list n)
                (IdfLog2 (Z.of_nat (List.length string_list))
                   (1 + Z.of_nat (List.length
                                    (distinct (strings_with g string_list n))))))
        by congruence.
      subst v. destruct Hall as [Hinit | (Hsf & _)].
      * apply (f_equal total_frequency) in Hinit.
        cbn [total_frequency initial_entry] in Hinit. lia.
      * cbn [string_frequency total_frequency] in *.
        pose proof (length_distinct (strings_with g string_list n)).
        pose proof (length_strings_with g string_list n) as [Hle _]. lia.
Qed.

Lemma built_table_frequencies_witness :
  let d := mkNGramData 3 8 (IdfLog2 8 4) in
  0 <= string_frequency d <= total_frequency d
  /\ string_frequency d <= Z.of_nat (List.length corpus8)
  /\ (string_frequency d = 0 <-> total_frequency d = 0).
Proof.
  exact (built_table_frequencies 5 corpus8 1 table8 "a"
           (mkNGramData 3 8 (IdfLog2 8 4)) eq_refl eq_refl).
Defined.

(** X4. In a table that [ngram_values] returns, an n-gram whose
    [string_frequency] is 0 has an idf that is an integer and that no idf
    of the table exceeds: a never observed n-gram is at least as rare as
    every other n-gram. *)
Theorem zero_frequency_idf_is_highest (limit : nat)
    (string_list : list string) (n : Z) (t : dict NGramData)
    (g g' : string) (d d' : NGramData) :
  ngram_values limit string_list n true = Ok t ->
  dict_get t g = Some d -> string_frequency d = 0 ->
  dict_get t g' = Some d' ->
  (exists z, idf d = IdfInt z)
  /\ (idf_real (idf d') <= idf_real (idf d))%R.
Proof.
  intros H Hd Hsf Hd'. pose proof (ngram_values_Ok _ _ _ _ _ H) as Hsteps.
  destruct Hsteps as (possible & mf & t0 & _ & _ & _ & Hfalse & hi & Hhi & ->).
  pose proof (scored_table_entries _ _ _ _ Hfalse) as Hall.
  assert (Hfin : Forall (fun kv => idf_finite (idf (snd kv))) t0).
  { eapply Forall_impl; [|exact Hall]. intros kv. apply scored_entry_finite. }
  destruct (highest_idf_real t0 hi Hfin Hhi) as [(g1 & v1 & Hin1 & Hv1) Hmax].
  assert (Hhifin : idf_finite hi).
  { rewrite <- Hv1. rewrite Forall_forall in Hfin. exact (Hfin _ Hin1). }
  destruct (py_ceil_real hi Hhifin) as [_ Hceil].
  assert (Hidf : idf d = IdfInt (py_ceil hi)).
  { rewrite dict_get_readjust in Hd.
    destruct (dict_get t0 g) as [v|] eqn:Ev; [|discriminate].
    cbn [option_map readjust] in Hd.
    destruct (idf_is_zero (idf v)) eqn:Ez; cbn [snd] in Hd;
      injection Hd as <-; [reflexivity|].
    rewrite Forall_forall in Hall.
    specialize (Hall _ (dict_get_In _ _ _ Ev)). cbn [snd] in Hall.
    destruct Hall as [-> | (Hge & _)]; [discriminate|lia]. }
  split; [now exists (py_ceil hi)|].
  rewrite Hidf. cbn [idf_real].
  rewrite dict_get_readjust in Hd'.
  destruct (dict_get t0 g') as [v'|] eqn:Ev'; [|discriminate].
  cbn [option_map readjust] in Hd'.
  destruct (idf_is_zero (idf v')); cbn [snd] in Hd'; injection Hd' as <-.
  - cbn [idf idf_real]. lra.
  - pose proof (Hmax _ _ (dict_get_In _ _ _ Ev')). lra.
Qed.

Lemma zero_frequency_idf_is_highest_witness :
  (exists z, idf (mkNGramData 0 0 (IdfInt 2)) = IdfInt z)
  /\ (idf_real (idf (mkNGramData 1 1 (IdfLog2 8 2)))
      <= idf_real (idf (mkNGramData 0 0 (IdfInt 2))))%R.
Proof.
  exact (zero_frequency_idf_is_highest 5 corpus8 1 table8 "x" "b"
           (mkNGramData 0 0 (IdfInt 2)) (mkNGramData 1 1 (IdfLog2 8 2))
           eq_refl eq_refl eq_refl eq_refl).
Defined.

(** X5. The flag [readjust_zero_scores] changes neither whether
    [ngram_values] raises, nor the exception, nor the keys of the table:
    with the flag set, the table is the table without the flag in which
    the entries whose idf is 0, and only they, are replaced. *)
Theorem readjust_flag_effect (limit : nat) (string_list : list string)
    (n : Z) :
  (forall e, ngram_values limit string_list n false = Raise e ->
             ngram_values limit string_list n true = Raise e)
  /\ (forall t0, ngram_values limit string_list n false = Ok t0 ->
        exists t,
          ngram_values limit string_list n true = Ok t
          /\ dict_keys t = dict_keys t0
          /\ forall g v,
               dict_get t0 g = Some v ->
               if idf_is_zero (idf v)
               then exists max_idf,
                      dict_get t g = Some (mkNGramData 0 0 (IdfInt max_idf))
               else dict_get t g = Some v).
Proof.
  unfold ngram_values.
  destruct (count_pass string_list n) as [[counts occurrences] num] eqn:Ecp.
  destruct (all_possible_ngrams limit n) as [possible|e0]; cbn [bind];
    [|split; [auto|discriminate]].
  destruct (py_max Z.gtb (dict_values counts)) as [mf|e0] eqn:Emax; cbn [bind];
    [|split; [auto|discriminate]].
  destruct (fold_left (score_ngram counts num mf) occurrences
              (Ok (fromkeys possible initial_entry))) as [t0|e0] eqn:Efold;
    cbn [bind]; [|split; [auto|discriminate]].
  split; [discriminate|]. intros t0' [= <-].
  assert (Ht0 : map (fun kv => idf (snd kv)) t0 <> []).
  { apply py_max_Ok_nonempty in Emax.
    pose proof (count_pass_invariant string_list n) as (Hkeys & _).
    pose proof (count_pass_NoDup string_list n) as Hnd.
    rewrite Ecp in Hkeys, Hnd. cbn [fst snd] in Hkeys, Hnd.
    destruct occurrences as [|[k l] occ].
    - destruct counts; [now contradiction Emax|discriminate].
    - pose proof (score_pass_lookup _ _ _ _ _ _ k Hnd Efold) as Hk.
      cbn [dict_get] in Hk. rewrite String.eqb_refl in Hk.
      destruct t0; [discriminate|discriminate]. }
  destruct (py_max_nonempty idf_gtb _ Ht0) as (hi & Hhi).
  unfold highest_idf. rewrite Hhi. cbn [bind].
  exists (map (readjust (py_ceil hi)) t0). split; [reflexivity|].
  split; [apply dict_keys_readjust|].
  intros g v Hv. rewrite dict_get_readjust, Hv. cbn [option_map readjust].
  destruct (idf_is_zero (idf v)); [now exists (py_ceil hi)|reflexivity].
Qed.

(** X6. The outcome of [ngram_values] for a window length n >= 1.
    When the recursion limit does not allow n frames, it is the
    [RecursionError] of [all_possible_ngrams].  Otherwise the builder
    returns a table exactly when some string of the corpus has, once in
    lower case, n characters or more; on a corpus whose lower-cased
    strings are all shorter, and on the empty corpus, it raises the
    [ValueError] of [max], whose argument is empty. *)
Theorem ngram_values_outcome (limit : nat) (string_list : list string)
    (n : Z) (readjust_zero_scores : bool) :
  1 <= n ->
  if (Z.to_nat n <=? limit)%nat then
    if existsb (fun s => n <=? PyStr.len (PyStr.lower s)) string_list
    then exists t,
           ngram_values limit string_list n readjust_zero_scores = Ok t
    else ngram_values limit string_list n readjust_zero_scores
         = Raise (ValueError Max_arg_is_empty)
  else ngram_values limit string_list n readjust_zero_scores
       = Raise RecursionError.
Proof.
  intros Hn.
  assert (Hposs : all_possible_ngrams limit n
                  = if (Z.to_nat n <=? limit)%nat
                    then Ok (lowercase_ngrams (Z.to_nat n))
                    else Raise RecursionError).
  { replace n with (Z.of_nat (S (Nat.pred (Z.to_nat n)))) at 1 by lia.
    rewrite all_possible_ngrams_positive.
    now replace (S (Nat.pred (Z.to_nat n))) with (Z.to_nat n) by lia. }
  destruct (Z.to_nat n <=? limit)%nat.
  2:{ unfold ngram_values.
      destruct (count_pass string_list n) as [[counts occurrences] num].
      now rewrite Hposs. }
  destruct (existsb (fun s => n <=? PyStr.len (PyStr.lower s)) string_list)
    eqn:Ex.
  - apply existsb_exists in Ex. destruct Ex as (s & Hs & Hlen).
    apply Z.leb_le in Hlen.
    assert (Hcounts : dict_values (fst (fst (count_pass string_list n))) <> []).
    { assert (Hg : exists g, In g (ngrams (PyStr.lower s) n)).
      { pose proof (length_ngrams (PyStr.lower s) n) as Hl.
        unfold PyStr.len in *.
        destruct (ngrams (PyStr.lower s) n) as [|g l];
          [cbn [List.length] in Hl; lia|].
        exists g. now left. }
      destruct Hg as (g & Hg).
      assert (Hk : In g (dict_keys (fst (fst (count_pass string_list n)))))
        by (apply count_pass_keys; eauto).
      unfold dict_keys, dict_values in *.
      destruct (fst (fst (count_pass string_list n)));
        [contradiction|discriminate]. }
    pose proof (counts_nonempty_corpus _ _ Hcounts) as HN.
    destruct (py_max_nonempty Z.gtb _ Hcounts) as (mf & Hmf).
    destruct (score_pass_total (fst (fst (count_pass string_list n)))
                (snd (count_pass string_list n)) mf
                (snd (fst (count_pass string_list n)))
                (fromkeys (lowercase_ngrams (Z.to_nat n)) initial_entry) HN)
      as (t0 & Hfold & _ & Hlen0 & _ & _).
    assert (Ht0 : map (fun kv => idf (snd kv)) t0 <> []).
    { destruct t0 as [|kv t0]; [|discriminate]. exfalso.
      cbn [List.length] in Hlen0.
      assert (Hl : List.length
                     (dict_keys (fromkeys (lowercase_ngrams (Z.to_nat n))
                                   initial_entry)) = O)
        by (unfold dict_keys; rewrite length_map; lia).
      rewrite fromkeys_keys in Hl.
      - pose proof (length_lowercase_ngrams n Hn) as Hp. rewrite Hl in Hp.
        assert (0 < 26 ^ n) by (apply Z.pow_pos_nonneg; lia). lia.
      - destruct (Z.to_nat n) as [|k]; [constructor|].
        rewrite lowercase_ngrams_words. apply NoDup_words. }
    destruct (py_max_nonempty idf_gtb _ Ht0) as (hi & Hhi).
    unfold ngram_values.
    destruct (count_pass string_list n) as [[counts occurrences] num].
    cbn [fst snd] in Hmf, Hfold. rewrite Hposs. cbn [bind].
    rewrite Hmf. cbn [bind]. rewrite Hfold. cbn [bind].
    destruct readjust_zero_scores; [|now exists t0].
    unfold highest_idf. rewrite Hhi. cbn [bind]. eexists. reflexivity.
  - assert (Hcounts : fst (fst (count_pass string_list n)) = []).
    { destruct (fst (fst (count_pass string_list n))) as [|[k c] counts] eqn:E;
        [reflexivity|exfalso].
      assert (Hk : In k (dict_keys (fst (fst (count_pass string_list n)))))
        by (rewrite E; now left).
      apply count_pass_keys in Hk. destruct Hk as (s & Hs & Hk).
      assert (Hshort : (n <=? PyStr.len (PyStr.lower s)) = false).
      { destruct (n <=? PyStr.len (PyStr.lower s)) eqn:El; [|reflexivity].
        assert (existsb (fun s => n <=? PyStr.len (PyStr.lower s))
                  string_list = true)
          by (apply existsb_exists; eauto).
        congruence. }
      apply Z.leb_gt in Hshort.
      pose proof (length_ngrams (PyStr.lower s) n) as Hl.
      unfold PyStr.len in *.
      destruct (ngrams (PyStr.lower s) n); [contradiction|].
      cbn [List.length] in Hl. lia. }
    unfold ngram_values.
    destruct (count_pass string_list n) as [[counts occurrences] num].
    cbn [fst] in Hcounts. subst counts. now rewrite Hposs.
Qed.

Lemma ngram_values_outcome_witness :
  (exists t, ngram_values 5 ["ab"; "c"] 2 true = Ok t)
  /\ ngram_values 5 ["a"; "b"] 2 true = Raise (ValueError Max_arg_is_empty)
  /\ ngram_values 5 ["abcdefg"] 6 true = Raise RecursionError.
Proof.
  split; [|split].
  - exact (ngram_values_outcome 5 ["ab"; "c"] 2 true ltac:(lia)).
  - exact (ngram_values_outcome 5 ["a"; "b"] 2 true ltac:(lia)).
  - exact (ngram_values_outcome 5 ["abcdefg"] 6 true ltac:(lia)).
Defined.

(** ** The order of the corpus *)

Lemma corpus_occurrences_permutation (g : string) (l l' : list string) (n : Z) :
  Permutation l l' -> corpus_occurrences g l n = corpus_occurrences g l' n.
Proof.
  induction 1 as [|x l l' _ IH|x y l|l l' l'' _ IH1 _ IH2];
    cbn [corpus_occurrences]; lia.
Qed.

Lemma In_strings_with (g x : string) (l : list string) (n : Z) :
  In x (strings_with g l n)
  <-> (exists s, In s l /\ PyStr.lower s = x)
      /\ mem_string g (ngrams x n) = true.
Proof.
  unfold strings_with. rewrite filter_In, in_map_iff.
  split; intros [(s & H1 & H2) H3]; (split; [exists s; tauto|exact H3]).
Qed.

Lemma length_distinct_same (l l' : list string) :
  (forall x, In x l <-> In x l') ->
  List.length (distinct l) = List.length (distinct l').
Proof.
  intros H. apply Permutation_length. apply NoDup_Permutation.
  - apply distinct_spec.
  - apply distinct_spec.
  - intros x. rewrite !(proj2 (distinct_spec _)). apply H.
Qed.

Lemma strings_with_permutation (g : string) (l l' : list string) (n : Z) :
  Permutation l l' ->
  List.length (distinct (strings_with g l n))
  = List.length (distinct (strings_with g l' n)).
Proof.
  intros H. apply length_distinct_same. intros x. rewrite !In_strings_with.
  split; intros [(s & Hs & Hx) Hg]; (split; [exists s; split|]; auto).
  - now apply (Permutation_in _ H).
  - now apply (Permutation_in _ (Permutation_sym H)).
Qed.

Lemma fromkeys_NoDup {V : Type} (keys : list string) (v : V) :
  NoDup (dict_keys (fromkeys keys v)).
Proof.
  unfold fromkeys.
  apply (fold_left_invariant (fun (d : dict V) k => dict_set d k v)
           (fun d => NoDup (dict_keys d))).
  - constructor.
  - intros d k Hd _. now apply NoDup_keys_set.
Qed.

Lemma score_pass_NoDup (counts : dict Z) (N mf : Z)
    (occurrences : dict (list string)) (t t' : dict NGramData) :
  NoDup (dict_keys t) ->
  fold_left (score_ngram counts N mf) occurrences (Ok t) = Ok t' ->
  NoDup (dict_keys t').
Proof.
  revert t. induction occurrences as [|[g l] occ IH]; intros t Ht;
    cbn [fold_left].
  - now intros [= <-].
  - cbn [score_ngram bind].
    destruct (ngram_idf_value N (Z.of_nat (List.length l))
                (get_default counts g 0) mf) as [w|e]; cbn [bind].
    + apply IH. now apply NoDup_keys_set.
    + intros H. exfalso. revert H. clear.
      induction occ as [|x occ IH]; [discriminate|exact IH].
Qed.

Lemma In_dict_get {V : Type} (d : dict V) (k : string) (v : V) :
  NoDup (dict_keys d) -> In (k, v) d -> dict_get d k = Some v.
Proof.
  induction d as [|[k' v'] d IH]; [intros _ []|].
  cbn [dict_keys map fst dict_get]. intros Hnd [[= -> ->]|Hin].
  - now rewrite String.eqb_refl.
  - inversion Hnd as [|? ? Hk Hd]; subst.
    destruct (String.eqb k k') eqn:E; [|now apply IH].
    apply String.eqb_eq in E. subst k'. exfalso. apply Hk.
    unfold dict_keys in *. apply in_map_iff. now exists (k, v).
Qed.

(** What the builder needs to return a table, and what it returns then,
    in terms that do not depend on the order of the corpus. *)
Lemma built_table_total (limit : nat) (string_list : list string) (n : Z)
    (possible : list string) :
  all_possible_ngrams limit n = Ok possible ->
  (exists s g, In s string_list /\ In g (ngrams (PyStr.lower s) n)) ->
  exists t, ngram_values limit string_list n true = Ok t.
Proof.
  intros Hposs (s & g & Hs & Hg).
  assert (Hk : In g (dict_keys (fst (fst (count_pass string_list n)))))
    by (apply count_pass_keys; eauto).
  assert (Hcounts : dict_values (fst (fst (count_pass string_list n))) <> []).
  { unfold dict_keys, dict_values in *.
    destruct (fst (fst (count_pass string_list n)));
      [contradiction|discriminate]. }
  pose proof (counts_nonempty_corpus _ _ Hcounts) as HN.
  destruct (py_max_nonempty Z.gtb _ Hcounts) as (mf & Hmf).
  destruct (score_pass_total (fst (fst (count_pass string_list n)))
              (snd (count_pass string_list n)) mf
              (snd (fst (count_pass string_list n)))
              (fromkeys possible initial_entry) HN)
    as (t0 & Hfold & _).
  pose proof (count_pass_invariant string_list n) as (Hkeys & _).
  pose proof (count_pass_NoDup string_list n) as Hnd.
  assert (Ht0 : map (fun kv => idf (snd kv)) t0 <> []).
  { rewrite Hkeys in Hk. apply dict_get_Some_key in Hk.
    destruct Hk as (l & Hl).
    pose proof (score_pass_lookup _ _ _ _ _ _ g Hnd Hfold) as Hg0.
    rewrite Hl in Hg0. destruct t0; discriminate. }
  destruct (py_max_nonempty idf_gtb _ Ht0) as (hi & Hhi).
  unfold ngram_values.
  destruct (count_pass string_list n) as [[counts occurrences] num].
  cbn [fst snd] in Hmf, Hfold. rewrite Hposs. cbn [bind].
  rewrite Hmf. cbn [bind]. rewrite Hfold. cbn [bind].
  unfold highest_idf. rewrite Hhi. cbn [bind]. eexists. reflexivity.
Qed.

Lemma built_table_observed (limit : nat) (string_list : list string) (n : Z)
    (t : dict NGramData) :
  ngram_values limit string_list n true = Ok t ->
  exists s g, In s string_list /\ In g (ngrams (PyStr.lower s) n).
Proof.
  intros H. pose proof (ngram_values_Ok _ _ _ _ _ H) as Hsteps.
  destruct Hsteps as (possible & mf & t0 & _ & Hmax & _).
  apply py_max_Ok_nonempty in Hmax.
  destruct (fst (fst (count_pass string_list n))) as [|[g c] counts] eqn:E;
    [now contradiction Hmax|].
  assert (Hk : In g (dict_keys (fst (fst (count_pass string_list n)))))
    by (rewrite E; now left).
  apply count_pass_keys in Hk. destruct Hk as (s & Hs & Hg). eauto.
Qed.

(** X7. The table does not depend on the order of the corpus: when
    [ngram_values] returns a table for a corpus, it returns a table for
    every permutation of the corpus, and the two tables hold the same
    entry, or none, for every n-gram. *)
Theorem corpus_order_is_irrelevant (limit : nat)
    (string_list string_list' : list string) (n : Z) (t : dict NGramData) :
  Permutation string_list string_list' ->
  ngram_values limit string_list n true = Ok t ->
  exists t',
    ngram_values limit string_list' n true = Ok t'
    /\ forall g, dict_get t' g = dict_get t g.
Proof.
  intros Hperm Ht.
  destruct (built_table_lookup _ _ _ _ Ht)
    as (possible & t0 & hi & Hposs & Hfalse & Hhi & Hlookup).
  destruct (built_table_observed _ _ _ _ Ht) as (s & g0 & Hs & Hg0).
  destruct (built_table_total limit string_list' n possible Hposs) as (t' & Ht').
  { exists s, g0. split; [now apply (Permutation_in _ Hperm)|exact Hg0]. }
  exists t'. split; [exact Ht'|].
  destruct (built_table_lookup _ _ _ _ Ht')
    as (possible' & t0' & hi' & Hposs' & Hfalse' & Hhi' & Hlookup').
  assert (possible' = possible) by congruence. subst possible'.
  assert (Hsame : forall g, dict_get t0' g = dict_get t0 g).
  { intros g. rewrite (proj1 (Hlookup g)), (proj1 (Hlookup' g)).
    rewrite <- (corpus_occurrences_permutation g _ _ n Hperm).
    rewrite <- (strings_with_permutation g _ _ n Hperm).
    now rewrite <- (Permutation_length Hperm). }
  assert (Hfin : forall l u, ngram_values limit l n false = Ok u ->
                   Forall (fun kv => idf_finite (idf (snd kv))) u).
  { intros l u Hu. eapply Forall_impl; [|exact (scored_table_entries _ _ _ _ Hu)].
    intros kv. apply scored_entry_finite. }
  assert (Hnd : forall l u, ngram_values limit l n false = Ok u ->
                  NoDup (dict_keys u)).
  { intros l u Hu. pose proof (ngram_values_Ok _ _ _ _ _ Hu) as Hsteps.
    destruct Hsteps as (p & mf & u0 & _ & _ & Hfold & _ & ->).
    eapply score_pass_NoDup; [|exact Hfold]. apply fromkeys_NoDup. }
  assert (Hle : forall u u' h h',
            Forall (fun kv => idf_finite (idf (snd kv))) u ->
            Forall (fun kv => idf_finite (idf (snd kv))) u' ->
            NoDup (dict_keys u) ->
            (forall g, dict_get u' g = dict_get u g) ->
            highest_idf u = Ok h -> highest_idf u' = Ok h' ->
            (idf_real h <= idf_real h')%R).
  { intros u u' h h' Hu Hu' Hndu Heq Hh Hh'.
    destruct (highest_idf_real u h Hu Hh) as [(g & v & Hin & <-) _].
    destruct (highest_idf_real u' h' Hu' Hh') as [_ Hmax].
    apply (Hmax g). apply dict_get_In. rewrite Heq.
    now apply In_dict_get. }
  assert (Hceil : py_ceil hi' = py_ceil hi).
  { assert (Hreal : idf_real hi' = idf_real hi).
    { apply Rle_antisym.
      - apply (Hle t0' t0); eauto.
      - apply (Hle t0 t0'); eauto. }
    assert (Hhifin : idf_finite hi').
    { destruct (highest_idf_real t0' hi' (Hfin _ _ Hfalse') Hhi')
        as [(g & v & Hin & <-) _].
      pose proof (Hfin _ _ Hfalse') as Hall. rewrite Forall_forall in Hall.
      exact (Hall _ Hin). }
    assert (Hhifin0 : idf_finite hi).
    { destruct (highest_idf_real t0 hi (Hfin _ _ Hfalse) Hhi)
        as [(g & v & Hin & <-) _].
      pose proof (Hfin _ _ Hfalse) as Hall. rewrite Forall_forall in Hall.
      exact (Hall _ Hin). }
    apply py_ceil_unique; [exact Hhifin|]. rewrite Hreal.
    apply py_ceil_real. exact Hhifin0. }
  intros g. rewrite (proj2 (Hlookup g)), (proj2 (Hlookup' g)).
  now rewrite Hsame, Hceil.
Qed.

Lemma corpus_order_is_irrelevant_witness :
  exists t',
    ngram_values 5 ["ac"; "ab"; "a"; "a"; "a"; "a"; "a"; "a"] 1 true = Ok t'
    /\ forall g, dict_get t' g = dict_get table8 g.
Proof.
  apply (corpus_order_is_irrelevant 5 corpus8
           ["ac"; "ab"; "a"; "a"; "a"; "a"; "a"; "a"] 1 table8).
  - unfold corpus8.
    apply (perm_trans (l' := ["ab"; "a"; "ac"; "a"; "a"; "a"; "a"; "a"])).
    + apply perm_swap.
    + apply (perm_trans (l' := ["ab"; "ac"; "a"; "a"; "a"; "a"; "a"; "a"])).
      * apply perm_skip. apply perm_swap.
      * apply perm_swap.
  - reflexivity.
Defined.

(** ** The n-gram functions and the weights *)

(** X8. [all_possible_ngrams] on every argument.  For n >= 1 and a
    recursion limit of at least n frames it returns, without repeats,
    exactly the 26^n strings of n lowercase letters; for n = 0 it returns
    the empty list, not the list that holds the empty string; for n < 0,
    and when the limit is below n, the recursion never meets its base
    cases and ends in a [RecursionError]. *)
Theorem all_possible_ngrams_result (limit : nat) (n : Z) :
  if ((0 <=? n) && (Z.max 1 n <=? Z.of_nat limit))%bool
  then exists l,
         all_possible_ngrams limit n = Ok l
         /\ NoDup l
         /\ (forall s,
               In s l <->
               1 <= n /\ PyStr.len s = n
               /\ PyStr.all_chars PyStr.is_lower_letter s = true)
         /\ Z.of_nat (List.length l) = (if n =? 0 then 0 else 26 ^ n)
  else all_possible_ngrams limit n = Raise RecursionError.
Proof.
  destruct (0 <=? n) eqn:E0; cbn [andb].
  2:{ apply all_possible_ngrams_negative. lia. }
  apply Z.leb_le in E0.
  destruct (Z.max 1 n <=? Z.of_nat limit) eqn:El.
  - apply Z.leb_le in El. destruct (Z.eq_dec n 0) as [->|Hn].
    + destruct limit as [|limit]; [cbn in El; lia|].
      exists []. rewrite all_possible_ngrams_zero.
      split; [reflexivity|]. split; [constructor|]. split; [|reflexivity].
      intros s. split; [intros []|intros (H & _); lia].
    + destruct (Z.to_nat n) as [|k] eqn:Ek; [lia|].
      assert (Hnk : n = Z.of_nat (S k)) by lia.
      exists (lowercase_ngrams (S k)). rewrite Hnk at 1.
      rewrite all_possible_ngrams_positive.
      destruct (S k <=? limit)%nat eqn:Ekl; [|apply Nat.leb_gt in Ekl; lia].
      split; [reflexivity|]. rewrite lowercase_ngrams_words.
      split; [apply NoDup_words|]. split.
      * intros s. rewrite In_words. unfold PyStr.len. split.
        -- intros (Hlen & Hall). repeat split; [lia|lia|exact Hall].
        -- intros (_ & Hlen & Hall). split; [lia|exact Hall].
      * rewrite <- lowercase_ngrams_words, <- Ek.
        rewrite length_lowercase_ngrams by lia.
        destruct (n =? 0) eqn:En0; [apply Z.eqb_eq in En0; lia|reflexivity].
  - apply Z.leb_gt in El. destruct (Z.eq_dec n 0) as [->|Hn].
    + destruct limit as [|limit]; [reflexivity|cbn in El; lia].
    + destruct (Z.to_nat n) as [|k] eqn:Ek; [lia|].
      assert (Hnk : n = Z.of_nat (S k)) by lia.
      rewrite Hnk. rewrite all_possible_ngrams_positive.
      destruct (S k <=? limit)%nat eqn:Ekl; [apply Nat.leb_le in Ekl; lia|].
      reflexivity.
Qed.

(** X10. [highest_total_frequency] raises the [ValueError] of [max] on
    an empty table, and on every other table returns the
    [total_frequency] of one of the entries, which no entry exceeds. *)
Theorem highest_total_frequency_result (t : dict NGramData) :
  match highest_total_frequency t with
  | Ok m =>
      (exists g v, In (g, v) t /\ total_frequency v = m)
      /\ forall g v, In (g, v) t -> total_frequency v <= m
  | Raise e => t = [] /\ e = ValueError Max_arg_is_empty
  end.
Proof.
  unfold highest_total_frequency. destruct t as [|[g0 v0] t]; cbn [map py_max].
  - now split.
  - cbn [snd].
    pose proof (fold_max_Z (map (fun kv => total_frequency (snd kv)) t)
                  (total_frequency v0)) as H.
    cbv zeta in H. destruct H as (Hin & Hle & Hall). split.
    + destruct Hin as [Heq|Hin].
      * exists g0, v0. split; [now left|now symmetry].
      * apply in_map_iff in Hin. destruct Hin as ([g v] & Hv & Hgv).
        exists g, v. split; [now right|exact Hv].
    + intros g v [[= <- <-]|Hgv]; [exact Hle|].
      apply Hall. apply in_map_iff. now exists (g, v).
Qed.

(** ** The normalization of the detector *)

Lemma lower_char_idempotent (c : ascii) :
  PyStr.lower_char (PyStr.lower_char c) = PyStr.lower_char c.
Proof. destruct c as [[] [] [] [] [] [] [] []]; reflexivity. Qed.

(** What becomes of one character: it is deleted, or it is a lowercase
    letter, exactly when its code point is one of 32..126. *)
Lemma normalize_char (c : ascii) :
  (if PyStr.mem_char (PyStr.lower_char c) _delchars then true
   else PyStr.is_lower_letter (PyStr.lower_char c))
  = PyStr.in_range 32 126 c
  /\ (PyStr.mem_char (PyStr.lower_char c) _delchars = true ->
      PyStr.in_range 32 126 c = true).
Proof.
  destruct c as [[] [] [] [] [] [] [] []];
    (split; [reflexivity|vm_compute; intros H; first [exact H|reflexivity]]).
Qed.

Lemma normalize_cons (c : ascii) (s : string) :
  normalize (String c s)
  = if PyStr.mem_char (PyStr.lower_char c) _delchars then normalize s
    else String (PyStr.lower_char c) (normalize s).
Proof. reflexivity. Qed.

Lemma normalize_normalize (s : string) : normalize (normalize s) = normalize s.
Proof.
  induction s as [|c s IH]; [reflexivity|].
  rewrite normalize_cons.
  destruct (PyStr.mem_char (PyStr.lower_char c) _delchars) eqn:E; [exact IH|].
  rewrite normalize_cons, lower_char_idempotent, E. now rewrite IH.
Qed.

Lemma length_translate_delete (del s : string) :
  (String.length (PyStr.translate_delete del s) <= String.length s)%nat.
Proof.
  induction s as [|c s IH]; [apply Nat.le_refl|].
  cbn [PyStr.translate_delete].
  destruct (PyStr.mem_char c del); cbn [String.length]; lia.
Qed.

Lemma all_chars_false (p : ascii -> bool) (c : ascii) (s : string) :
  PyStr.mem_char c s = true -> p c = false -> PyStr.all_chars p s = false.
Proof.
  induction s as [|d s IH]; [discriminate|].
  cbn [PyStr.mem_char PyStr.all_chars]. intros H Hc.
  destruct (Ascii.eqb c d) eqn:E.
  - apply Ascii.eqb_eq in E. subst d. now rewrite Hc.
  - cbn [orb] in H. rewrite (IH H Hc). apply andb_false_r.
Qed.

Lemma all_chars_normalize (s : string) :
  PyStr.all_chars PyStr.is_lower_letter (normalize s)
  = PyStr.all_chars (PyStr.in_range 32 126) s.
Proof.
  induction s as [|c s IH]; [reflexivity|].
  rewrite normalize_cons. cbn [PyStr.all_chars].
  destruct (normalize_char c) as [Hc Hdel].
  destruct (PyStr.mem_char (PyStr.lower_char c) _delchars) eqn:E.
  - rewrite Hdel by reflexivity. now rewrite IH.
  - cbn [PyStr.all_chars]. now rewrite Hc, IH.
Qed.

Lemma normalize_append (s t : string) :
  normalize (s ++ t)%string = (normalize s ++ normalize t)%string.
Proof.
  induction s as [|c s IH]; [reflexivity|].
  cbn [String.append]. rewrite !normalize_cons.
  destruct (PyStr.mem_char (PyStr.lower_char c) _delchars); [exact IH|].
  cbn [String.append]. now rewrite IH.
Qed.

Lemma lower_char_deleted (c : ascii) :
  PyStr.mem_char c _delchars = true ->
  PyStr.mem_char (PyStr.lower_char c) _delchars = true.
Proof.
  destruct c as [[] [] [] [] [] [] [] []]; vm_compute; intros H; exact H.
Qed.

Lemma normalize_deleted (d : string) :
  PyStr.all_chars (fun c => PyStr.mem_char c _delchars) d = true ->
  normalize d = "".
Proof.
  induction d as [|c d IH]; [reflexivity|]. cbn [PyStr.all_chars].
  intros H. apply andb_true_iff in H. destruct H as [Hc Hd].
  rewrite normalize_cons, (lower_char_deleted c Hc). now apply IH.
Qed.

Section DetectorOutcomes.

Context {ops : FloatOps}.

(** X11. The normalization of the detector is idempotent, and it only
    deletes characters of the lower-cased string, so that a detector
    gives on a string that is already normalized what it gives on the
    raw string. *)
Theorem normalize_idempotent (string_score : string -> result F)
    (min_length : Z) (min_score : F) (raw : string) :
  normalize (normalize raw) = normalize raw
  /\ PyStr.len (normalize raw) <= PyStr.len (PyStr.lower raw)
  /\ nonsense_detector string_score min_length min_score (normalize raw)
     = nonsense_detector string_score min_length min_score raw.
Proof.
  split; [apply normalize_normalize|]. split.
  - unfold PyStr.len, normalize.
    pose proof (length_translate_delete _delchars (PyStr.lower raw)). lia.
  - unfold nonsense_detector. now rewrite normalize_normalize.
Qed.

(** X12. A raw string of printable ASCII characters, of code points 32
    to 126, is normalized to lowercase letters only.  A raw string that
    holds a character of code point 0 to 31 or 127 to 255 is not: such a
    character is neither deleted nor turned into a letter a..z. *)
Theorem normalize_letters_of_printable (raw : string) :
  (PyStr.all_chars (PyStr.in_range 32 126) raw = true ->
   PyStr.all_chars PyStr.is_lower_letter (normalize raw) = true)
  /\ (forall c : ascii,
        PyStr.mem_char c raw = true ->
        PyStr.in_range 32 126 c = false ->
        PyStr.all_chars PyStr.is_lower_letter (normalize raw) = false).
Proof.
  split.
  - intros H. now rewrite all_chars_normalize.
  - intros c Hc Hrange. rewrite all_chars_normalize.
    exact (all_chars_false _ c raw Hc Hrange).
Qed.

(** X13. On ASCII strings, normalization goes through concatenation,
    and a detector does not see the characters that normalization
    deletes: inserting ASCII punctuation, digits and spaces anywhere in
    an ASCII string changes neither the verdict nor the exception. *)
Theorem detector_ignores_deleted_characters
    (string_score : string -> result F) (min_length : Z) (min_score : F)
    (before inserted after : string) :
  PyStr.all_chars (PyStr.in_range 0 127) before = true ->
  PyStr.all_chars (PyStr.in_range 0 127) after = true ->
  PyStr.all_chars (fun c => PyStr.mem_char c _delchars) inserted = true ->
  normalize (before ++ after) = (normalize before ++ normalize after)%string
  /\ nonsense_detector string_score min_length min_score
       (before ++ inserted ++ after)
     = nonsense_detector string_score min_length min_score (before ++ after).
Proof.
  intros _ _ H. split; [apply normalize_append|].
  unfold nonsense_detector.
  now rewrite !normalize_append, (normalize_deleted inserted H).
Qed.

(* ------------------------------------------------------------------ *)
(** ** The outcomes of the scorer *)

Lemma length_penalty_raises (m len_threshold : Z) (lexp : F) :
  math_pow (Z.max 0 (m - len_threshold)) lexp
  = Raise (ValueError Math_domain_error)
  <-> m <= len_threshold /\ is_finite lexp = true /\ fsign lexp = Lt.
Proof.
  unfold math_pow. destruct (Z.max 0 (m - len_threshold) =? 0) eqn:E.
  - apply Z.eqb_eq in E. destruct (is_finite lexp).
    + destruct (fsign lexp); split; try discriminate;
        try (intros (_ & _ & H); discriminate).
      * intros _. repeat split. lia.
      * reflexivity.
    + split; [discriminate|]. intros (_ & H & _). discriminate.
  - apply Z.eqb_neq in E. split; [|intros [H _]; lia].
    destruct (_ =? 1); [discriminate|].
    destruct (negb _); [discriminate|].
    destruct (_ && _)%bool; discriminate.
Qed.

Lemma length_penalty_defined (m len_threshold : Z) (lexp : F) :
  fsign lexp = Gt ->
  (len_threshold < m -> pow_in_range (m - len_threshold) lexp) ->
  exists p, math_pow (Z.max 0 (m - len_threshold)) lexp = Ok p.
Proof.
  intros Hsign Hr. destruct (Z_le_gt_dec m len_threshold) as [Hle|Hgt].
  - rewrite Z.max_l by lia. unfold math_pow. cbn [Z.eqb].
    destruct (is_finite lexp); [rewrite Hsign|]; eexists; reflexivity.
  - rewrite Z.max_r by lia. eexists. apply math_pow_nonzero; [lia|].
    apply Hr. lia.
Qed.

Lemma math_pow_nonzero_exception (x : Z) (y : F) (e : exn) :
  x <> 0 -> math_pow x y = Raise e -> e = OverflowError.
Proof.
  intros Hx. unfold math_pow.
  destruct (x =? 0) eqn:E; [apply Z.eqb_eq in E; contradiction|].
  destruct (x =? 1); [discriminate|].
  destruct (negb (int_fits x)); [now intros [= <-]|].
  destruct (is_finite y && pow_overflows (of_int x) y)%bool;
    [now intros [= <-]|discriminate].
Qed.

Lemma sum_terms_raise (table : dict NGramData) (max_freq : Z) (rexp : F)
    (l : dict Z) (e : exn) :
  fold_left
    (fun acc item =>
       total <- acc ;;
       term <- score_term table max_freq rexp (fst item) (snd item) ;;
       Ok (fadd total term)) l (Raise e) = Raise e.
Proof. induction l as [|x l IH]; [reflexivity|exact IH]. Qed.

Lemma sum_terms_prefix_raise (table : dict NGramData) (max_freq : Z)
    (rexp : F) (l1 l2 : dict Z) (x : string * Z) (v : F) (e : exn) :
  sum_terms table max_freq rexp l1 = Ok v ->
  score_term table max_freq rexp (fst x) (snd x) = Raise e ->
  sum_terms table max_freq rexp (l1 ++ x :: l2) = Raise e.
Proof.
  unfold sum_terms. intros H1 Hx. rewrite fold_left_app, H1.
  cbn [fold_left bind]. rewrite Hx. cbn [bind]. apply sum_terms_raise.
Qed.

(** A sum of terms that raise nothing raises nothing. *)
Lemma sum_terms_total (table : dict NGramData) (max_freq : Z) (rexp : F)
    (l : dict Z) :
  (forall item, In item l ->
     exists v, score_term table max_freq rexp (fst item) (snd item) = Ok v) ->
  exists v, sum_terms table max_freq rexp l = Ok v.
Proof.
  unfold sum_terms. generalize (of_int 0) as start.
  induction l as [|x l IH]; intros start Hall; cbn [fold_left].
  - now exists start.
  - destruct (Hall x (or_introl eq_refl)) as (v & Hv). cbn [bind].
    rewrite Hv. cbn [bind]. apply IH. intros item Hin. apply Hall. now right.
Qed.

(** With counts that are not 0, a term raises a [KeyError], a
    [ZeroDivisionError] or an [OverflowError], never the [ValueError] of
    [math.pow]. *)
Lemma score_term_raise (table : dict NGramData) (max_freq : Z) (rexp : F)
    (g : string) (c : Z) (e : exn) :
  c <> 0 -> score_term table max_freq rexp g c = Raise e ->
  e <> ValueError Math_domain_error.
Proof.
  intros Hc. unfold score_term, getitem.
  destruct (dict_get table g); cbn [bind]; [|intros [= <-]; discriminate].
  destruct (math_pow c rexp) as [p|e'] eqn:E; cbn [bind].
  - destruct (float_of_idf (idf n)) as [w|e'] eqn:Ew; cbn [bind].
    + destruct (max_freq =? 0); [intros [= <-]; discriminate|].
      destruct (float_of_int max_freq) as [d|e'] eqn:Ed; cbn [bind];
        [discriminate|].
      intros [= <-]. apply float_of_int_exception in Ed. now subst.
    + intros [= <-]. apply float_of_idf_exception in Ew. now subst.
  - intros [= <-]. apply (math_pow_nonzero_exception _ _ _ Hc) in E.
    now subst.
Qed.

Lemma sum_terms_raise_kind (table : dict NGramData) (max_freq : Z) (rexp : F)
    (counts : dict Z) (e : exn) :
  Forall (fun item => snd item <> 0) counts ->
  sum_terms table max_freq rexp counts = Raise e ->
  e <> ValueError Math_domain_error.
Proof.
  unfold sum_terms. generalize (of_int 0) as start.
  induction counts as [|[g c] l IH]; intros start Hall; cbn [fold_left].
  - discriminate.
  - inversion Hall as [|? ? Hc Hl]; subst. cbn [bind fst snd] in *.
    destruct (score_term table max_freq rexp g c) as [t|e'] eqn:E; cbn [bind].
    + now apply IH.
    + rewrite sum_terms_raise. intros [= <-].
      now apply (score_term_raise _ _ _ _ _ _ Hc E).
Qed.

Lemma counts_nonzero (l : list string) :
  Forall (fun item : string * Z => snd item <> 0)
    (map (fun g => (g, occurrence_count g l)) (distinct l)).
Proof.
  apply Forall_forall. intros item Hin. apply in_map_iff in Hin.
  destruct Hin as (g & <- & Hg). cbn [snd].
  apply (proj1 (proj2 (distinct_spec _) _)) in Hg.
  pose proof (occurrence_count_positive g l Hg). lia.
Qed.

(** X14. A scorer raises the [ValueError] of [math.pow] exactly when
    the number m of n-grams does not exceed the length threshold and the
    length exponent is finite and negative, whatever the table and the
    string: the length penalty is computed before any n-gram is looked
    up, and no other step of the scorer raises that error. *)
Theorem scorer_math_domain_error (table : dict NGramData)
    (max_freq n len_threshold : Z) (lexp rexp : F) (s : string) :
  score_function table max_freq n len_threshold lexp rexp s
  = Raise (ValueError Math_domain_error)
  <-> Z.of_nat (List.length (ngrams s n)) <= len_threshold
      /\ is_finite lexp = true
      /\ fsign lexp = Lt.
Proof.
  unfold score_function. rewrite <- length_penalty_raises.
  destruct (math_pow _ lexp) as [p|e] eqn:E; cbn [bind].
  - split; [|discriminate].
    destruct (sum_terms _ _ _ _) as [t|e] eqn:Es; cbn [bind]; [discriminate|].
    intros [= ->]. exfalso. rewrite count_occurrences in Es.
    exact (sum_terms_raise_kind _ _ _ _ _ (counts_nonzero _) Es eq_refl).
  - split; intros H; [now injection H as ->|exact H].
Qed.

Lemma fold_set_add_extends (l acc : list string) :
  exists rest, fold_left (fun seen x => set_add x seen) l acc = acc ++ rest.
Proof.
  revert acc. induction l as [|a l IH]; intros acc; cbn [fold_left].
  - exists []. now rewrite app_nil_r.
  - destruct (IH (set_add a acc)) as (rest & ->). unfold set_add.
    destruct (mem_string a acc); [now exists rest|].
    exists (a :: rest). now rewrite <- app_assoc.
Qed.

Lemma distinct_first_missing (pre post : list string) (g : string) :
  ~ In g pre ->
  exists rest, distinct (pre ++ g :: post) = distinct pre ++ g :: rest.
Proof.
  intros Hg.
  assert (E : mem_string g (distinct pre) = false).
  { apply mem_string_not_In. intros H.
    apply (proj1 (proj2 (distinct_spec _) _)) in H. tauto. }
  assert (Hs : set_add g (distinct pre) = distinct pre ++ [g])
    by (unfold set_add; now rewrite E).
  assert (Hd : distinct (pre ++ g :: post)
               = fold_left (fun seen x => set_add x seen) post
                   (set_add g (distinct pre)))
    by (unfold distinct; now rewrite fold_left_app).
  rewrite Hd, Hs.
  destruct (fold_set_add_extends post (distinct pre ++ [g])) as (rest & ->).
  exists rest. now rewrite <- app_assoc.
Qed.

(** X15. A scorer raises the [KeyError] of the first n-gram of the
    string, in the order of the string, that is not a key of the table,
    when the length penalty and the terms of the n-grams that come
    before it raise nothing: no power beyond the floats, no division by
    a maximal total frequency that is 0. *)
Theorem scorer_key_error (table : dict NGramData)
    (max_freq n len_threshold : Z) (lexp rexp : F) (s : string)
    (pre post : list string) (g : string) :
  ngrams s n = pre ++ g :: post ->
  dict_get table g = None ->
  (exists p,
     math_pow (Z.max 0 (Z.of_nat (List.length (ngrams s n)) - len_threshold))
       lexp = Ok p) ->
  (forall x, In x pre ->
     exists v,
       score_term table max_freq rexp x (occurrence_count x (ngrams s n))
       = Ok v) ->
  score_function table max_freq n len_threshold lexp rexp s
  = Raise (KeyError g).
Proof.
  intros Hgrams Hg (p & Hp) Hpre. unfold score_function.
  rewrite Hp. cbn [bind]. rewrite count_occurrences. rewrite Hgrams in *.
  assert (Hnot : ~ In g pre).
  { intros H. destruct (Hpre g H) as (v & Hv).
    unfold score_term, getitem in Hv. rewrite Hg in Hv. discriminate. }
  destruct (distinct_first_missing pre post g Hnot) as (rest & ->).
  rewrite map_app. cbn [map].
  destruct (sum_terms_total table max_freq rexp
              (map (fun g0 => (g0, occurrence_count g0 (pre ++ g :: post)))
                 (distinct pre))) as (v & Hsum).
  { intros item Hin. apply in_map_iff in Hin.
    destruct Hin as (x & <- & Hx). cbn [fst snd]. apply Hpre.
    now apply (proj1 (proj2 (distinct_spec _) _)) in Hx. }
  rewrite (sum_terms_prefix_raise _ _ _ _ _ _ v (KeyError g) Hsum);
    [reflexivity|].
  cbn [fst snd]. unfold score_term, getitem. now rewrite Hg.
Qed.

(** The first term of the sum divides by the maximal total frequency. *)
Lemma scorer_first_term_zero_division (table : dict NGramData)
    (n len_threshold : Z) (lexp rexp : F) (s : string)
    (g : string) (post : list string) :
  ngrams s n = g :: post ->
  dict_get table g <> None ->
  fsign lexp = Gt ->
  in_float_range table 0 len_threshold lexp rexp (ngrams s n) ->
  score_function table 0 n len_threshold lexp rexp s = Raise ZeroDivisionError.
Proof.
  intros Hgrams Hg Hsign (_ & Hpen & Hrange). unfold score_function.
  destruct (length_penalty_defined _ _ _ Hsign Hpen) as (p & ->).
  cbn [bind]. rewrite count_occurrences. rewrite Hgrams in *.
  destruct (distinct_first_missing [] post g ltac:(intros [])) as (rest & E).
  change (distinct (g :: post) = g :: rest) in E.
  rewrite E. cbn [map].
  assert (Hterm : score_term table 0 rexp g (occurrence_count g (g :: post))
                  = Raise ZeroDivisionError).
  { destruct (Hrange g (or_introl eq_refl)) as [Hpow Hidf].
    unfold score_term, getitem, idf_of in *.
    destruct (dict_get table g); [|contradiction]. cbn [bind].
    rewrite math_pow_nonzero; [|
      pose proof (occurrence_count_positive g (g :: post) ltac:(now left));
      lia|exact Hpow].
    cbn [bind]. now rewrite float_of_idf_fits by exact Hidf. }
  pose proof (sum_terms_prefix_raise table 0 rexp []
                (map (fun g0 => (g0, occurrence_count g0 (g :: post))) rest)
                (g, occurrence_count g (g :: post)) (of_int 0)
                ZeroDivisionError eq_refl Hterm) as Hsum.
  cbn [app] in Hsum. now rewrite Hsum.
Qed.

(** X16. On a table of [ngram_values] whose highest total frequency is
    0, which is the table of a corpus whose observed n-grams all had the
    idf 0 and lost their counts in the zero-score pass, the scorer of
    [tfidf_score_function] raises a [ZeroDivisionError] on every string
    of lowercase letters that holds at least one n-gram, when the length
    exponent is positive and the powers and the integers of the table
    are in the range of the floats. *)
Theorem zero_max_frequency_zero_division (limit : nat)
    (string_list : list string) (n : Z) (table : dict NGramData)
    (len_threshold : Z) (lexp rexp : F) (scorer : string -> result F)
    (s : string) :
  1 <= n ->
  ngram_values limit string_list n true = Ok table ->
  highest_total_frequency table = Ok 0 ->
  tfidf_score_function table len_threshold lexp rexp = Ok scorer ->
  fsign lexp = Gt ->
  PyStr.all_chars PyStr.is_lower_letter s = true ->
  n <= PyStr.len s ->
  in_float_range table 0 len_threshold lexp rexp (ngrams s n) ->
  scorer s = Raise ZeroDivisionError.
Proof.
  intros Hn Hbuilt Hmf Hgen Hsign Hs Hlen Hrange.
  destruct (built_table_covers _ _ _ _ Hn Hbuilt) as ((key & Hkey & Hk) & Hcov).
  unfold tfidf_score_function in Hgen. rewrite Hmf, Hkey in Hgen.
  cbn [bind] in Hgen. injection Hgen as <-. rewrite Hk.
  destruct (ngrams s n) as [|g post] eqn:Eg.
  - pose proof (length_ngrams s n) as Hl. rewrite Eg in Hl.
    cbn [List.length] in Hl. lia.
  - apply (scorer_first_term_zero_division _ _ _ _ _ _ g post Eg).
    + apply (Hcov s g Hs). rewrite Eg. now left.
    + exact Hsign.
    + rewrite Eg. exact Hrange.
Qed.

(** X17. The detector on printable input.  Over a table that
    [ngram_values] built for n >= 1 and whose highest total frequency is
    not 0, with a finite positive length exponent, a detector of
    [generate_nonsense_detector] raises the error of the too short input
    or returns a verdict on every raw string of printable ASCII
    characters on which the scorer stays in the range of the floats, and
    the verdict is whether the score of the specification's formula on
    the normalized string exceeds [min_score]. *)
Theorem detector_verdict_on_printable (limit : nat)
    (string_list : list string) (n : Z) (table : dict NGramData)
    (pickled : option (dict NGramData)) (min_length : Z) (min_score : F)
    (len_threshold : Z) (lexp rexp : F) (max_freq : Z)
    (detector : string -> result bool) (raw : string) :
  1 <= n ->
  ngram_values limit string_list n true = Ok table ->
  highest_total_frequency table = Ok max_freq ->
  max_freq <> 0 ->
  generate_nonsense_detector (Some table) pickled min_length min_score
    len_threshold lexp rexp = Ok detector ->
  is_finite lexp = true ->
  fsign lexp = Gt ->
  PyStr.all_chars (PyStr.in_range 32 126) raw = true ->
  in_float_range table max_freq len_threshold lexp rexp
    (ngrams (normalize raw) n) ->
  detector raw
  = if PyStr.len (normalize raw) <? min_length
    then Raise (ValueError Too_short_to_test)
    else Ok (fgtb (score_formula table max_freq n len_threshold lexp rexp
                     (normalize raw)) min_score).
Proof.
  intros Hn Hbuilt Hmf Hnz Hgen Hfin Hsign Hraw Hrange.
  destruct (built_table_covers _ _ _ _ Hn Hbuilt) as ((key & Hkey & Hk) & Hcov).
  unfold generate_nonsense_detector, tfidf_score_function in Hgen.
  destruct table as [|kv table']; [discriminate|].
  cbn [is_falsy bind] in Hgen. rewrite Hmf, Hkey in Hgen.
  cbn [bind] in Hgen. injection Hgen as <-. rewrite Hk.
  unfold nonsense_detector.
  destruct (PyStr.len (normalize raw) <? min_length); [reflexivity|].
  rewrite score_function_score_formula;
    [reflexivity|exact Hfin|exact Hsign| |exact Hnz|exact Hrange].
  intros g Hg. apply (Hcov (normalize raw) g); [|exact Hg].
  now rewrite all_chars_normalize.
Qed.


End DetectorOutcomes.

Lemma normalize_letters_of_printable_witness :
  PyStr.all_chars PyStr.is_lower_letter (normalize "Ab, c-1 xyz!") = true
  /\ PyStr.all_chars PyStr.is_lower_letter
       (normalize ("abc" ++ String tab "def")) = false.
Proof.
  split.
  - apply (proj1 (normalize_letters_of_printable "Ab, c-1 xyz!")).
    reflexivity.
  - apply (proj2 (normalize_letters_of_printable ("abc" ++ String tab "def"))
             tab); reflexivity.
Defined.

Lemma detector_ignores_deleted_characters_witness :
  normalize ("Abc" ++ "Def") = (normalize "Abc" ++ normalize "Def")%string
  /\ nonsense_detector (ops := RealOps)
       (score_function table8 8 1 25 1%R 1%R) 6 (IZR 8)
       ("Abc" ++ "-1, 2!" ++ "Def")
     = nonsense_detector (ops := RealOps)
         (score_function table8 8 1 25 1%R 1%R) 6 (IZR 8) ("Abc" ++ "Def").
Proof.
  apply (detector_ignores_deleted_characters (ops := RealOps)
           (score_function (ops := RealOps) table8 8 1 25 1%R 1%R)
           6 (IZR 8) "Abc" "-1, 2!" "Def"); reflexivity.
Defined.

Lemma scorer_key_error_witness :
  score_function (ops := RealOps) table8 8 1 25 1%R 1%R "a1b"
  = Raise (KeyError "1").
Proof.
  assert (Hsign : @fsign RealOps 1%R = Gt) by (apply Rcompare_positive; lra).
  apply (scorer_key_error (ops := RealOps) table8 8 1 25 1%R 1%R "a1b"
           ["a"] ["b"] "1").
  - reflexivity.
  - reflexivity.
  - exists 0%R.
    change (Z.max 0 (Z.of_nat (List.length (ngrams "a1b" 1)) - 25)) with 0.
    rewrite (math_pow_zero (ops := RealOps)) by reflexivity.
    now rewrite Hsign.
  - intros x [<-|[]]. eexists.
    apply real_score_term_defined; [discriminate| |discriminate].
    vm_compute. discriminate.
Defined.

Lemma zero_max_frequency_zero_division_witness :
  ngram_values 5 corpus_ab 1 true = Ok table_ab
  /\ highest_total_frequency table_ab = Ok 0
  /\ score_function (ops := RealOps) table_ab 0 1 25 1%R 1%R "ab"
     = Raise ZeroDivisionError.
Proof.
  assert (Hsign : @fsign RealOps 1%R = Gt) by (apply Rcompare_positive; lra).
  split; [reflexivity|]. split; [reflexivity|].
  apply (zero_max_frequency_zero_division (ops := RealOps) 5 corpus_ab 1
           table_ab 25 1%R 1%R
           (score_function (ops := RealOps) table_ab 0 1 25 1%R 1%R) "ab").
  - lia.
  - reflexivity.
  - reflexivity.
  - reflexivity.
  - exact Hsign.
  - reflexivity.
  - vm_compute. discriminate.
  - apply real_in_float_range.
Defined.

(** C3, as stated, fails.  On the table that [ngram_values] builds for
    the corpus of the two strings a and b with n = 1, in which every
    total frequency is 0 after the zero-score pass, the scorer raises a
    [ZeroDivisionError] on the string ab of lowercase letters, with the
    exponents 1.  And with the length exponent 0, on the table of
    [corpus8], the length penalty of the empty string, which has
    m = 0 <= 25 n-grams, is 0^0 = 1 and not 0: the score is
    (0 + 1) / 1. *)
Lemma score_formula_not_always_returned :
  ngram_values 5 corpus_ab 1 true = Ok table_ab
  /\ tfidf_score_function (ops := RealOps) table_ab 25 1%R 1%R
     = Ok (score_function table_ab 0 1 25 1%R 1%R)
  /\ PyStr.all_chars PyStr.is_lower_letter "ab" = true
  /\ score_function (ops := RealOps) table_ab 0 1 25 1%R 1%R "ab"
     = Raise ZeroDivisionError
  /\ tfidf_score_function (ops := RealOps) table8 25 0%R 1%R
     = Ok (score_function table8 8 1 25 0%R 1%R)
  /\ math_pow (ops := RealOps) (Z.max 0 (0 - 25)) 0%R = Ok 1%R
  /\ score_function (ops := RealOps) table8 8 1 25 0%R 1%R ""
     = Ok ((0 + 1) / 1)%R.
Proof.
  assert (Hsign : @fsign RealOps 1%R = Gt) by (apply Rcompare_positive; lra).
  assert (Hzero : @fsign RealOps 0%R = Eq).
  { cbn [fsign RealOps]. destruct (Rcompare_spec 0 0); [reflexivity|lra|lra]. }
  assert (Hpow : math_pow (ops := RealOps) 0 0%R = Ok 1%R).
  { rewrite (math_pow_zero (ops := RealOps)) by reflexivity.
    now rewrite Hzero. }
  split; [reflexivity|]. split; [reflexivity|]. split; [reflexivity|].
  split; [|split; [reflexivity|split; [exact Hpow|]]].
  - apply (scorer_first_term_zero_division (ops := RealOps) table_ab 1 25
             1%R 1%R "ab" "a" ["b"]).
    + reflexivity.
    + discriminate.
    + exact Hsign.
    + apply real_in_float_range.
  - unfold score_function. change (ngrams "" 1) with (@nil string).
    cbn [List.length Z.of_nat fold_left].
    change (Z.max 0 (0 - 25)) with 0. rewrite Hpow. reflexivity.
Qed.

Lemma detector_verdict_on_printable_witness :
  nonsense_detector (ops := RealOps)
    (score_function table8 8 1 25 1%R 1%R) 6 (IZR 8) "Ab, c-1 xyz!"
  = Ok (fgtb (FloatOps := RealOps)
          (score_formula table8 8 1 25 1%R 1%R "abcxyz") (IZR 8)).
Proof.
  assert (Hsign : @fsign RealOps 1%R = Gt) by (apply Rcompare_positive; lra).
  apply (detector_verdict_on_printable (ops := RealOps) 5 corpus8 1 table8
           None 6 (IZR 8) 25 1%R 1%R 8
           (nonsense_detector (ops := RealOps)
              (score_function (ops := RealOps) table8 8 1 25 1%R 1%R)
              6 (IZR 8))
           "Ab, c-1 xyz!").
  - lia.
  - reflexivity.
  - reflexivity.
  - discriminate.
  - reflexivity.
  - reflexivity.
  - exact Hsign.
  - reflexivity.
  - apply real_in_float_range.
Defined.

(* ------------------------------------------------------------------ *)
(** ** The test harness *)

Section TestingFacts.

Variable nonsense_tester : string -> bool -> result bool.
Variable min_length : Z.

Lemma test_string_raise (sense : string) (trace_scores : bool)
    (l : list string) (e : exn) :
  fold_left (test_string nonsense_tester min_length sense trace_scores) l
    (Raise e) = Raise e.
Proof. induction l as [|x l IH]; [reflexivity|exact IH]. Qed.

(** The strings that the harness skips. *)
Lemma run_tests_invariant (sense : string) (trace_scores : bool)
    (l : list string) (f0 s0 c0 k0 f s c k : Z) :
  fold_left (test_string nonsense_tester min_length sense trace_scores) l
    (Ok (f0, s0, c0, k0)) = Ok (f, s, c, k) ->
  f + s - c = f0 + s0 - c0
  /\ c + k = c0 + k0 + Z.of_nat (List.length l)
  /\ f0 <= f /\ s0 <= s
  /\ k = k0 + Z.of_nat (List.length
                          (filter (fun x => PyStr.len (normalize x) <? min_length)
                             l)).
Proof.
  revert f0 s0 c0 k0. induction l as [|x l IH]; intros f0 s0 c0 k0;
    cbn [fold_left].
  - intros [= <- <- <- <-]. cbn [List.length filter]. lia.
  - cbn [test_string bind filter].
    destruct (PyStr.len (normalize x) <? min_length).
    + intros H. apply IH in H. cbn [List.length]. lia.
    + destruct (nonsense_tester (normalize x) trace_scores) as [b|e];
        cbn [bind]; [|rewrite test_string_raise; discriminate].
      destruct (String.eqb sense "valid"); intros H; apply IH in H;
        cbn [List.length]; destruct b; cbn [int_of_bool negb] in H; lia.
Qed.

(** X19. The totals of [run_tests] in [test_strings]: when it returns,
    every tested string is a failure or a success, every string of the
    list is tested or skipped, and the skipped strings are those whose
    normalized form is shorter than [min_length]. *)
Theorem run_tests_totals (sense : string) (trace_scores : bool)
    (id_list : list string) (failures successes count skipped : Z) :
  run_tests nonsense_tester min_length sense id_list trace_scores
  = Ok (failures, successes, count, skipped) ->
  failures + successes = count
  /\ count + skipped = Z.of_nat (List.length id_list)
  /\ 0 <= failures /\ 0 <= successes
  /\ skipped
     = Z.of_nat (List.length
                   (filter (fun x => PyStr.len (normalize x) <? min_length)
                      id_list)).
Proof.
  unfold run_tests. intros H. apply run_tests_invariant in H. lia.
Qed.

Lemma run_tests_all_skipped (sense : string) (trace_scores : bool)
    (l : list string) (f0 s0 c0 k0 : Z) :
  Forall (fun x => PyStr.len (normalize x) < min_length) l ->
  fold_left (test_string nonsense_tester min_length sense trace_scores) l
    (Ok (f0, s0, c0, k0))
  = Ok (f0, s0, c0, k0 + Z.of_nat (List.length l)).
Proof.
  revert k0. induction l as [|x l IH]; intros k0 Hall; cbn [fold_left].
  - cbn [List.length]. now rewrite Z.add_0_r.
  - inversion Hall as [|? ? Hx Hl]; subst. cbn [test_string bind].
    apply Z.ltb_lt in Hx. rewrite Hx. rewrite IH by exact Hl.
    cbn [List.length]. do 2 f_equal. lia.
Qed.

(** X20. When every string of the list is skipped, and so for the empty
    list, [test_strings] returns the totals without a trace and raises a
    [ZeroDivisionError] with [trace_scores]: the percentage of
    [print_stats] divides by the number of tested strings. *)
Theorem test_strings_all_skipped (sense : string) (id_list : list string) :
  Forall (fun x => PyStr.len (normalize x) < min_length) id_list ->
  test_strings nonsense_tester min_length sense id_list false
  = Ok (0, 0, 0, Z.of_nat (List.length id_list))
  /\ test_strings nonsense_tester min_length sense id_list true
     = Raise ZeroDivisionError.
Proof.
  intros Hall. unfold test_strings, run_tests.
  rewrite !run_tests_all_skipped by exact Hall. split; reflexivity.
Qed.

(** X21. [test_strings] returns the totals of [run_tests] and raises
    what [run_tests] raises, but for one case: with [trace_scores], a run
    in which no string was tested ends in the [ZeroDivisionError] of
    [print_stats]. *)
Theorem test_strings_result (sense : string) (id_list : list string)
    (trace_scores : bool) :
  test_strings nonsense_tester min_length sense id_list trace_scores
  = match run_tests nonsense_tester min_length sense id_list trace_scores with
    | Ok (failures, successes, count, skipped) =>
        if (trace_scores && (count =? 0))%bool then Raise ZeroDivisionError
        else Ok (failures, successes, count, skipped)
    | Raise e => Raise e
    end.
Proof.
  unfold test_strings.
  destruct (run_tests nonsense_tester min_length sense id_list trace_scores)
    as [[[[f s] c] k]|e] eqn:H; cbn [bind]; [|reflexivity].
  destruct trace_scores; cbn [andb]; [|reflexivity].
  unfold run_tests in H. apply run_tests_invariant in H.
  cbn [print_stats].
  destruct (c =? 0) eqn:Ec;
    [apply Z.eqb_eq in Ec|apply Z.eqb_neq in Ec].
  - replace (f + s =? 0) with true by (symmetry; apply Z.eqb_eq; lia).
    reflexivity.
  - replace (f + s =? 0) with false by (symmetry; apply Z.eqb_neq; lia).
    reflexivity.
Qed.

Lemma run_tests_sense_from (sense : string) (trace_scores : bool)
    (l : list string) (f0 s0 c0 k0 : Z) :
  String.eqb sense "valid" = false ->
  fold_left (test_string nonsense_tester min_length sense trace_scores) l
    (Ok (f0, s0, c0, k0))
  = match fold_left
            (test_string nonsense_tester min_length "valid" trace_scores) l
            (Ok (s0, f0, c0, k0)) with
    | Ok (failures, successes, count, skipped) =>
        Ok (successes, failures, count, skipped)
    | Raise e => Raise e
    end.
Proof.
  intros Hs. revert f0 s0 c0 k0.
  induction l as [|x l IH]; intros f0 s0 c0 k0; cbn [fold_left].
  - reflexivity.
  - cbn [test_string bind]. rewrite Hs.
    change (String.eqb "valid" "valid") with true. cbv iota.
    destruct (PyStr.len (normalize x) <? min_length); [apply IH|].
    destruct (nonsense_tester (normalize x) trace_scores) as [b|e];
      cbn [bind]; [apply IH|].
    now rewrite !test_string_raise.
Qed.

(** X22. The argument [sense] only exchanges the failures and the
    successes: with any other value than valid, [run_tests] raises what
    it raises with valid, or returns the same totals with the two counts
    exchanged. *)
Theorem run_tests_sense (sense : string) (trace_scores : bool)
    (id_list : list string) :
  sense <> "valid" ->
  run_tests nonsense_tester min_length sense id_list trace_scores
  = match run_tests nonsense_tester min_length "valid" id_list trace_scores with
    | Ok (failures, successes, count, skipped) =>
        Ok (successes, failures, count, skipped)
    | Raise e => Raise e
    end.
Proof.
  intros Hs. apply String.eqb_neq in Hs. unfold run_tests.
  now apply run_tests_sense_from.
Qed.

End TestingFacts.

Lemma test_strings_all_skipped_witness :
  test_strings (fun _ _ => Ok true) 6 "valid" ["abc"; "12345678"] false
  = Ok (0, 0, 0, 2)
  /\ test_strings (fun _ _ => Ok true) 6 "valid" ["abc"; "12345678"] true
     = Raise ZeroDivisionError.
Proof.
  apply (test_strings_all_skipped (fun _ _ => Ok true) 6 "valid"
           ["abc"; "12345678"]).
  repeat constructor.
Defined.

Lemma run_tests_totals_witness :
  2 + 1 = 3
  /\ 3 + 1 = Z.of_nat (List.length ["Abcdefg"; "x1"; "hijklmn"; "opqrstu"])
  /\ 0 <= 2 /\ 0 <= 1
  /\ 1 = Z.of_nat
           (List.length
              (filter (fun x => PyStr.len (normalize x) <? 6)
                 ["Abcdefg"; "x1"; "hijklmn"; "opqrstu"])).
Proof.
  apply (run_tests_totals
           (fun s _ => Ok (String.eqb s "hijklmn")) 6 "invalid" false
           ["Abcdefg"; "x1"; "hijklmn"; "opqrstu"] 2 1 3 1).
  reflexivity.
Defined.

Lemma run_tests_sense_witness :
  run_tests (fun s _ => Ok (String.eqb s "hijklmn")) 6 "invalid"
    ["Abcdefg"; "x1"; "hijklmn"] false
  = match run_tests (fun s _ => Ok (String.eqb s "hijklmn")) 6 "valid"
            ["Abcdefg"; "x1"; "hijklmn"] false with
    | Ok (failures, successes, count, skipped) =>
        Ok (successes, failures, count, skipped)
    | Raise e => Raise e
    end.
Proof.
  apply (run_tests_sense (fun s _ => Ok (String.eqb s "hijklmn")) 6
           "invalid" false ["Abcdefg"; "x1"; "hijklmn"]).
  discriminate.
Defined.

(** ** The harness with a detector *)

Lemma lower_lower (s : string) : PyStr.lower (PyStr.lower s) = PyStr.lower s.
Proof.
  induction s as [|c s IH]; [reflexivity|].
  cbn [PyStr.lower]. now rewrite lower_char_idempotent, IH.
Qed.

Lemma fold_left_step_ext {A B : Type} (f g : A -> B -> A) (l : list B) (a : A) :
  (forall x y, f x y = g x y) -> fold_left f l a = fold_left g l a.
Proof.
  intros H. revert a. induction l as [|b l IH]; intros a; cbn [fold_left];
    [reflexivity|]. now rewrite H, IH.
Qed.

Section HarnessFacts.

Context {ops : FloatOps}.

(** X23. [test_strings] normalizes each string and skips the short ones
    before it calls the tester.  With a detector as the tester, and a
    [min_length] of the detector that does not exceed the one of the
    harness, the detector never raises the error of the too short input:
    the run is the run of the tester that scores the normalized string
    and compares the score with [min_score]. *)
Theorem run_tests_with_detector (string_score : string -> result F)
    (detector_min_length : Z) (min_score : F) (min_length : Z)
    (sense : string) (id_list : list string) (trace_scores : bool) :
  detector_min_length <= min_length ->
  run_tests
    (detector_as_tester
       (nonsense_detector string_score detector_min_length min_score))
    min_length sense id_list trace_scores
  = run_tests
      (fun s _ => score <- string_score s ;; Ok (fgtb score min_score))
      min_length sense id_list trace_scores.
Proof.
  intros Hle. unfold run_tests. apply fold_left_step_ext.
  intros [[[[f s] c] k]|e] x; [|reflexivity].
  cbn [test_string bind].
  destruct (PyStr.len (normalize x) <? min_length) eqn:E; [reflexivity|].
  apply Z.ltb_ge in E. unfold detector_as_tester, nonsense_detector.
  rewrite normalize_normalize.
  replace (PyStr.len (normalize x) <? detector_min_length) with false
    by (symmetry; apply Z.ltb_ge; lia).
  reflexivity.
Qed.

(** X24. The builder and the detector do not see the case of the
    letters: [ngram_values] gives for a corpus what it gives for the
    corpus in lower case, and a detector gives for a string what it
    gives for the string in lower case. *)
Theorem case_is_ignored (limit : nat) (string_list : list string) (n : Z)
    (readjust_zero_scores : bool) (string_score : string -> result F)
    (min_length : Z) (min_score : F) (raw : string) :
  ngram_values limit (map PyStr.lower string_list) n readjust_zero_scores
  = ngram_values limit string_list n readjust_zero_scores
  /\ nonsense_detector string_score min_length min_score (PyStr.lower raw)
     = nonsense_detector string_score min_length min_score raw.
Proof.
  split.
  - assert (H : count_pass (map PyStr.lower string_list) n
                = count_pass string_list n).
    { unfold count_pass. generalize (@nil (string * Z), @nil (string * list string), 0).
      induction string_list as [|s l IH]; intros st; cbn [map fold_left];
        [reflexivity|].
      rewrite IH. f_equal. unfold count_string. now rewrite lower_lower. }
    unfold ngram_values. now rewrite H.
  - unfold nonsense_detector, normalize. now rewrite lower_lower.
Qed.

End HarnessFacts.

Lemma run_tests_with_detector_witness :
  run_tests
    (detector_as_tester
       (nonsense_detector (ops := RealOps)
          (score_function table8 8 1 25 1%R 1%R) 4 (IZR 8)))
    6 "valid" ["Ab, c-1 xyz!"; "a1"] false
  = run_tests
      (fun s _ =>
         score <- score_function (ops := RealOps) table8 8 1 25 1%R 1%R s ;;
         Ok (fgtb (FloatOps := RealOps) score (IZR 8)))
      6 "valid" ["Ab, c-1 xyz!"; "a1"] false.
Proof.
  apply (run_tests_with_detector (ops := RealOps)
           (score_function (ops := RealOps) table8 8 1 25 1%R 1%R)
           4 (IZR 8) 6 "valid" ["Ab, c-1 xyz!"; "a1"] false).
  lia.
Defined.

(* ------------------------------------------------------------------ *)
(** ** The harness of the labeled cases *)

Lemma split_no_separator (sep : ascii) (s : string) :
  PyStr.mem_char sep s = false -> split sep s = [s].
Proof.
  induction s as [|c s IH]; [reflexivity|]. cbn [PyStr.mem_char split].
  rewrite Ascii.eqb_sym. destruct (Ascii.eqb c sep); [discriminate|].
  cbn [orb]. intros H. now rewrite (IH H).
Qed.

Lemma mem_char_lstrip (c : ascii) (s : string) :
  PyStr.mem_char c s = false -> PyStr.mem_char c (lstrip s) = false.
Proof.
  induction s as [|d s IH]; [reflexivity|]. intros H. cbn [lstrip].
  destruct (is_space d); [|exact H]. cbn [PyStr.mem_char] in H.
  apply orb_false_iff in H. now apply IH.
Qed.

Lemma mem_char_rstrip (c : ascii) (s : string) :
  PyStr.mem_char c s = false -> PyStr.mem_char c (rstrip s) = false.
Proof.
  induction s as [|d s IH]; [reflexivity|]. cbn [PyStr.mem_char rstrip].
  intros H. apply orb_false_iff in H. destruct H as [Hd Hs].
  specialize (IH Hs). destruct (rstrip s) as [|d' r].
  - destruct (is_space d); [reflexivity|]. cbn [PyStr.mem_char].
    now rewrite Hd.
  - cbn [PyStr.mem_char] in *. now rewrite Hd, IH.
Qed.

Section LabeledFacts.

Variable nonsense_tester : string -> bool -> result bool.
Variable min_length : Z.
Variable trace_scores : bool.

Lemma test_line_failed (l : list string) (e : labeled_exn) :
  fold_left (test_line nonsense_tester min_length trace_scores) l (Failed e)
  = Failed e.
Proof. induction l as [|x l IH]; [reflexivity|exact IH]. Qed.

Lemma run_tests_labeled_invariant (l : list string)
    (fp0 fn0 fp fn : list string) (c0 k0 c k : Z) :
  fold_left (test_line nonsense_tester min_length trace_scores) l
    (Totals fp0 fn0 c0 k0) = Totals fp fn c k ->
  c + k = c0 + k0 + Z.of_nat (List.length l)
  /\ Z.of_nat (List.length fp) + Z.of_nat (List.length fn) - c
     <= Z.of_nat (List.length fp0) + Z.of_nat (List.length fn0) - c0
  /\ ((forall x, In x fp0 -> nonsense_tester x trace_scores = Ok true) ->
      forall x, In x fp -> nonsense_tester x trace_scores = Ok true)
  /\ ((forall x, In x fn0 -> nonsense_tester x trace_scores = Ok false) ->
      forall x, In x fn -> nonsense_tester x trace_scores = Ok false)
  /\ ((forall x, In x fp0 -> min_length <= PyStr.len x) ->
      (forall x, In x fn0 -> min_length <= PyStr.len x) ->
      forall x, In x fp \/ In x fn -> min_length <= PyStr.len x).
Proof.
  revert fp0 fn0 c0 k0. induction l as [|line l IH]; intros fp0 fn0 c0 k0;
    cbn [fold_left].
  - intros [= <- <- <- <-]. cbn [List.length].
    repeat split; try lia; auto. intros Hp Hn x [H|H]; auto.
  - cbn [test_line].
    destruct (split comma (strip line)) as [|first [|s rest]];
      try (rewrite test_line_failed; discriminate).
    destruct (PyStr.len s <? min_length) eqn:Elen.
    { intros H. apply IH in H. cbn [List.length]. 
      destruct H as (H1 & H2 & H3 & H4 & H5).
      repeat split; try lia; auto. }
    apply Z.ltb_ge in Elen.
    destruct (nonsense_tester s trace_scores) as [junk|e] eqn:Et;
      [|rewrite test_line_failed; discriminate].
    destruct (String.eqb first "y"), junk; cbn [negb];
      intros H; apply IH in H; cbn [List.length];
      destruct H as (H1 & H2 & H3 & H4 & H5);
      rewrite ?length_app in H2; cbn [List.length] in H2;
      (split; [lia|]); (split; [lia|]);
      (split; [intros Hp; apply H3; intros x Hx;
               try (apply in_app_or in Hx; destruct Hx as [Hx|[<-|[]]]);
               auto|]);
      (split; [intros Hn; apply H4; intros x Hx;
               try (apply in_app_or in Hx; destruct Hx as [Hx|[<-|[]]]);
               auto|]);
      intros Hp Hn; apply H5; intros x Hx;
      try (apply in_app_or in Hx; destruct Hx as [Hx|[<-|[]]]); auto.
Qed.

(** X25. The totals of [run_tests] in [test_labeled]: when it returns,
    every line is tested or skipped, the false positives and the false
    negatives are tested strings of at least [min_length] characters,
    and the tester says true on every false positive and false on every
    false negative. *)
Theorem run_tests_labeled_totals (lines : list string)
    (false_positives false_negatives : list string) (count skipped : Z) :
  run_tests_labeled nonsense_tester min_length lines trace_scores
  = Totals false_positives false_negatives count skipped ->
  count + skipped = Z.of_nat (List.length lines)
  /\ Z.of_nat (List.length false_positives)
     + Z.of_nat (List.length false_negatives) <= count
  /\ (forall x, In x false_positives ->
        nonsense_tester x trace_scores = Ok true /\ min_length <= PyStr.len x)
  /\ (forall x, In x false_negatives ->
        nonsense_tester x trace_scores = Ok false /\ min_length <= PyStr.len x).
Proof.
  unfold run_tests_labeled. intros H. apply run_tests_labeled_invariant in H.
  destruct H as (H1 & H2 & H3 & H4 & H5). cbn [List.length] in H2.
  split; [lia|]. split; [lia|]. split.
  - intros x Hx. split; [apply H3; [intros ? []|exact Hx]|].
    apply H5; [intros ? []|intros ? []|now left].
  - intros x Hx. split; [apply H4; [intros ? []|exact Hx]|].
    apply H5; [intros ? []|intros ? []|now right].
Qed.

(** X26. A line without a comma, such as an empty line, ends the run of
    [test_labeled] in the [IndexError] of [pieces[1]], once the lines
    before it have been handled without an exception. *)
Theorem run_tests_labeled_index_error (before after : list string)
    (line : string) (fp fn : list string) (c k : Z) :
  run_tests_labeled nonsense_tester min_length before trace_scores
  = Totals fp fn c k ->
  PyStr.mem_char comma line = false ->
  run_tests_labeled nonsense_tester min_length (before ++ line :: after)
    trace_scores
  = Failed IndexError.
Proof.
  unfold run_tests_labeled. intros Hb Hline.
  rewrite fold_left_app, Hb. cbn [fold_left test_line].
  rewrite split_no_separator.
  - apply test_line_failed.
  - unfold strip. now apply mem_char_lstrip, mem_char_rstrip.
Qed.

End LabeledFacts.

Lemma run_tests_labeled_totals_witness :
  2 + 1 = Z.of_nat (List.length
                      [("y,abcdefg" ++ line_feed)%string;
                       ("n,xy" ++ line_feed)%string;
                       ("n,hijklmn" ++ line_feed)%string])
  /\ Z.of_nat (List.length ["abcdefg"]) + Z.of_nat (List.length ["hijklmn"])
     <= 2
  /\ (forall x, In x ["abcdefg"] ->
        Ok (String.eqb x "abcdefg") = Ok true /\ 6 <= PyStr.len x)
  /\ (forall x, In x ["hijklmn"] ->
        Ok (String.eqb x "abcdefg") = Ok false /\ 6 <= PyStr.len x).
Proof.
  apply (run_tests_labeled_totals
           (fun s _ => Ok (String.eqb s "abcdefg")) 6 false
           [("y,abcdefg" ++ line_feed)%string;
            ("n,xy" ++ line_feed)%string;
            ("n,hijklmn" ++ line_feed)%string]
           ["abcdefg"] ["hijklmn"] 2 1).
  reflexivity.
Defined.

Lemma run_tests_labeled_index_error_witness :
  run_tests_labeled (fun s _ => Ok (String.eqb s "abcdefg")) 6
    ([("y,abcdefg" ++ line_feed)%string] ++ line_feed :: []) false
  = Failed IndexError.
Proof.
  apply (run_tests_labeled_index_error
           (fun s _ => Ok (String.eqb s "abcdefg")) 6 false
           [("y,abcdefg" ++ line_feed)%string] [] line_feed
           ["abcdefg"] [] 1 0).
  - reflexivity.
  - reflexivity.
Defined.

Section LabeledDetector.

Context {ops : FloatOps}.

(** X27. [test_labeled] compares the length of the string as it stands
    in the file with [min_length], where [test_strings] compares the
    length of the normalized string.  With a detector as the tester, a
    line whose string is long enough as it stands and too short once
    normalized ends the run in the detector's error of the too short
    input. *)
Theorem run_tests_labeled_too_short (string_score : string -> result F)
    (detector_min_length : Z) (min_score : F) (min_length : Z)
    (trace_scores : bool) (before after : list string) (line : string)
    (first s : string) (rest : list string)
    (fp fn : list string) (c k : Z) :
  let tester :=
    detector_as_tester
      (nonsense_detector string_score detector_min_length min_score) in
  run_tests_labeled tester min_length before trace_scores = Totals fp fn c k ->
  split comma (strip line) = first :: s :: rest ->
  min_length <= PyStr.len s ->
  PyStr.len (normalize s) < detector_min_length ->
  run_tests_labeled tester min_length (before ++ line :: after) trace_scores
  = Failed (TesterRaised (ValueError Too_short_to_test)).
Proof.
  intros tester Hb Hsplit Hraw Hnorm. unfold run_tests_labeled in *.
  rewrite fold_left_app, Hb. cbn [fold_left test_line]. rewrite Hsplit.
  replace (PyStr.len s <? min_length) with false
    by (symmetry; apply Z.ltb_ge; lia).
  unfold tester, detector_as_tester, nonsense_detector.
  apply Z.ltb_lt in Hnorm. rewrite Hnorm. apply test_line_failed.
Qed.

End LabeledDetector.

Lemma run_tests_labeled_too_short_witness :
  run_tests_labeled
    (detector_as_tester
       (nonsense_detector (ops := RealOps)
          (score_function table8 8 1 25 1%R 1%R) 6 (IZR 8)))
    6 ([] ++ ("n,12345678" ++ line_feed)%string :: []) false
  = Failed (TesterRaised (ValueError Too_short_to_test)).
Proof.
  apply (run_tests_labeled_too_short (ops := RealOps)
           (score_function (ops := RealOps) table8 8 1 25 1%R 1%R)
           6 (IZR 8) 6 false [] [] ("n,12345678" ++ line_feed)%string
           "n" "12345678" [] [] [] 0 0).
  - reflexivity.
  - reflexivity.
  - vm_compute. discriminate.
  - reflexivity.
Defined.
